(** * trade-review-ai: market context analysis, trade evaluation, aggregation

    A shallow embedding of the analytic core of the repository
    ([market_analysis], [trade_evaluation], [analyzer], [utils]) and the
    properties its specification states about it.

    Numbers.  The Python code computes on IEEE doubles; here a [float] is an
    exact rational ([Q]), so every arithmetic step is the exact one and
    rounding is not modelled.  Results are compared with [==] ([Qeq]) unless a
    function returns a literal.  Python exceptions are explicit: a division
    whose divisor is zero yields [Raise ZeroDivisionError]. *)

From Stdlib Require Import QArith Qabs Qminmax Qpower Qfield Lqa ZArith List Lia Bool String.
From Stdlib Require Import Sorting.Sorted Sorting.Permutation.
From Stdlib Require Import Ascii.
From Stdlib Require DecimalString DecimalNat.
Import ListNotations.

Local Open Scope Q_scope.

(** ** Python numerics *)

Module Py.

(** A Python [float]. *)
Abbreviation float := Q (only parsing).

Inductive exn := ZeroDivisionError.

Inductive result (A : Type) : Type :=
| Ok (a : A)
| Raise (e : exn).
Arguments Ok {A} a.
Arguments Raise {A} e.

Definition bind {A B} (r : result A) (k : A -> result B) : result B :=
  match r with
  | Ok a => k a
  | Raise e => Raise e
  end.

(** [a < b] on floats. *)
Definition ltb (a b : float) : bool := negb (Qle_bool b a).

(** [a <= b] on floats. *)
Definition leb (a b : float) : bool := Qle_bool a b.

(** [a == b] on floats. *)
Definition eqb (a b : float) : bool := Qeq_bool a b.

(** [a / b] on Python floats: raises when the divisor is zero. *)
Definition div (a b : float) : result float :=
  if eqb b 0 then Raise ZeroDivisionError else Ok (a / b).

(** [max(a, b)]: the first argument unless the second is larger. *)
Definition max (a b : float) : float := if ltb a b then b else a.

(** [min(a, b)]: the first argument unless the second is smaller. *)
Definition min (a b : float) : float := if ltb b a then b else a.

(** [max(a, b, c)]. *)
Definition max3 (a b c : float) : float := max (max a b) c.

(** [sum(l)] and [np.sum(l)]. *)
Fixpoint sum (l : list float) : float :=
  match l with
  | [] => 0
  | x :: l' => x + sum l'
  end.

(** [len(l)] as a float. *)
Definition len {A} (l : list A) : float := inject_Z (Z.of_nat (List.length l)).

(** [np.mean(l)], used by the code on non-empty lists only. *)
Definition mean (l : list float) : float := sum l / len l.

(** [max(l)]: the running maximum from the first element on; the callers
    guard the empty list, for which [d] stands. *)
Definition maximum (l : list float) (d : float) : float :=
  match l with
  | [] => d
  | x :: l' => fold_left max l' x
  end.

(** Element-wise combination of two arrays of the same length. *)
Fixpoint zip_with {A B C} (f : A -> B -> C) (l1 : list A) (l2 : list B) : list C :=
  match l1, l2 with
  | a :: l1', b :: l2' => f a b :: zip_with f l1' l2'
  | _, _ => []
  end.

(** [x ** 2]. *)
Definition sq (x : float) : float := x * x.

(** [l[:k]]: a negative [k] counts from the end. *)
Definition slice_to {A} (l : list A) (k : Z) : list A :=
  if (k <? 0)%Z
  then firstn (Z.to_nat (Z.of_nat (List.length l) + k)) l
  else firstn (Z.to_nat k) l.

(** [sorted(l)]: a stable ascending sort. *)
Fixpoint insert (x : float) (l : list float) : list float :=
  match l with
  | [] => [x]
  | y :: l' => if Qle_bool x y then x :: y :: l' else y :: insert x l'
  end.

Fixpoint sorted (l : list float) : list float :=
  match l with
  | [] => []
  | x :: l' => insert x (sorted l')
  end.

End Py.

Notation "x <- c ;; k" := (Py.bind c (fun x => k))
  (at level 61, c at next level, right associativity).

(** ** Data model ([models.py]) *)

Inductive Side := Buy | Sell.
Inductive Trend := Bullish | Bearish | Neutral.
Inductive Quality := Good | Acceptable | Poor.
Inductive Discipline := High | Medium | Low.

Record OHLCV := mkOHLCV {
  timestamp : Z;
  open : Py.float;
  high : Py.float;
  low : Py.float;
  close : Py.float;
  volume : Py.float
}.

Record Trade := mkTrade {
  trade_id : string;
  trade_timestamp : Z;
  symbol : string;
  side : Side;
  entry_price : Py.float;
  exit_price : option Py.float;
  exit_timestamp : option Z;
  quantity : Py.float;
  stop_loss : option Py.float;
  take_profit : option Py.float;
  pnl : option Py.float;
  notes : option string
}.

Record MarketContext := mkMarketContext {
  ctx_symbol : string;
  start_date : Z;
  end_date : Z;
  trend : Trend;
  trend_strength : Py.float;
  volatility : Py.float;
  support_levels : list Py.float;
  resistance_levels : list Py.float;
  average_volume : Py.float
}.

Record TradeEvaluation := mkTradeEvaluation {
  eval_trade_id : string;
  entry_quality : Quality;
  exit_quality : option Quality;
  risk_reward_ratio : option Py.float;
  aligned_with_trend : bool;
  execution_discipline : Discipline;
  key_observations : list string
}.

Definition is_none {A} (o : option A) : bool :=
  match o with None => true | Some _ => false end.

Definition is_some {A} (o : option A) : bool := negb (is_none o).

(** ** Trade evaluation ([trade_evaluation/__init__.py]) *)

Module TradeEvaluator.

(** [any(abs(entry - level) / level < 0.01 for level in levels)]: the
    generator is consumed left to right and [any] stops at the first
    true element, so a zero level raises only if it is reached. *)
Fixpoint any_near (entry : Py.float) (levels : list Py.float) : Py.result bool :=
  match levels with
  | [] => Py.Ok false
  | level :: rest =>
      r <- Py.div (Qabs (entry - level)) level ;;
      if Py.ltb r (1 # 100) then Py.Ok true else any_near entry rest
  end.

Definition trend_score (tr : Trend) (s : Side) : Z :=
  match tr, s with
  | Bullish, Buy => 2
  | Bearish, Sell => 2
  | Neutral, _ => 1
  | _, _ => -1
  end.

Definition evaluate_entry_quality (trade : Trade) (market_context : MarketContext)
  : Py.result Quality :=
  let score := (0 + trend_score (trend market_context) (side trade))%Z in
  near <- match side trade with
          | Buy => any_near (entry_price trade) (support_levels market_context)
          | Sell => any_near (entry_price trade) (resistance_levels market_context)
          end ;;
  let score := if (near : bool) then (score + 2)%Z else score in
  if (3 <=? score)%Z then Py.Ok Good
  else if (1 <=? score)%Z then Py.Ok Acceptable
  else Py.Ok Poor.

Definition calculate_risk_reward (trade : Trade) : option Py.float :=
  match stop_loss trade, take_profit trade with
  | Some sl, Some tp =>
      let '(risk, reward) :=
        match side trade with
        | Buy => (Qabs (entry_price trade - sl), Qabs (tp - entry_price trade))
        | Sell => (Qabs (sl - entry_price trade), Qabs (entry_price trade - tp))
        end in
      if Py.eqb risk 0 then None else Some (reward / risk)
  | _, _ => None
  end.

Definition evaluate_exit_quality (trade : Trade) (market_context : MarketContext)
  : Py.result (option Quality) :=
  match exit_price trade with
  | None => Py.Ok None
  | Some exit =>
      let score := 0%Z in
      pnl_pct <- match side trade with
                 | Buy => Py.div (exit - entry_price trade) (entry_price trade)
                 | Sell => Py.div (entry_price trade - exit) (entry_price trade)
                 end ;;
      let score :=
        if Py.ltb (2 # 100) pnl_pct then (score + 2)%Z
        else if Py.ltb 0 pnl_pct then (score + 1)%Z
        else if Py.ltb pnl_pct (- (2 # 100)) then (score - 2)%Z
        else (score - 1)%Z in
      let score := if is_some (stop_loss trade) then (score + 1)%Z else score in
      let score := if is_some (take_profit trade) then (score + 1)%Z else score in
      if (3 <=? score)%Z then Py.Ok (Some Good)
      else if (0 <=? score)%Z then Py.Ok (Some Acceptable)
      else Py.Ok (Some Poor)
  end.

(** [if trade.notes]: a note that is present and not empty. *)
Definition has_notes (trade : Trade) : bool :=
  match notes trade with
  | Some EmptyString | None => false
  | Some _ => true
  end.

Definition evaluate_execution_discipline (trade : Trade) : Discipline :=
  let score := 0%Z in
  let score := if is_some (stop_loss trade) then (score + 2)%Z else score in
  let score := if is_some (take_profit trade) then (score + 2)%Z else score in
  let score := if has_notes trade then (score + 1)%Z else score in
  let rr := calculate_risk_reward trade in
  let score :=
    match rr with
    | Some r =>
        if Py.leb 2 r then (score + 2)%Z
        else if Py.leb 1 r then (score + 1)%Z
        else score
    | None => score
    end in
  if (5 <=? score)%Z then High
  else if (3 <=? score)%Z then Medium
  else Low.

Definition check_trend_alignment (trade : Trade) (market_context : MarketContext) : bool :=
  match trend market_context, side trade with
  | Bullish, Buy => true
  | Bearish, Sell => true
  | Neutral, _ => true
  | _, _ => false
  end.

Section Observations.

(** [format_2f x] stands for the rendering [f"{x:.2f}"] of a float with two
    decimals, a built-in of the language taken here as a parameter. *)
Variable format_2f : Py.float -> string.

Definition evaluate_trade (trade : Trade) (market_context : MarketContext)
  : Py.result TradeEvaluation :=
  entry_quality <- evaluate_entry_quality trade market_context ;;
  exit_quality <- evaluate_exit_quality trade market_context ;;
  let risk_reward := calculate_risk_reward trade in
  let aligned := check_trend_alignment trade market_context in
  let discipline := evaluate_execution_discipline trade in
  let observations : list string := [] in
  let observations :=
    match entry_quality with
    | Good =>
        observations ++ ["Entry was well-timed and aligned with market structure"%string]
    | Poor =>
        observations ++ ["Entry could be improved - consider market context"%string]
    | Acceptable => observations
    end in
  let observations :=
    if negb aligned
    then observations ++ ["Trade was counter-trend - higher risk strategy"%string]
    else observations in
  let observations :=
    match risk_reward with
    | Some rr =>
        if Py.leb 2 rr
        then observations
             ++ [("Favorable risk/reward ratio of " ++ format_2f rr)%string]
        else observations
             ++ [("Risk/reward ratio of " ++ format_2f rr ++ " could be improved")%string]
    | None =>
        observations
        ++ ["No stop loss or take profit set - missing risk management"%string]
    end in
  let observations :=
    match discipline with
    | Low =>
        observations
        ++ ["Execution discipline needs improvement - use stop losses and take profits"%string]
    | _ => observations
    end in
  Py.Ok (mkTradeEvaluation (trade_id trade) entry_quality exit_quality risk_reward
           aligned discipline observations).

(** [[evaluate_trade(trade, market_context) for trade in trades]]. *)
Fixpoint evaluate_trades (trades : list Trade) (market_context : MarketContext)
  : Py.result (list TradeEvaluation) :=
  match trades with
  | [] => Py.Ok []
  | trade :: rest =>
      evaluation <- evaluate_trade trade market_context ;;
      evaluations <- evaluate_trades rest market_context ;;
      Py.Ok (evaluation :: evaluations)
  end.

End Observations.

End TradeEvaluator.

(** ** NumPy *)

Module Np.

(** [np.arange(i, i + n)]: the [n] indices from [i] on. *)
Definition arange_from (i n : nat) : list Py.float :=
  map (fun k => inject_Z (Z.of_nat k)) (seq i n).

(** [np.arange(n)]: the indices [0 .. n-1]. *)
Definition arange (n : nat) : list Py.float := arange_from 0 n.

(** Modelled from the spec: [np.polyfit(x, y, 1)] belongs to NumPy, whose
    code is not part of the sources.  The specification calls it the ordinary
    least-squares fit of [y] against [x]; it returns the coefficients
    [(slope, intercept)], given here by the solution of the normal equations,
    which [polyfit1_least_squares] below shows to minimise the sum of squared
    residuals. *)
Definition polyfit1 (x y : list Py.float) : Py.float * Py.float :=
  let n := Py.len x in
  let sx := Py.sum x in
  let sy := Py.sum y in
  let sxy := Py.sum (Py.zip_with Qmult x y) in
  let sxx := Py.sum (Py.zip_with Qmult x x) in
  let slope := (n * sxy - sx * sy) / (n * sxx - sx * sx) in
  (slope, (sy - slope * sx) / n).

End Np.

(** ** Market analysis ([market_analysis/__init__.py]) *)

Module MarketAnalyzer.

Definition calculate_trend (ohlcv_data : list OHLCV) : Trend * Py.float :=
  if (List.length ohlcv_data <? 2)%nat then (Neutral, 0) else
  let closes := map close ohlcv_data in
  let x := Np.arange (List.length closes) in
  let '(slope, _) := Np.polyfit1 x closes in
  let y_pred := map (fun xi => slope * xi + Py.mean closes) x in
  let ss_res := Py.sum (map Py.sq (Py.zip_with Qminus closes y_pred)) in
  let ss_tot := Py.sum (map (fun c => Py.sq (c - Py.mean closes)) closes) in
  let r_squared := if Py.ltb 0 ss_tot then 1 - ss_res / ss_tot else 0 in
  let avg_price := Py.mean closes in
  let normalized_slope := if Py.ltb 0 avg_price then slope / avg_price else 0 in
  let threshold := 1 # 1000 in
  let trend :=
    if Py.ltb threshold normalized_slope then Bullish
    else if Py.ltb normalized_slope (- threshold) then Bearish
    else Neutral in
  let strength := Py.max 0 (Py.min 1 r_squared) in
  (trend, strength).

(** The loop body of [calculate_volatility] over the candles after the
    first, [prev_close] being the close of the candle before. *)
Fixpoint true_ranges (prev_close : Py.float) (rest : list OHLCV) : list Py.float :=
  match rest with
  | [] => []
  | c :: rest' =>
      Py.max3 (high c - low c) (Qabs (high c - prev_close)) (Qabs (low c - prev_close))
      :: true_ranges (close c) rest'
  end.

Definition calculate_volatility (ohlcv_data : list OHLCV) : Py.float :=
  if (List.length ohlcv_data <? 2)%nat then 0 else
  match ohlcv_data with
  | [] => 0
  | c0 :: rest =>
      match true_ranges (close c0) rest with
      | [] => 0
      | trs => Py.mean trs
      end
  end.

(** The state of the clustering loop: the cluster means emitted so far and
    the members of the cluster being built. *)
Definition cluster_state := (list Py.float * list Py.float)%type.

(** [current_cluster[-1]]; the cluster being built is never empty. *)
Definition last_member (current_cluster : list Py.float) : Py.float :=
  last current_cluster 0.

(** The [for level in levels[1:]] loop of [_cluster_levels]. *)
Fixpoint cluster_loop (rest : list Py.float) (st : cluster_state)
  : Py.result cluster_state :=
  match rest with
  | [] => Py.Ok st
  | level :: rest' =>
      let '(clusters, current_cluster) := st in
      r <- Py.div (Qabs (level - last_member current_cluster))
                  (last_member current_cluster) ;;
      if Py.ltb r (1 # 100)
      then cluster_loop rest' (clusters, current_cluster ++ [level])
      else cluster_loop rest' (clusters ++ [Py.mean current_cluster], [level])
  end.

Definition _cluster_levels (levels : list Py.float) (num_clusters : Z)
  : Py.result (list Py.float) :=
  match levels with
  | [] => Py.Ok []
  | _ =>
      let levels := Py.sorted levels in
      if (Z.of_nat (List.length levels) <=? num_clusters)%Z then Py.Ok levels else
      match levels with
      | [] => Py.Ok []
      | first :: rest =>
          st <- cluster_loop rest ([], [first]) ;;
          let '(clusters, current_cluster) := st in
          let clusters :=
            match current_cluster with
            | [] => clusters
            | _ => clusters ++ [Py.mean current_cluster]
            end in
          Py.Ok (Py.slice_to (Py.sorted clusters) num_clusters)
      end
  end.

(** The candles strictly inside the window whose low is below both
    neighbours' lows. *)
Fixpoint swing_lows (ohlcv_data : list OHLCV) : list Py.float :=
  match ohlcv_data with
  | a :: ((b :: c :: _) as rest) =>
      (if Py.ltb (low b) (low a) && Py.ltb (low b) (low c) then [low b] else [])
      ++ swing_lows rest
  | _ => []
  end.

(** The candles strictly inside the window whose high is above both
    neighbours' highs. *)
Fixpoint swing_highs (ohlcv_data : list OHLCV) : list Py.float :=
  match ohlcv_data with
  | a :: ((b :: c :: _) as rest) =>
      (if Py.ltb (high a) (high b) && Py.ltb (high c) (high b) then [high b] else [])
      ++ swing_highs rest
  | _ => []
  end.

Definition find_support_resistance (ohlcv_data : list OHLCV) (num_levels : Z)
  : Py.result (list Py.float * list Py.float) :=
  if (List.length ohlcv_data <? 3)%nat then Py.Ok ([], []) else
  support_levels <- _cluster_levels (swing_lows ohlcv_data) num_levels ;;
  resistance_levels <- _cluster_levels (swing_highs ohlcv_data) num_levels ;;
  Py.Ok (support_levels, resistance_levels).

Definition analyze_market_context (symbol : string) (ohlcv_data : list OHLCV)
    (start_date end_date : Z) : Py.result MarketContext :=
  let '(trend, trend_strength) := calculate_trend ohlcv_data in
  let volatility := calculate_volatility ohlcv_data in
  levels <- find_support_resistance ohlcv_data 3 ;;
  let '(support_levels, resistance_levels) := levels in
  let volumes := map volume ohlcv_data in
  let average_volume := match volumes with [] => 0 | _ => Py.mean volumes end in
  Py.Ok (mkMarketContext symbol start_date end_date trend trend_strength
           volatility support_levels resistance_levels average_volume).

End MarketAnalyzer.

(** ** Aggregation ([analyzer.py], [utils/__init__.py]) *)

(** [t.pnl] of a trade that passed the [t.pnl is not None] filter. *)
Definition pnl_value (t : Trade) : Py.float :=
  match pnl t with
  | Some p => p
  | None => 0
  end.

(** [[t for t in trades if t.pnl is not None]]. *)
Definition closed_by_pnl (trades : list Trade) : list Trade :=
  filter (fun t => is_some (pnl t)) trades.

Definition count {A} (l : list A) : Z := Z.of_nat (List.length l).

Module TradeReviewSystem.

Record PerformanceMetrics := mkPerformanceMetrics {
  total_trades : Z;
  closed_trades : Z;
  open_trades : Z;
  winning_trades : Z;
  losing_trades : Z;
  win_rate : Py.float;
  total_pnl : Py.float;
  avg_pnl : Py.float;
  trades_with_trend : Z;
  trades_against_trend : Z;
  high_discipline_trades : Z;
  good_entry_trades : Z
}.

Definition is_high (d : Discipline) : bool :=
  match d with High => true | _ => false end.

Definition is_good (q : Quality) : bool :=
  match q with Good => true | _ => false end.

Definition _calculate_performance_metrics (trades : list Trade)
    (evaluations : list TradeEvaluation) : PerformanceMetrics :=
  let total_trades := count trades in
  let closed_trades := closed_by_pnl trades in
  let winning_trades := count (filter (fun t => Py.ltb 0 (pnl_value t)) closed_trades) in
  let losing_trades := count (filter (fun t => Py.ltb (pnl_value t) 0) closed_trades) in
  let total_pnl := Py.sum (map pnl_value closed_trades) in
  let avg_pnl :=
    match closed_trades with
    | [] => 0
    | _ => total_pnl / inject_Z (count closed_trades)
    end in
  let win_rate :=
    match closed_trades with
    | [] => 0
    | _ => inject_Z winning_trades / inject_Z (count closed_trades) * 100
    end in
  let trades_with_trend := count (filter aligned_with_trend evaluations) in
  let trades_against_trend := (total_trades - trades_with_trend)%Z in
  let high_discipline :=
    count (filter (fun e => is_high (execution_discipline e)) evaluations) in
  let good_entries :=
    count (filter (fun e => is_good (entry_quality e)) evaluations) in
  mkPerformanceMetrics total_trades (count closed_trades)
    (total_trades - count closed_trades)%Z winning_trades losing_trades
    win_rate total_pnl avg_pnl trades_with_trend trades_against_trend
    high_discipline good_entries.

End TradeReviewSystem.

Module Utils.

(** A float that may be [float('inf')]. *)
Inductive xfloat :=
| Finite (q : Py.float)
| Inf.

Record AdditionalMetrics := mkAdditionalMetrics {
  max_drawdown : Py.float;
  avg_win : Py.float;
  avg_loss : Py.float;
  profit_factor : xfloat;
  largest_win : Py.float;
  largest_loss : Py.float
}.

(** One turn of the drawdown loop on the state
    [(cumulative_pnl, peak, max_dd)]. *)
Definition drawdown_step (st : Py.float * Py.float * Py.float) (trade : Trade)
  : Py.float * Py.float * Py.float :=
  let '(cumulative_pnl, peak, max_dd) := st in
  let cumulative_pnl := cumulative_pnl + pnl_value trade in
  let peak := if Py.ltb peak cumulative_pnl then cumulative_pnl else peak in
  let drawdown := peak - cumulative_pnl in
  let max_dd := if Py.ltb max_dd drawdown then drawdown else max_dd in
  (cumulative_pnl, peak, max_dd).

Definition calculate_additional_metrics (trades : list Trade) : AdditionalMetrics :=
  let closed_trades := closed_by_pnl trades in
  match closed_trades with
  | [] => mkAdditionalMetrics 0 0 0 (Finite 0) 0 0
  | _ =>
      let wins :=
        map pnl_value (filter (fun t => Py.ltb 0 (pnl_value t)) closed_trades) in
      let losses :=
        map (fun t => Qabs (pnl_value t))
            (filter (fun t => Py.ltb (pnl_value t) 0) closed_trades) in
      let avg_win := match wins with [] => 0 | _ => Py.sum wins / Py.len wins end in
      let avg_loss := match losses with [] => 0 | _ => Py.sum losses / Py.len losses end in
      let total_wins := Py.sum wins in
      let total_losses := Py.sum losses in
      let profit_factor :=
        if Py.ltb 0 total_losses then Finite (total_wins / total_losses) else Inf in
      let largest_win := Py.maximum wins 0 in
      let largest_loss := Py.maximum losses 0 in
      let '(_, _, max_dd) := fold_left drawdown_step closed_trades (0, 0, 0) in
      mkAdditionalMetrics max_dd avg_win avg_loss profit_factor largest_win largest_loss
  end.

(** [f"Trade {trade.trade_id}: <message>"]. *)
Definition warning (trade : Trade) (message : string) : string :=
  ("Trade " ++ trade_id trade ++ ": " ++ message)%string.

(** The warnings one turn of the loop of [validate_trade_data] appends. *)
Definition trade_warnings (trade : Trade) : list string :=
  (if is_none (stop_loss trade)
   then [warning trade "No stop loss defined"] else [])
  ++ (if is_none (take_profit trade)
      then [warning trade "No take profit defined"] else [])
  ++ (if is_some (exit_price trade) && is_none (pnl trade)
      then [warning trade "Exit price set but P&L not calculated"] else [])
  ++ (if is_some (exit_price trade) && is_none (exit_timestamp trade)
      then [warning trade "Exit price set but no exit timestamp"] else [])
  ++ match side trade with
     | Buy =>
         match stop_loss trade with
         | Some sl =>
             if Py.leb (entry_price trade) sl
             then [warning trade "Buy stop loss should be below entry"] else []
         | None => []
         end
         ++ match take_profit trade with
            | Some tp =>
                if Py.leb tp (entry_price trade)
                then [warning trade "Buy take profit should be above entry"] else []
            | None => []
            end
     | Sell =>
         match stop_loss trade with
         | Some sl =>
             if Py.leb sl (entry_price trade)
             then [warning trade "Sell stop loss should be above entry"] else []
         | None => []
         end
         ++ match take_profit trade with
            | Some tp =>
                if Py.leb (entry_price trade) tp
                then [warning trade "Sell take profit should be below entry"] else []
            | None => []
            end
     end.

Definition validate_trade_data (trades : list Trade) : list string :=
  flat_map trade_warnings trades.

End Utils.

(** ** Ingestion ([data_ingestion/__init__.py]) *)

Module DataIngestion.

(** [filter_by_date_range] works on candles and on trades alike through
    their [timestamp] attribute, here the accessor [timestamp_of]. *)
Definition filter_by_date_range {A} (timestamp_of : A -> Z) (data : list A)
    (start_date end_date : Z) : list A :=
  filter (fun item => (start_date <=? timestamp_of item)%Z
                      && (timestamp_of item <=? end_date)%Z) data.

End DataIngestion.

(** ** Manual trades ([live_data.py]) *)

Module ManualTradeManager.

(** The decimal digits of [n]. *)
Definition decimal (n : nat) : string :=
  DecimalString.NilEmpty.string_of_uint (Nat.to_uint n).

Fixpoint zeros (k : nat) : string :=
  match k with
  | O => EmptyString
  | S k' => String "0"%char (zeros k')
  end.

(** [f"{n:04d}"]: the decimal digits, padded on the left with zeros to four
    characters. *)
Definition format_04d (n : nat) : string :=
  (zeros (4 - String.length (decimal n)) ++ decimal n)%string.

(** The fields [_trades] and [_trade_counter] of the manager. *)
Record manager := mkManager {
  _trades : list Trade;
  _trade_counter : nat
}.

(** [ManualTradeManager()]. *)
Definition init : manager := mkManager [] 0.

(** The outcome of building a [Trade]: the model rejects a side other than
    ["buy"] and ["sell"]. *)
Inductive built :=
| Built (trade : Trade)
| ValidationError.

Definition side_of_string (s : string) : option Side :=
  if String.eqb s "buy" then Some Buy
  else if String.eqb s "sell" then Some Sell
  else None.

(** [sorted(trades, key=lambda t: t.timestamp)]: stable. *)
Fixpoint insert_by_timestamp (t : Trade) (l : list Trade) : list Trade :=
  match l with
  | [] => [t]
  | u :: l' =>
      if (trade_timestamp t <=? trade_timestamp u)%Z
      then t :: u :: l'
      else u :: insert_by_timestamp t l'
  end.

Fixpoint sorted_by_timestamp (l : list Trade) : list Trade :=
  match l with
  | [] => []
  | t :: l' => insert_by_timestamp t (sorted_by_timestamp l')
  end.

(** [x if x is not None else y]. *)
Definition or_else {A} (x y : option A) : option A :=
  match x with
  | Some _ => x
  | None => y
  end.

(** The realized P&L of a position of [quantity] entered at [entry_price]
    and left at [exit]. *)
Definition realized_pnl (buy : bool) (entry_price exit quantity : Py.float) : Py.float :=
  if buy then (exit - entry_price) * quantity else (entry_price - exit) * quantity.

Section Strings.

(** [str.upper] and [str.lower], built-ins of the language taken as
    parameters. *)
Variables (upper lower : string -> string).

(** [add_trade]; [now] is the value of [datetime.now()] at the call. *)
Definition add_trade (self : manager) (now : Z) (symbol side : string)
    (entry_price quantity : Py.float) (timestamp : option Z)
    (exit_price : option Py.float) (exit_timestamp : option Z)
    (stop_loss take_profit : option Py.float) (notes : option string)
  : manager * built :=
  let counter := S (_trade_counter self) in
  let trade_id := ("MANUAL-" ++ format_04d counter)%string in
  let pnl :=
    match exit_price with
    | Some exit =>
        Some (realized_pnl (String.eqb (lower side) "buy") entry_price exit quantity)
    | None => None
    end in
  match side_of_string (lower side) with
  | Some sd =>
      let trade :=
        mkTrade trade_id (match timestamp with Some ts => ts | None => now end)
                (upper symbol) sd entry_price exit_price exit_timestamp quantity
                stop_loss take_profit pnl notes in
      (mkManager (_trades self ++ [trade]) counter, Built trade)
  | None => (mkManager (_trades self) counter, ValidationError)
  end.

(** The trade [update_trade] puts in place of [trade]. *)
Definition updated_trade (trade : Trade) (new_exit_price : option Py.float)
    (new_exit_timestamp : option Z) (new_stop_loss new_take_profit : option Py.float)
    (new_notes : option string) : Trade :=
  let pnl :=
    match new_exit_price with
    | Some exit =>
        Some (realized_pnl (match side trade with Buy => true | Sell => false end)
                (entry_price trade) exit (quantity trade))
    | None => pnl trade
    end in
  mkTrade (trade_id trade) (trade_timestamp trade) (symbol trade) (side trade)
          (entry_price trade) (or_else new_exit_price (exit_price trade))
          (or_else new_exit_timestamp (exit_timestamp trade)) (quantity trade)
          (or_else new_stop_loss (stop_loss trade))
          (or_else new_take_profit (take_profit trade)) pnl
          (or_else new_notes (notes trade)).

(** The loop of [update_trade] over [self._trades]: the first trade with
    the identifier is replaced. *)
Fixpoint update_first (trades : list Trade) (target : string)
    (new_exit_price : option Py.float) (new_exit_timestamp : option Z)
    (new_stop_loss new_take_profit : option Py.float) (new_notes : option string)
  : option (list Trade * Trade) :=
  match trades with
  | [] => None
  | trade :: rest =>
      if String.eqb (trade_id trade) target
      then
        let u := updated_trade trade new_exit_price new_exit_timestamp new_stop_loss new_take_profit new_notes in
        Some (u :: rest, u)
      else
        match update_first rest target new_exit_price new_exit_timestamp new_stop_loss new_take_profit new_notes with
        | Some (rest', u) => Some (trade :: rest', u)
        | None => None
        end
  end.

Definition update_trade (self : manager) (target : string)
    (new_exit_price : option Py.float) (new_exit_timestamp : option Z)
    (new_stop_loss new_take_profit : option Py.float) (new_notes : option string)
  : manager * option Trade :=
  match update_first (_trades self) target new_exit_price new_exit_timestamp
          new_stop_loss new_take_profit new_notes with
  | Some (trades, u) => (mkManager trades (_trade_counter self), Some u)
  | None => (self, None)
  end.

(** The loop of [delete_trade]: the first trade with the identifier goes. *)
Fixpoint delete_first (trades : list Trade) (target : string) : option (list Trade) :=
  match trades with
  | [] => None
  | trade :: rest =>
      if String.eqb (trade_id trade) target then Some rest
      else
        match delete_first rest target with
        | Some rest' => Some (trade :: rest')
        | None => None
        end
  end.

Definition delete_trade (self : manager) (target : string) : manager * bool :=
  match delete_first (_trades self) target with
  | Some trades => (mkManager trades (_trade_counter self), true)
  | None => (self, false)
  end.

(** [if symbol]: a symbol that is given and not empty. *)
Definition given (symbol : option string) : option string :=
  match symbol with
  | Some EmptyString | None => None
  | Some s => Some s
  end.

Definition get_trades (self : manager) (for_symbol : option string)
    (start_date end_date : option Z) : list Trade :=
  let trades := _trades self in
  let trades :=
    match given for_symbol with
    | Some s => filter (fun t => String.eqb (symbol t) (upper s)) trades
    | None => trades
    end in
  let trades :=
    match start_date with
    | Some d => filter (fun t => (d <=? trade_timestamp t)%Z) trades
    | None => trades
    end in
  let trades :=
    match end_date with
    | Some d => filter (fun t => (trade_timestamp t <=? d)%Z) trades
    | None => trades
    end in
  sorted_by_timestamp trades.

Definition clear_trades (self : manager) (for_symbol : option string) : manager :=
  match given for_symbol with
  | Some s =>
      mkManager
        (filter (fun t => negb (String.eqb (symbol t) (upper s))) (_trades self))
        (_trade_counter self)
  | None => mkManager [] 0
  end.

(** The managers that calls of the five methods can produce from a fresh
    one. *)
Inductive reachable : manager -> Prop :=
| reach_init : reachable init
| reach_add self now symbol side entry_price quantity timestamp exit_price
    exit_timestamp stop_loss take_profit notes :
    reachable self ->
    reachable (fst (add_trade self now symbol side entry_price quantity timestamp
                      exit_price exit_timestamp stop_loss take_profit notes))
| reach_update self target exit_price exit_timestamp stop_loss take_profit notes :
    reachable self ->
    reachable (fst (update_trade self target exit_price exit_timestamp
                      stop_loss take_profit notes))
| reach_delete self target :
    reachable self -> reachable (fst (delete_trade self target))
| reach_clear self symbol :
    reachable self -> reachable (clear_trades self symbol).

End Strings.

End ManualTradeManager.

(** ** Vocabulary of the specification and sample inputs *)

(** A trade is a win, a loss or break-even by the sign of its realized P&L;
    a trade without P&L is none of them. *)
Definition has_pnl (t : Trade) : bool := is_some (pnl t).

Definition has_exit_price (t : Trade) : bool := is_some (exit_price t).

Definition is_win (t : Trade) : bool :=
  match pnl t with Some p => Py.ltb 0 p | None => false end.

Definition is_loss (t : Trade) : bool :=
  match pnl t with Some p => Py.ltb p 0 | None => false end.

Definition is_break_even (t : Trade) : bool :=
  match pnl t with Some p => Py.eqb p 0 | None => false end.

(** The number of elements of [l] that satisfy [p]. *)
Fixpoint count_where {A} (p : A -> bool) (l : list A) : Z :=
  match l with
  | [] => 0
  | x :: l' => ((if p x then 1 else 0) + count_where p l')%Z
  end.

(** A buy trade with the given prices, the other fields being arbitrary. *)
Definition buy_trade (entry : Q) (sl tp : option Q) : Trade :=
  mkTrade "T1" 0 "AAPL" Buy entry None None 1 sl tp None None.

(** A buy trade entered at 100 with the given exit price and realized P&L. *)
Definition exited_trade (exit p : option Q) : Trade :=
  mkTrade "T2" 0 "AAPL" Buy 100 exit None 1 None None p None.

(** A closed buy trade with realized P&L [p]. *)
Definition closed_trade (p : Q) : Trade := exited_trade (Some 100) (Some p).

(** A buy trade at 100 with stop 90, target 120 and a note. *)
Definition disciplined_trade : Trade :=
  mkTrade "T3" 0 "AAPL" Buy 100 None None 1 (Some 90) (Some 120) None
          (Some "breakout")%string.

(** A neutral context with the given levels. *)
Definition flat_context (supports resistances : list Q) : MarketContext :=
  mkMarketContext "AAPL" 0 0 Neutral 0 0 supports resistances 0.

(** A candle whose four prices all equal [c]. *)
Definition flat_candle (c : Q) : OHLCV := mkOHLCV 0 c c c c 0.

(** *** Clustering, in the words of the specification

    [next] stays in the cluster whose last accepted member is [prev] when it
    differs from [prev] by less than 1% relative to [prev]: the distance
    between the two is less than 1% of the size of [prev]. *)
Definition close_to (prev next : Q) : Prop :=
  Qabs (next - prev) < (1 # 100) * Qabs prev.

(** A cluster: each member is close to the member accepted just before. *)
Inductive chain : list Q -> Prop :=
| chain_one x : chain [x]
| chain_cons x y g : close_to x y -> chain (y :: g) -> chain (x :: y :: g).

(** [clustering l groups]: [groups] cuts [l] into consecutive clusters, a
    new one starting at [x] exactly when [x] is not close to the last member
    of the cluster before it. *)
Inductive clustering : list Q -> list (list Q) -> Prop :=
| clustering_one g : chain g -> clustering g [g]
| clustering_more g x l groups :
    chain g -> ~ close_to (last g 0) x -> clustering (x :: l) groups ->
    clustering (g ++ x :: l) (g :: groups).

(** *** Trend, in the words of the specification

    The ordinary least-squares fit of the closes against their 0-based
    position, and the strength computed from it. *)

Module TrendSpec.

(** The sum of [f k y] over the closes [y], [k] being the position of [y]
    counted from [i]. *)
Fixpoint index_sum (f : Q -> Q -> Q) (i : nat) (closes : list Q) : Q :=
  match closes with
  | [] => 0
  | y :: closes' => f (inject_Z (Z.of_nat i)) y + index_sum f (S i) closes'
  end.

Definition size (closes : list Q) : Q := inject_Z (Z.of_nat (List.length closes)).

Definition mean_close (closes : list Q) : Q :=
  index_sum (fun _ y => y) 0 closes / size closes.

Definition mean_index (closes : list Q) : Q :=
  index_sum (fun x _ => x) 0 closes / size closes.

(** The OLS slope: covariance of position and close over the variance of
    the position. *)
Definition ols_slope (closes : list Q) : Q :=
  index_sum (fun x y => (x - mean_index closes) * (y - mean_close closes)) 0 closes
  / index_sum (fun x _ => (x - mean_index closes) ^ 2) 0 closes.

(** Squared residuals against the line [slope * x + mean(close)]. *)
Definition ss_res (closes : list Q) : Q :=
  index_sum (fun x y => (y - (ols_slope closes * x + mean_close closes)) ^ 2) 0 closes.

(** Squared deviations from the mean close. *)
Definition ss_tot (closes : list Q) : Q :=
  index_sum (fun _ y => (y - mean_close closes) ^ 2) 0 closes.

End TrendSpec.

(** A run of candles without gaps: each candle's range contains the close
    of the candle before, [prev_close] being the close before the first. *)
Fixpoint gapless (prev_close : Q) (candles : list OHLCV) : Prop :=
  match candles with
  | [] => True
  | c :: rest => low c <= prev_close <= high c /\ gapless (close c) rest
  end.

(** The amounts won and lost by the trades with a realized P&L. *)
Definition wins_of (trades : list Trade) : list Q :=
  map pnl_value (filter is_win trades).

Definition losses_of (trades : list Trade) : list Q :=
  map (fun t => Qabs (pnl_value t)) (filter is_loss trades).

(** A trade the checks of [validate_trade_data] have nothing to say about:
    stop and target are set on the right sides of the entry price, and an
    exit price comes with a P&L and an exit timestamp. *)
Definition well_formed_trade (t : Trade) : Prop :=
  (exists sl tp,
     stop_loss t = Some sl /\ take_profit t = Some tp /\
     match side t with
     | Buy => sl < entry_price t /\ entry_price t < tp
     | Sell => tp < entry_price t /\ entry_price t < sl
     end) /\
  (has_exit_price t = true ->
   has_pnl t = true /\ is_some (exit_timestamp t) = true).

(** [sum(l) / len(l) if l else 0.0]. *)
Definition average (l : list Q) : Q :=
  match l with [] => 0 | _ => Py.sum l / Py.len l end.

(** The identifier of the [k]-th manual trade. *)
Definition manual_id (k : nat) : string :=
  ("MANUAL-" ++ ManualTradeManager.format_04d k)%string.

(** A trade whose identifier was issued by a manager whose counter is now
    [counter]. *)
Definition issued (counter : nat) (t : Trade) : Prop :=
  exists k, (1 <= k <= counter)%nat /\ trade_id t = manual_id k.

(** The number a string of decimal digits stands for. *)
Definition parse_decimal (s : string) : option nat :=
  option_map Nat.of_uint (DecimalString.NilEmpty.uint_of_string s).

(** [a] is not later than [b]. *)
Definition not_after (a b : Trade) : Prop :=
  (trade_timestamp a <= trade_timestamp b)%Z.

(** The filters of [get_trades] as a predicate on a trade. *)
Definition selected (upper : string -> string) (for_symbol : option string)
    (start_date end_date : option Z) (t : Trade) : Prop :=
  match ManualTradeManager.given for_symbol with
  | Some s => symbol t = upper s
  | None => True
  end /\
  match start_date with
  | Some d => (d <= trade_timestamp t)%Z
  | None => True
  end /\
  match end_date with
  | Some d => (trade_timestamp t <= d)%Z
  | None => True
  end.

(** * Properties *)

(** ** Worked examples of the specification *)

Example swing_low_of_three :
  MarketAnalyzer.find_support_resistance (map flat_candle [10; 5; 10]) 3
  = Py.Ok ([5], []).
Proof. reflexivity. Qed.

Example discipline_of_full_plan :
  TradeEvaluator.evaluate_execution_discipline disciplined_trade = High.
Proof. reflexivity. Qed.

Example aggregate_of_three_trades :
  let m := TradeReviewSystem._calculate_performance_metrics
             (map closed_trade [50; -20; 30]) [] in
  TradeReviewSystem.total_pnl m == 60 /\
  TradeReviewSystem.avg_pnl m == 20 /\
  TradeReviewSystem.win_rate m == 200 # 3.
Proof. repeat split. Qed.

Example drawdown_of_four_trades :
  Utils.max_drawdown
    (Utils.calculate_additional_metrics (map closed_trade [50; -20; 50; -60]))
  == 60.
Proof. reflexivity. Qed.

(** ** Comparisons and sums *)

Lemma ltb_lt (a b : Q) : Py.ltb a b = true <-> a < b.
Proof.
  unfold Py.ltb. rewrite negb_true_iff.
  split; intro H.
  - apply Qnot_le_lt. intro Hle. apply Qle_bool_iff in Hle. congruence.
  - destruct (Qle_bool b a) eqn:E; [|reflexivity].
    apply Qle_bool_iff in E. exfalso. apply (Qlt_not_le _ _ H E).
Qed.

Lemma ltb_ge (a b : Q) : Py.ltb a b = false <-> b <= a.
Proof.
  unfold Py.ltb. rewrite negb_false_iff. apply Qle_bool_iff.
Qed.

Lemma eqb_eq (a b : Q) : Py.eqb a b = true <-> a == b.
Proof. apply Qeq_bool_iff. Qed.

Lemma eqb_neq (a b : Q) : Py.eqb a b = false <-> ~ a == b.
Proof.
  unfold Py.eqb. split; intro H.
  - now apply Qeq_bool_neq.
  - destruct (Qeq_bool a b) eqn:E; [|reflexivity].
    apply Qeq_bool_iff in E. contradiction.
Qed.

(** Case analysis on a float comparison, leaving the order fact in the
    context. *)
Ltac case_ltb a b :=
  let E := fresh "E" in
  destruct (Py.ltb a b) eqn:E;
  [apply ltb_lt in E | apply ltb_ge in E].

Ltac case_eqb a b :=
  let E := fresh "E" in
  destruct (Py.eqb a b) eqn:E;
  [apply eqb_eq in E | apply eqb_neq in E].

Lemma div_ok (a b : Q) : ~ b == 0 -> Py.div a b = Py.Ok (a / b).
Proof. intro H. unfold Py.div. apply eqb_neq in H. now rewrite H. Qed.

Lemma Qabs_zero_iff (x : Q) : Qabs x == 0 <-> x == 0.
Proof.
  split; intro H.
  - destruct (Qlt_le_dec x 0) as [Hneg|Hpos].
    + rewrite Qabs_neg in H by lra. lra.
    + rewrite Qabs_pos in H by lra. lra.
  - rewrite H. reflexivity.
Qed.

Lemma Qabs_pos_iff (x : Q) : 0 < Qabs x <-> ~ x == 0.
Proof.
  pose proof (Qabs_nonneg x) as Hn. pose proof (Qabs_zero_iff x) as Hz.
  split; intro H.
  - intro Hx. apply Hz in Hx. lra.
  - destruct (Qlt_le_dec 0 (Qabs x)) as [Hlt|Hle]; [assumption|].
    exfalso. apply H, Hz. lra.
Qed.

(** ** Trade evaluation *)

Section RiskReward.

Import TradeEvaluator.

Variable t : Trade.

Lemma risk_reward_unfold (sl tp : Q) :
  stop_loss t = Some sl -> take_profit t = Some tp ->
  exists risk reward,
    risk == Qabs (entry_price t - sl) /\
    reward == Qabs (tp - entry_price t) /\
    calculate_risk_reward t = if Py.eqb risk 0 then None else Some (reward / risk).
Proof.
  intros Hs Ht. unfold calculate_risk_reward. rewrite Hs, Ht.
  destruct (side t).
  - exists (Qabs (entry_price t - sl)), (Qabs (tp - entry_price t)).
    repeat split; reflexivity.
  - exists (Qabs (sl - entry_price t)), (Qabs (entry_price t - tp)).
    repeat split; try reflexivity.
    + rewrite <- Qabs_opp. apply Qabs_wd. ring.
    + rewrite <- Qabs_opp. apply Qabs_wd. ring.
Qed.

Lemma risk_reward_some_inv (v : Q) :
  calculate_risk_reward t = Some v ->
  exists sl tp,
    stop_loss t = Some sl /\ take_profit t = Some tp /\
    ~ Qabs (entry_price t - sl) == 0 /\
    v == Qabs (tp - entry_price t) / Qabs (entry_price t - sl).
Proof.
  intro H.
  destruct (stop_loss t) as [sl|] eqn:Hs;
    [|unfold calculate_risk_reward in H; rewrite Hs in H; discriminate].
  destruct (take_profit t) as [tp|] eqn:Ht;
    [|unfold calculate_risk_reward in H; rewrite Hs, Ht in H; discriminate].
  destruct (risk_reward_unfold sl tp Hs Ht) as (risk & reward & Hr & Hw & Heq).
  rewrite Heq in H. exists sl, tp.
  case_eqb risk 0; [discriminate|].
  injection H as <-.
  repeat split; try reflexivity.
  - now rewrite <- Hr.
  - now rewrite Hr, Hw.
Qed.

Lemma risk_reward_some_intro (sl tp : Q) :
  stop_loss t = Some sl -> take_profit t = Some tp ->
  ~ Qabs (entry_price t - sl) == 0 ->
  exists v, calculate_risk_reward t = Some v /\
            v == Qabs (tp - entry_price t) / Qabs (entry_price t - sl).
Proof.
  intros Hs Ht Hz.
  destruct (risk_reward_unfold sl tp Hs Ht) as (risk & reward & Hr & Hw & Heq).
  rewrite Heq.
  case_eqb risk 0.
  - exfalso. apply Hz. now rewrite <- Hr.
  - eexists. split; [reflexivity|]. now rewrite Hr, Hw.
Qed.

End RiskReward.

(** C6. [calculate_risk_reward] returns a value if and only if stop-loss and
    take-profit are both present and the risk [|entry - stop|] is nonzero;
    the value is then [|target - entry| / |entry - stop|]; and a buy trade
    with entry 100, stop 90 and target 120 yields 2. *)
Theorem calculate_risk_reward_spec (t : Trade) :
  (forall v, TradeEvaluator.calculate_risk_reward t = Some v ->
     exists sl tp,
       stop_loss t = Some sl /\ take_profit t = Some tp /\
       ~ Qabs (entry_price t - sl) == 0 /\
       v == Qabs (tp - entry_price t) / Qabs (entry_price t - sl))
  /\ (forall sl tp,
        stop_loss t = Some sl -> take_profit t = Some tp ->
        ~ Qabs (entry_price t - sl) == 0 ->
        exists v, TradeEvaluator.calculate_risk_reward t = Some v /\
                  v == Qabs (tp - entry_price t) / Qabs (entry_price t - sl))
  /\ (side t = Buy -> entry_price t = 100 ->
      stop_loss t = Some 90 -> take_profit t = Some 120 ->
      exists v, TradeEvaluator.calculate_risk_reward t = Some v /\ v == 2).
Proof.
  split; [|split].
  - apply risk_reward_some_inv.
  - apply risk_reward_some_intro.
  - intros _ He Hs Ht.
    destruct (risk_reward_some_intro t 90 120 Hs Ht) as (v & Hv & Hq).
    + rewrite He. vm_compute. discriminate.
    + exists v. split; [assumption|]. rewrite Hq, He. vm_compute. reflexivity.
Qed.

Lemma calculate_risk_reward_spec_witness :
  exists v, TradeEvaluator.calculate_risk_reward
              (buy_trade 100 (Some 90) (Some 120)) = Some v /\ v == 2.
Proof.
  apply (calculate_risk_reward_spec (buy_trade 100 (Some 90) (Some 120)));
    reflexivity.
Defined.

(** C5, as stated, fails: a take-profit equal to the entry price gives a
    reward of zero, and the ratio returned is 0. *)
Lemma risk_reward_not_always_positive :
  ~ (forall t v, TradeEvaluator.calculate_risk_reward t = Some v -> 0 < v).
Proof.
  intro H.
  specialize (H (buy_trade 100 (Some 90) (Some 100)) _ eq_refl).
  vm_compute in H. discriminate.
Qed.

(** C5, amended. Whenever [calculate_risk_reward] returns a value, that value
    is non-negative, and it is strictly positive exactly when the take-profit
    differs from the entry price. *)
Theorem calculate_risk_reward_nonneg (t : Trade) (v : Q) :
  TradeEvaluator.calculate_risk_reward t = Some v ->
  0 <= v /\
  (0 < v <-> exists tp, take_profit t = Some tp /\ ~ tp == entry_price t).
Proof.
  intro H.
  destruct (risk_reward_some_inv t v H) as (sl & tp & Hs & Ht & Hz & Hv).
  assert (Hrisk : 0 < Qabs (entry_price t - sl)).
  { apply Qabs_pos_iff. intro E. apply Hz. now apply Qabs_zero_iff. }
  pose proof (Qabs_nonneg (tp - entry_price t)) as Hrew.
  assert (Hinv : 0 < / Qabs (entry_price t - sl)) by now apply Qinv_lt_0_compat.
  split.
  - rewrite Hv. unfold Qdiv. apply Qmult_le_0_compat; lra.
  - split.
    + intro Hpos. exists tp. split; [assumption|].
      intro E. rewrite Hv in Hpos.
      assert (Z0 : Qabs (tp - entry_price t) == 0).
      { apply Qabs_zero_iff. lra. }
      rewrite Z0 in Hpos. unfold Qdiv in Hpos. rewrite Qmult_0_l in Hpos.
      apply (Qlt_irrefl 0 Hpos).
    + intros (tp' & Ht' & Hne). rewrite Ht in Ht'. injection Ht' as <-.
      rewrite Hv. unfold Qdiv. apply Qmult_lt_0_compat; [|assumption].
      apply Qabs_pos_iff. intro E. apply Hne. lra.
Qed.

Lemma calculate_risk_reward_nonneg_witness :
  0 <= 20 / 10 /\
  (0 < 20 / 10 <->
   exists tp, take_profit (buy_trade 100 (Some 90) (Some 120)) = Some tp /\
              ~ tp == entry_price (buy_trade 100 (Some 90) (Some 120))).
Proof.
  apply (calculate_risk_reward_nonneg (buy_trade 100 (Some 90) (Some 120))).
  reflexivity.
Defined.

(** ** Entry quality *)

Lemma any_near_total (entry : Q) (levels : list Q) :
  Forall (fun level => ~ level == 0) levels ->
  exists b, TradeEvaluator.any_near entry levels = Py.Ok b.
Proof.
  induction 1 as [|level rest Hl _ IH]; simpl.
  - now exists false.
  - rewrite (div_ok _ _ Hl). simpl.
    destruct (Py.ltb _ _); [now exists true | exact IH].
Qed.

Lemma entry_quality_of_near (trade : Trade) (ctx : MarketContext) (b : bool) :
  match side trade with
  | Buy => TradeEvaluator.any_near (entry_price trade) (support_levels ctx)
  | Sell => TradeEvaluator.any_near (entry_price trade) (resistance_levels ctx)
  end = Py.Ok b ->
  exists q, TradeEvaluator.evaluate_entry_quality trade ctx = Py.Ok q.
Proof.
  intro H. unfold TradeEvaluator.evaluate_entry_quality. rewrite H. simpl.
  repeat match goal with |- context [if ?c then _ else _] => destruct c end;
    eexists; reflexivity.
Qed.

(** C10. When every support level and every resistance level is nonzero,
    [evaluate_entry_quality] raises nothing and returns one of good,
    acceptable, poor; a context with a zero level is not covered: there the
    proximity check can divide by zero. *)
Theorem evaluate_entry_quality_total (trade : Trade) (ctx : MarketContext) :
  Forall (fun level => ~ level == 0) (support_levels ctx) ->
  Forall (fun level => ~ level == 0) (resistance_levels ctx) ->
  (exists q, TradeEvaluator.evaluate_entry_quality trade ctx = Py.Ok q /\
             (q = Good \/ q = Acceptable \/ q = Poor))
  /\ TradeEvaluator.evaluate_entry_quality
       (buy_trade 100 None None) (flat_context [0] [])
     = Py.Raise Py.ZeroDivisionError.
Proof.
  intros Hs Hr. split; [|reflexivity].
  assert (Hnear : exists b,
    match side trade with
    | Buy => TradeEvaluator.any_near (entry_price trade) (support_levels ctx)
    | Sell => TradeEvaluator.any_near (entry_price trade) (resistance_levels ctx)
    end = Py.Ok b).
  { destruct (side trade); now apply any_near_total. }
  destruct Hnear as (b & Hb).
  destruct (entry_quality_of_near trade ctx b Hb) as (q & Hq).
  exists q. split; [assumption|]. destruct q; auto.
Qed.

Lemma evaluate_entry_quality_total_witness :
  (exists q, TradeEvaluator.evaluate_entry_quality
               (buy_trade 100 None None) (flat_context [100; 95] [110])
             = Py.Ok q /\ (q = Good \/ q = Acceptable \/ q = Poor))
  /\ TradeEvaluator.evaluate_entry_quality
       (buy_trade 100 None None) (flat_context [0] [])
     = Py.Raise Py.ZeroDivisionError.
Proof.
  apply (evaluate_entry_quality_total
           (buy_trade 100 None None) (flat_context [100; 95] [110])).
  - repeat constructor; vm_compute; discriminate.
  - repeat constructor; vm_compute; discriminate.
Defined.

(** ** Aggregation *)

Section Counting.

Context {A : Type}.

Lemma count_filter (p : A -> bool) (l : list A) :
  count (filter p l) = count_where p l.
Proof.
  unfold count. induction l as [|x l IH]; [reflexivity|].
  cbn [filter count_where]. destruct (p x); cbn [List.length]; rewrite <- IH; lia.
Qed.

Lemma count_where_nonneg (p : A -> bool) (l : list A) : (0 <= count_where p l)%Z.
Proof. induction l as [|x l IH]; simpl; [lia|]. destruct (p x); lia. Qed.

Lemma count_where_pos (p : A -> bool) (l : list A) :
  (0 < count_where p l)%Z <-> exists x, In x l /\ p x = true.
Proof.
  induction l as [|x l IH]; simpl.
  - split; [lia | intros (x & [] & _)].
  - pose proof (count_where_nonneg p l) as Hn.
    destruct (p x) eqn:E; split.
    + intros _. exists x. auto.
    + intros _. lia.
    + intro H. destruct IH as [IH _].
      destruct IH as (y & Hy & Hp); [lia|]. exists y. auto.
    + intros (y & [<-|Hy] & Hp); [congruence|].
      destruct IH as [_ IH]. specialize (IH (ex_intro _ y (conj Hy Hp))). lia.
Qed.

Lemma filter_twice (p q : A -> bool) (l : list A) :
  filter q (filter p l) = filter (fun x => p x && q x) l.
Proof.
  induction l as [|x l IH]; simpl; [reflexivity|].
  destruct (p x); simpl; [destruct (q x)|]; now rewrite IH.
Qed.

End Counting.

Lemma winners_of_closed (trades : list Trade) :
  filter (fun t => Py.ltb 0 (pnl_value t)) (closed_by_pnl trades)
  = filter is_win trades.
Proof.
  unfold closed_by_pnl. rewrite filter_twice. apply filter_ext.
  intro t. unfold is_win, pnl_value, is_some, is_none.
  now destruct (pnl t).
Qed.

Lemma losers_of_closed (trades : list Trade) :
  filter (fun t => Py.ltb (pnl_value t) 0) (closed_by_pnl trades)
  = filter is_loss trades.
Proof.
  unfold closed_by_pnl. rewrite filter_twice. apply filter_ext.
  intro t. unfold is_loss, pnl_value, is_some, is_none.
  now destruct (pnl t).
Qed.

Lemma closed_count (trades : list Trade) :
  count (closed_by_pnl trades) = count_where has_pnl trades.
Proof. apply count_filter. Qed.

(** Every trade with a P&L is exactly one of win, loss, break-even. *)
Lemma pnl_trichotomy (t : Trade) :
  ((if has_pnl t then 1 else 0)
   = (if is_win t then 1 else 0) + (if is_loss t then 1 else 0)
     + (if is_break_even t then 1 else 0))%Z.
Proof.
  unfold has_pnl, is_win, is_loss, is_break_even, is_some, is_none.
  destruct (pnl t) as [p|]; [|reflexivity].
  case_ltb 0 p; case_ltb p 0; case_eqb p 0; try reflexivity; exfalso;
    try lra; match goal with H : ~ _ == _ |- _ => apply H; lra end.
Qed.

Lemma closed_split (trades : list Trade) :
  count_where has_pnl trades
  = (count_where is_win trades + count_where is_loss trades
     + count_where is_break_even trades)%Z.
Proof.
  induction trades as [|t trades IH]; cbn [count_where]; [reflexivity|].
  rewrite IH, pnl_trichotomy. lia.
Qed.

Section Metrics.

Import TradeReviewSystem.

Variables (trades : list Trade) (evaluations : list TradeEvaluation).

Let m := _calculate_performance_metrics trades evaluations.

Lemma metrics_counts :
  total_trades m = count trades /\
  closed_trades m = count_where has_pnl trades /\
  open_trades m = (total_trades m - closed_trades m)%Z /\
  winning_trades m = count_where is_win trades /\
  losing_trades m = count_where is_loss trades.
Proof.
  unfold m, _calculate_performance_metrics. simpl.
  rewrite winners_of_closed, losers_of_closed, !count_filter, closed_count.
  repeat split; reflexivity.
Qed.

Lemma metrics_win_rate :
  win_rate m ==
  if (closed_trades m =? 0)%Z then 0
  else inject_Z (winning_trades m) / inject_Z (closed_trades m) * 100.
Proof.
  unfold m, _calculate_performance_metrics. simpl.
  destruct (closed_by_pnl trades) as [|c cs] eqn:E.
  - reflexivity.
  - replace (count (c :: cs) =? 0)%Z with false; [reflexivity|].
    symmetry. apply Z.eqb_neq. unfold count. cbn [List.length]. lia.
Qed.

End Metrics.

(** C3, as stated, fails: a trade with an exit price but no realized P&L is
    closed in the sense of the data model, and the aggregator counts it as
    open. *)
Lemma closed_trades_ignores_exit_price :
  TradeReviewSystem.closed_trades
    (TradeReviewSystem._calculate_performance_metrics
       [exited_trade (Some 110) None] [])
  <> count_where has_exit_price [exited_trade (Some 110) None].
Proof. vm_compute. discriminate. Qed.

(** C3, amended. For every list of trades, [closed_trades] is the number of
    trades whose realized P&L is present, [open_trades] is [total_trades]
    minus that number, and the win count, loss count and win rate are taken
    over exactly the trades with a P&L; when exit price and P&L are present
    together on every trade, [closed_trades] is also the number of trades
    with an exit price. *)
Theorem performance_metrics_closed_by_pnl
    (trades : list Trade) (evaluations : list TradeEvaluation) :
  let m := TradeReviewSystem._calculate_performance_metrics trades evaluations in
  TradeReviewSystem.total_trades m = count trades /\
  TradeReviewSystem.closed_trades m = count_where has_pnl trades /\
  TradeReviewSystem.open_trades m
  = (TradeReviewSystem.total_trades m - TradeReviewSystem.closed_trades m)%Z /\
  TradeReviewSystem.winning_trades m = count_where is_win trades /\
  TradeReviewSystem.losing_trades m = count_where is_loss trades /\
  TradeReviewSystem.win_rate m ==
    (if (count_where has_pnl trades =? 0)%Z then 0
     else inject_Z (count_where is_win trades)
          / inject_Z (count_where has_pnl trades) * 100) /\
  ((forall t, In t trades -> has_exit_price t = has_pnl t) ->
   TradeReviewSystem.closed_trades m = count_where has_exit_price trades).
Proof.
  intro m.
  destruct (metrics_counts trades evaluations) as (Ht & Hc & Ho & Hw & Hl).
  pose proof (metrics_win_rate trades evaluations) as Hr.
  fold m in Ht, Hc, Ho, Hw, Hl, Hr.
  repeat split; try assumption.
  - rewrite Hr, Hc, Hw. reflexivity.
  - intro Hsame. rewrite Hc. clear -Hsame.
    induction trades as [|t ts IH]; cbn [count_where]; [reflexivity|].
    rewrite IH by (intros u Hu; apply Hsame; now right).
    rewrite (Hsame t) by now left. reflexivity.
Qed.

Lemma performance_metrics_closed_by_pnl_witness :
  TradeReviewSystem.closed_trades
    (TradeReviewSystem._calculate_performance_metrics
       [exited_trade (Some 110) (Some 10); exited_trade None None] [])
  = count_where has_exit_price
      [exited_trade (Some 110) (Some 10); exited_trade None None].
Proof.
  apply (performance_metrics_closed_by_pnl
           [exited_trade (Some 110) (Some 10); exited_trade None None] []).
  intros t [<-|[<-|[]]]; reflexivity.
Defined.

Lemma ratio_shrinks (w c : Q) :
  0 < w -> 0 < c -> w / (c + 1) * 100 < w / c * 100.
Proof.
  intros Hw Hc.
  assert (Hq : 0 < w / c).
  { unfold Qdiv. apply Qmult_lt_0_compat; [assumption|].
    now apply Qinv_lt_0_compat. }
  assert (Hlt : w / (c + 1) < w / c).
  { apply Qlt_shift_div_r; [lra|].
    assert (E : w / c * (c + 1) == w + w / c) by (field; lra).
    rewrite E. lra. }
  lra.
Qed.

(** C9. Wins plus losses never exceed the closed trades, and fall short of
    them exactly when some trade has a realized P&L of zero; the win rate
    divides by all closed trades, so adding a break-even trade to a list
    with at least one win lowers it. *)
Theorem wins_losses_within_closed
    (trades : list Trade) (evaluations : list TradeEvaluation) :
  let m := TradeReviewSystem._calculate_performance_metrics trades evaluations in
  (TradeReviewSystem.winning_trades m + TradeReviewSystem.losing_trades m
   <= TradeReviewSystem.closed_trades m)%Z /\
  ((TradeReviewSystem.winning_trades m + TradeReviewSystem.losing_trades m
    < TradeReviewSystem.closed_trades m)%Z
   <-> exists t, In t trades /\ is_break_even t = true) /\
  TradeReviewSystem.win_rate m ==
    (if (TradeReviewSystem.closed_trades m =? 0)%Z then 0
     else inject_Z (TradeReviewSystem.winning_trades m)
          / inject_Z (TradeReviewSystem.closed_trades m) * 100) /\
  (forall b,
     is_break_even b = true ->
     (0 < TradeReviewSystem.winning_trades m)%Z ->
     TradeReviewSystem.win_rate
       (TradeReviewSystem._calculate_performance_metrics (b :: trades) evaluations)
     < TradeReviewSystem.win_rate m).
Proof.
  intro m.
  destruct (metrics_counts trades evaluations) as (_ & Hc & _ & Hw & Hl).
  pose proof (metrics_win_rate trades evaluations) as Hr.
  fold m in Hc, Hw, Hl, Hr.
  pose proof (closed_split trades) as Hsplit.
  pose proof (count_where_nonneg is_break_even trades) as Hbe.
  pose proof (count_where_nonneg is_loss trades) as Hlo.
  pose proof (count_where_pos is_break_even trades) as Hex.
  split; [lia|]. split; [|split; [exact Hr|]].
  - rewrite <- Hex. lia.
  - intros b Hb Hpos.
    destruct (metrics_counts (b :: trades) evaluations) as (_ & Hc' & _ & Hw' & _).
    rewrite (metrics_win_rate (b :: trades) evaluations), Hr, Hc', Hw'.
    cbn [count_where].
    assert (Hbp : has_pnl b = true /\ is_win b = false).
    { unfold is_break_even, has_pnl, is_win, is_some, is_none in *.
      destruct (pnl b) as [p|]; [|discriminate].
      apply eqb_eq in Hb. split; [reflexivity|]. apply ltb_ge. lra. }
    destruct Hbp as (-> & ->).
    rewrite <- Hc, <- Hw.
    set (W := TradeReviewSystem.winning_trades m) in *.
    set (C := TradeReviewSystem.closed_trades m) in *.
    assert (HC : (0 < C)%Z) by lia.
    destruct (Z.eqb_spec (1 + C) 0) as [E|_]; [lia|].
    destruct (Z.eqb_spec C 0) as [E|_]; [lia|].
    rewrite Z.add_0_l, (Z.add_comm 1 C), inject_Z_plus.
    apply ratio_shrinks.
    + change 0 with (inject_Z 0). rewrite <- Zlt_Qlt. exact Hpos.
    + change 0 with (inject_Z 0). rewrite <- Zlt_Qlt. exact HC.
Qed.

Lemma wins_losses_within_closed_witness :
  TradeReviewSystem.win_rate
    (TradeReviewSystem._calculate_performance_metrics
       [exited_trade (Some 100) (Some 0); exited_trade (Some 110) (Some 10)] [])
  < TradeReviewSystem.win_rate
      (TradeReviewSystem._calculate_performance_metrics
         [exited_trade (Some 110) (Some 10)] []).
Proof.
  apply (wins_losses_within_closed [exited_trade (Some 110) (Some 10)] []).
  - reflexivity.
  - vm_compute. reflexivity.
Defined.

(** C4, as stated, fails: with no closed trade at all there are no losses,
    and the profit factor returned is 0, not infinity. *)
Lemma profit_factor_of_no_trades :
  (forall t p, In t (@nil Trade) -> pnl t = Some p -> 0 <= p) /\
  Utils.profit_factor (Utils.calculate_additional_metrics []) <> Utils.Inf.
Proof. split; [intros t p []|vm_compute; discriminate]. Qed.

Lemma no_losers (closed : list Trade) :
  (forall t p, In t closed -> pnl t = Some p -> 0 <= p) ->
  filter (fun t => Py.ltb (pnl_value t) 0) closed = [].
Proof.
  induction closed as [|t ts IH]; intro H; [reflexivity|].
  cbn [filter].
  rewrite IH by (intros u p Hu; apply H; now right).
  case_ltb (pnl_value t) 0; [|reflexivity].
  exfalso. unfold pnl_value in E.
  destruct (pnl t) as [p|] eqn:Hp.
  - specialize (H t p (or_introl eq_refl) Hp). lra.
  - lra.
Qed.

(** C4, amended. For every trade list in which no trade has a negative
    realized P&L, [profit_factor] is infinity as soon as one trade has a
    P&L; when no trade has one, it is 0. *)
Theorem profit_factor_without_losses (trades : list Trade) :
  (forall t p, In t trades -> pnl t = Some p -> 0 <= p) ->
  Utils.profit_factor (Utils.calculate_additional_metrics trades)
  = if existsb has_pnl trades then Utils.Inf else Utils.Finite 0.
Proof.
  intro Hnoloss.
  assert (Hclosed : forall t p, In t (closed_by_pnl trades) -> pnl t = Some p -> 0 <= p).
  { intros t p Ht. apply Hnoloss. unfold closed_by_pnl in Ht.
    now apply filter_In in Ht. }
  assert (Hex : existsb has_pnl trades = negb (is_none (head (closed_by_pnl trades)))).
  { clear. induction trades as [|t ts IH]; [reflexivity|].
    unfold closed_by_pnl in *. cbn [existsb filter]. fold (has_pnl t).
    destruct (has_pnl t); [reflexivity|exact IH]. }
  rewrite Hex. unfold Utils.calculate_additional_metrics.
  rewrite (no_losers _ Hclosed).
  destruct (closed_by_pnl trades) as [|c cs]; [reflexivity|].
  cbn [map Py.sum head is_none negb].
  destruct (fold_left Utils.drawdown_step (c :: cs) (0, 0, 0)) as [[cum peak] dd].
  reflexivity.
Qed.

Lemma profit_factor_without_losses_witness :
  Utils.profit_factor
    (Utils.calculate_additional_metrics
       [exited_trade (Some 110) (Some 10); exited_trade (Some 100) (Some 0)])
  = Utils.Inf.
Proof.
  apply (profit_factor_without_losses
           [exited_trade (Some 110) (Some 10); exited_trade (Some 100) (Some 0)]).
  intros t p [<-|[<-|[]]] H; injection H as <-; vm_compute; discriminate.
Defined.

(** ** Market analysis: short windows *)

(** C8. A window of fewer than two candles has a neutral trend of strength
    0 and a volatility of 0. *)
Theorem short_window_defaults (ohlcv_data : list OHLCV) :
  (List.length ohlcv_data < 2)%nat ->
  MarketAnalyzer.calculate_trend ohlcv_data = (Neutral, 0) /\
  MarketAnalyzer.calculate_volatility ohlcv_data = 0.
Proof.
  intro Hlen. apply Nat.ltb_lt in Hlen.
  unfold MarketAnalyzer.calculate_trend, MarketAnalyzer.calculate_volatility.
  rewrite Hlen. split; reflexivity.
Qed.

Lemma short_window_defaults_witness :
  MarketAnalyzer.calculate_trend [flat_candle 100] = (Neutral, 0) /\
  MarketAnalyzer.calculate_volatility [flat_candle 100] = 0.
Proof.
  apply (short_window_defaults [flat_candle 100]). simpl. lia.
Defined.

(** ** Sorting *)

Lemma insert_perm (x : Q) (l : list Q) : Permutation (Py.insert x l) (x :: l).
Proof.
  induction l as [|y l IH]; cbn [Py.insert]; [reflexivity|].
  destruct (Qle_bool x y); [reflexivity|].
  rewrite IH. apply perm_swap.
Qed.

Lemma sorted_perm (l : list Q) : Permutation (Py.sorted l) l.
Proof.
  induction l as [|x l IH]; cbn [Py.sorted]; [reflexivity|].
  rewrite insert_perm. now constructor.
Qed.

Lemma sorted_length (l : list Q) : List.length (Py.sorted l) = List.length l.
Proof. apply Permutation_length, sorted_perm. Qed.

Lemma insert_hd (x y : Q) (l : list Q) :
  y <= x -> HdRel Qle y l -> HdRel Qle y (Py.insert x l).
Proof.
  intros Hyx Hl. destruct l as [|z l]; cbn [Py.insert].
  - now constructor.
  - destruct (Qle_bool x z); constructor; [assumption|].
    now inversion Hl.
Qed.

Lemma insert_ascending (x : Q) (l : list Q) :
  Sorted Qle l -> Sorted Qle (Py.insert x l).
Proof.
  induction 1 as [|y l Hs IH Hhd]; cbn [Py.insert].
  - repeat constructor.
  - destruct (Qle_bool x y) eqn:E.
    + apply Qle_bool_iff in E. repeat constructor; assumption.
    + constructor; [assumption|].
      apply insert_hd; [|assumption].
      apply Qlt_le_weak, ltb_lt. unfold Py.ltb. now rewrite E.
Qed.

Lemma sorted_ascending (l : list Q) : Sorted Qle (Py.sorted l).
Proof.
  induction l as [|x l IH]; cbn [Py.sorted]; [constructor|].
  now apply insert_ascending.
Qed.

Lemma slice_to_nonneg {A} (l : list A) (k : Z) :
  (0 <= k)%Z -> Py.slice_to l k = firstn (Z.to_nat k) l.
Proof.
  intro H. unfold Py.slice_to.
  destruct (Z.ltb_spec k 0); [lia|reflexivity].
Qed.

(** ** Clustering of swing levels *)

Lemma chain_nonempty (g : list Q) : chain g -> g <> [].
Proof. destruct 1; discriminate. Qed.

Lemma chain_snoc (g : list Q) (x : Q) :
  chain g -> close_to (last g 0) x -> chain (g ++ [x]).
Proof.
  induction 1 as [y|y z g Hyz Hg IH]; intro Hx.
  - cbn in *. constructor; [assumption|constructor].
  - cbn [app]. constructor; [assumption|].
    apply IH. exact Hx.
Qed.

Lemma chain_crosses (g : list Q) (x : Q) (l : list Q) :
  g <> [] -> chain (g ++ x :: l) -> close_to (last g 0) x.
Proof.
  induction g as [|y g IH]; intros Hne Hc; [contradiction|].
  destruct g as [|z g].
  - cbn in *. now inversion Hc.
  - cbn [app] in Hc. inversion Hc; subst.
    change (last (y :: z :: g) 0) with (last (z :: g) 0).
    apply IH; [discriminate|assumption].
Qed.

(** The clusters are consecutive pieces of the list, the first one starting
    at its first element. *)
Lemma clustering_concat (l : list Q) (groups : list (list Q)) :
  clustering l groups -> List.concat groups = l.
Proof.
  induction 1 as [g Hg|g x l gs Hg Hfar Hrest IH]; cbn [List.concat].
  - apply app_nil_r.
  - now rewrite IH.
Qed.

Lemma clustering_head (x : Q) (l : list Q) (groups : list (list Q)) :
  clustering (x :: l) groups ->
  exists h rest, groups = (x :: h) :: rest.
Proof.
  intro H. inversion H as [g Hg|g y l' gs Hg Hfar Hrest Hsplit]; subst.
  - now exists l, [].
  - destruct g as [|z g]; [now apply chain_nonempty in Hg|].
    cbn [app] in Hsplit. injection Hsplit as -> _. now exists g, gs.
Qed.

(** The greedy rule leaves no choice: a list has at most one clustering. *)
Lemma clustering_unique (l : list Q) (gs1 : list (list Q)) :
  clustering l gs1 -> forall gs2, clustering l gs2 -> gs2 = gs1.
Proof.
  induction 1 as [g Hg|g x l gs Hg Hfar Hrest IH]; intros gs2 H2.
  - inversion H2 as [g' Hg' Eg|g' x' l' gs' Hg' Hfar' Hrest' Hsplit].
    + reflexivity.
    + exfalso. apply Hfar'. rewrite <- Hsplit in Hg.
      apply (chain_crosses g' x' l'); [now apply chain_nonempty|assumption].
  - inversion H2 as [g' Hg' Eg|g' x' l' gs' Hg' Hfar' Hrest' Hsplit].
    + exfalso. apply Hfar.
      apply (chain_crosses g x l); [now apply chain_nonempty|assumption].
    + apply app_eq_app in Hsplit. destruct Hsplit as (m & [[E1 E2]|[E1 E2]]).
      * destruct m as [|y m].
        -- rewrite app_nil_r in E1. cbn in E2. injection E2 as E2 E3.
           subst. f_equal. now apply IH.
        -- cbn [app] in E2. injection E2 as E2 E3. subst.
           exfalso. apply Hfar.
           apply (chain_crosses g y m); [now apply chain_nonempty|assumption].
      * destruct m as [|y m].
        -- rewrite app_nil_r in E1. cbn in E2. injection E2 as E2 E3.
           subst. f_equal. now apply IH.
        -- cbn [app] in E2. injection E2 as E2 E3. subst.
           exfalso. apply Hfar'.
           apply (chain_crosses g' y m); [now apply chain_nonempty|assumption].
Qed.

Lemma last_in (g : list Q) : g <> [] -> In (last g 0) g.
Proof.
  induction g as [|y g IH]; intro H; [contradiction|].
  destruct g as [|z g]; [now left|].
  right. apply IH. discriminate.
Qed.

(** The test of the loop divides the distance by the last member itself,
    not by its size. For a positive last member that is the relative
    distance of the specification. *)
Lemma relative_test_positive (prev next : Q) :
  0 < prev ->
  (Qabs (next - prev) / prev < 1 # 100 <-> close_to prev next).
Proof.
  intro Hpos. unfold close_to. rewrite (Qabs_pos prev) by lra. split; intro H.
  - apply (Qmult_lt_compat_r _ _ prev) in H; [|assumption].
    setoid_replace (Qabs (next - prev) / prev * prev) with (Qabs (next - prev))
      in H by (field; lra).
    exact H.
  - apply Qlt_shift_div_r; assumption.
Qed.

(** For a negative last member the quotient is never positive, so the test
    of the loop passes however far the next level is. *)
Lemma relative_test_negative (prev next : Q) :
  prev < 0 -> Qabs (next - prev) / prev < 1 # 100.
Proof.
  intro Hneg. pose proof (Qabs_nonneg (next - prev)) as Hd.
  apply Qle_lt_trans with 0; [|reflexivity].
  setoid_replace (Qabs (next - prev) / prev)
    with (- (Qabs (next - prev) / - prev)) by (field; lra).
  assert (0 <= Qabs (next - prev) / - prev) by (apply Qle_shift_div_l; lra).
  lra.
Qed.

(** The loop cuts [current_cluster ++ rest] into its clusters; the means of
    all but the last are appended to [clusters], the last is left in the
    state. *)
Lemma cluster_loop_spec (rest : list Q) :
  forall clusters current_cluster,
    chain current_cluster ->
    Forall (fun v => 0 < v) (current_cluster ++ rest) ->
    exists groups cl cur,
      MarketAnalyzer.cluster_loop rest (clusters, current_cluster) = Py.Ok (cl, cur) /\
      cur <> [] /\
      clustering (current_cluster ++ rest) groups /\
      cl ++ [Py.mean cur] = clusters ++ map Py.mean groups.
Proof.
  induction rest as [|level rest IH]; intros clusters current Hc Hnz.
  - exists [current], clusters, current. rewrite app_nil_r.
    repeat split.
    + now apply chain_nonempty.
    + now constructor.
  - cbn [MarketAnalyzer.cluster_loop].
    assert (Hlast : 0 < MarketAnalyzer.last_member current).
    { rewrite Forall_forall in Hnz. apply Hnz, in_or_app. left.
      apply last_in. now apply chain_nonempty. }
    rewrite div_ok by lra. cbn [Py.bind].
    case_ltb (Qabs (level - MarketAnalyzer.last_member current)
              / MarketAnalyzer.last_member current) (1 # 100).
    + apply (relative_test_positive _ _ Hlast) in E.
      destruct (IH clusters (current ++ [level])) as (groups & cl & cur & H1 & H2 & H3 & H4).
      * now apply chain_snoc.
      * now rewrite <- app_assoc.
      * exists groups, cl, cur. rewrite <- app_assoc in H3. auto.
    + destruct (IH (clusters ++ [Py.mean current]) [level])
        as (groups & cl & cur & H1 & H2 & H3 & H4).
      * constructor.
      * apply Forall_app in Hnz. tauto.
      * exists (current :: groups), cl, cur. repeat split; try assumption.
        -- apply clustering_more; try assumption.
           intro Hclose. apply (relative_test_positive _ _ Hlast) in Hclose.
           exact (Qlt_not_le _ _ Hclose E).
        -- rewrite H4, <- app_assoc. reflexivity.
Qed.

(** C7, as stated, fails on three kinds of input. A level equal to 0 that
    is compared with the next one makes the relative distance a division
    by zero. A negative [num_levels] makes the final slice drop levels from
    the end instead of keeping that many. And the code divides by the last
    member itself, not by its size: after a negative level every next
    level joins the cluster, so the levels -100, -50 and -10, each far more
    than 1% away from the one before, are averaged into the single level
    -160/3 where the rule of the claim keeps them apart and returns the
    lowest, -100. *)
Lemma cluster_levels_outside_claim :
  MarketAnalyzer._cluster_levels [0; 1] 1 = Py.Raise Py.ZeroDivisionError /\
  MarketAnalyzer._cluster_levels [1; 2; 3] (-1) = Py.Ok [1; 2] /\
  (MarketAnalyzer._cluster_levels [-100; -50; -10] 1 = Py.Ok [(-160) # 3] /\
   clustering (Py.sorted [-100; -50; -10]) [[-100]; [-50]; [-10]] /\
   firstn 1 (Py.sorted (map Py.mean [[-100]; [-50]; [-10]])) = [-100]).
Proof.
  split; [vm_compute; reflexivity|]. split; [vm_compute; reflexivity|].
  split; [vm_compute; reflexivity|]. split; [|vm_compute; reflexivity].
  change (Py.sorted [-100; -50; -10]) with ([-100] ++ -50 :: [-10]).
  apply clustering_more; [constructor|vm_compute; discriminate|].
  change [-50; -10] with ([-50] ++ -10 :: []).
  apply clustering_more; [constructor|vm_compute; discriminate|].
  repeat constructor.
Qed.

(** C7, amended. For every list of swing levels and every [num_levels]:
    when there are at most [num_levels] levels they are returned sorted
    ascending, unchanged; otherwise, provided every level is positive and
    [num_levels >= 0], the sorted list is cut into clusters, a new cluster
    starting exactly when the next value is at least 1% (relative to the
    last member of the current cluster) away from that member, each cluster
    is replaced by its mean, and the [num_levels] lowest means are returned
    in ascending order. *)
Theorem cluster_levels_spec (levels : list Q) (num_levels : Z) :
  Sorted Qle (Py.sorted levels) /\ Permutation (Py.sorted levels) levels /\
  ((Z.of_nat (List.length levels) <= num_levels)%Z ->
   MarketAnalyzer._cluster_levels levels num_levels = Py.Ok (Py.sorted levels)) /\
  ((num_levels < Z.of_nat (List.length levels))%Z ->
   (0 <= num_levels)%Z ->
   Forall (fun v => 0 < v) levels ->
   exists groups,
     clustering (Py.sorted levels) groups /\
     (forall groups', clustering (Py.sorted levels) groups' -> groups' = groups) /\
     exists kept dropped,
       MarketAnalyzer._cluster_levels levels num_levels = Py.Ok kept /\
       List.length kept = Nat.min (Z.to_nat num_levels) (List.length groups) /\
       Sorted Qle (kept ++ dropped) /\
       Permutation (kept ++ dropped) (map Py.mean groups)).
Proof.
  split; [apply sorted_ascending|]. split; [apply sorted_perm|].
  pose proof (sorted_length levels) as Hlen.
  pose proof (sorted_perm levels) as Hperm.
  unfold MarketAnalyzer._cluster_levels.
  destruct levels as [|a levels]; [split; [reflexivity|cbn; lia]|].
  remember (Py.sorted (a :: levels)) as s eqn:Hs.
  rewrite Hlen.
  split; [intro Hcmp|intros Hcmp Hnum Hnz].
  - apply Z.leb_le in Hcmp. now rewrite Hcmp.
  - apply Z.leb_gt in Hcmp. rewrite Hcmp.
    destruct s as [|first rest]; [discriminate|].
    destruct (cluster_loop_spec rest [] [first]) as (groups & cl & cur & H1 & H2 & H3 & H4).
    + constructor.
    + cbn [app]. rewrite Forall_forall in *. intros v Hv. apply Hnz.
      apply (Permutation_in _ Hperm Hv).
    + exists groups. cbn [app] in H3. split; [assumption|].
      split; [now apply clustering_unique|].
      exists (firstn (Z.to_nat num_levels) (Py.sorted (map Py.mean groups))),
             (skipn (Z.to_nat num_levels) (Py.sorted (map Py.mean groups))).
      cbv beta iota zeta. rewrite H1. cbn [Py.bind].
      replace (match cur with [] => cl | _ :: _ => cl ++ [Py.mean cur] end)
        with (map Py.mean groups)
        by (rewrite <- (app_nil_l (map Py.mean groups)), <- H4; now destruct cur).
      rewrite slice_to_nonneg by assumption.
      rewrite firstn_skipn, length_firstn, sorted_length, length_map.
      repeat split; [apply sorted_ascending|apply sorted_perm].
Qed.

Lemma cluster_levels_spec_witness :
  exists kept,
    MarketAnalyzer._cluster_levels [200; 100; 101 # 1; 1005 # 10; 103] 2 = Py.Ok kept /\
    List.length kept = 2%nat.
Proof.
  destruct (cluster_levels_spec [200; 100; 101 # 1; 1005 # 10; 103] 2)
    as (_ & _ & _ & H).
  destruct H as (groups & Hg & _ & kept & dropped & Hk & Hl & _).
  - simpl. lia.
  - lia.
  - repeat constructor.
  - exists kept. split; [assumption|].
    assert (E : groups = [[100; 1005 # 10; 101 # 1]; [103]; [200]]).
    { symmetry. apply (clustering_unique _ _ Hg).
      apply (clustering_more [100; 1005 # 10; 101 # 1] 103 [200]).
      - repeat constructor; vm_compute; reflexivity.
      - vm_compute. discriminate.
      - apply (clustering_more [103] 200 []).
        + constructor.
        + vm_compute. discriminate.
        + repeat constructor. }
    rewrite Hl, E. reflexivity.
Defined.

(** ** Sums over two arrays *)

#[local] Instance ltb_proper : Proper (Qeq ==> Qeq ==> eq) Py.ltb.
Proof. intros a a' Ha b b' Hb. unfold Py.ltb. now rewrite Ha, Hb. Qed.

Lemma len_cons {A} (x : A) (l : list A) : Py.len (x :: l) == 1 + Py.len l.
Proof.
  unfold Py.len. cbn [List.length]. rewrite Nat2Z.inj_succ, <- Z.add_1_l.
  now rewrite inject_Z_plus.
Qed.

Lemma len_nonneg {A} (l : list A) : 0 <= Py.len l.
Proof.
  unfold Py.len. change 0 with (inject_Z 0). rewrite <- Zle_Qle. lia.
Qed.

Lemma len_pos {A} (l : list A) : l <> [] -> 0 < Py.len l.
Proof.
  intro H. destruct l as [|x l]; [contradiction|].
  rewrite len_cons. pose proof (len_nonneg l). lra.
Qed.

Lemma sum_zip_ext (f g : Q -> Q -> Q) (xs ys : list Q) :
  (forall x y, f x y == g x y) ->
  Py.sum (Py.zip_with f xs ys) == Py.sum (Py.zip_with g xs ys).
Proof.
  intro H. revert ys.
  induction xs as [|x xs IH]; intros [|y ys]; cbn [Py.zip_with Py.sum];
    try reflexivity.
  now rewrite H, IH.
Qed.

(** The sum of a product of two affine forms in [x] and [y] is a combination
    of the six moments of the two arrays. *)
Lemma sum_quadratic (a b c a' b' c' : Q) (xs ys : list Q) :
  List.length xs = List.length ys ->
  Py.sum (Py.zip_with (fun x y => (a * y + b * x + c) * (a' * y + b' * x + c')) xs ys)
  == a * a' * Py.sum (Py.zip_with Qmult ys ys)
     + (a * b' + a' * b) * Py.sum (Py.zip_with Qmult xs ys)
     + (a * c' + a' * c) * Py.sum ys
     + b * b' * Py.sum (Py.zip_with Qmult xs xs)
     + (b * c' + b' * c) * Py.sum xs
     + c * c' * Py.len xs.
Proof.
  revert ys. induction xs as [|x xs IH]; intros [|y ys] Hlen;
    try discriminate; cbn [Py.zip_with Py.sum].
  - unfold Py.len. cbn. ring.
  - injection Hlen as Hlen. rewrite (IH ys Hlen), len_cons. ring.
Qed.

Lemma index_sum_as_zip (f : Q -> Q -> Q) (closes : list Q) :
  forall i,
    TrendSpec.index_sum f i closes
    = Py.sum (Py.zip_with f (Np.arange_from i (List.length closes)) closes).
Proof.
  unfold Np.arange_from.
  induction closes as [|y closes IH]; intro i; [reflexivity|].
  cbn [TrendSpec.index_sum List.length seq map Py.zip_with Py.sum].
  now rewrite IH.
Qed.

Lemma arange_from_length (i n : nat) : List.length (Np.arange_from i n) = n.
Proof. unfold Np.arange_from. now rewrite length_map, length_seq. Qed.

Lemma sum_sq_residuals (g : Q -> Q) (xs ys : list Q) :
  Py.sum (map Py.sq (Py.zip_with Qminus ys (map g xs)))
  = Py.sum (Py.zip_with (fun x y => Py.sq (y - g x)) xs ys).
Proof.
  revert ys. induction xs as [|x xs IH]; intros [|y ys];
    cbn [map Py.zip_with Py.sum]; try reflexivity.
  now rewrite IH.
Qed.

Lemma sum_map_as_zip (h : Q -> Q) (xs ys : list Q) :
  List.length xs = List.length ys ->
  Py.sum (map h ys) = Py.sum (Py.zip_with (fun _ y => h y) xs ys).
Proof.
  revert ys. induction xs as [|x xs IH]; intros [|y ys] Hlen;
    try discriminate; cbn [map Py.zip_with Py.sum]; [reflexivity|].
  injection Hlen as Hlen. now rewrite (IH ys Hlen).
Qed.

(** ** Covariance of two increasing arrays *)

Lemma sum_products_nonneg (x y : Q) (xs ys : list Q) :
  Forall (Qlt x) xs -> Forall (Qlt y) ys ->
  0 <= Py.sum (Py.zip_with (fun u v => (u - x) * (v - y)) xs ys).
Proof.
  intro Hx. revert ys. induction Hx as [|u xs Hu Hxs IH]; intros ys Hy.
  - cbn. lra.
  - destruct Hy as [|v ys Hv Hys]; cbn [Py.zip_with Py.sum]; [lra|].
    specialize (IH ys Hys).
    assert (0 < (u - x) * (v - y)) by (apply Qmult_lt_0_compat; lra).
    lra.
Qed.

Lemma sum_products_pos (x y u v : Q) (xs ys : list Q) :
  Forall (Qlt x) (u :: xs) -> Forall (Qlt y) (v :: ys) ->
  0 < Py.sum (Py.zip_with (fun u v => (u - x) * (v - y)) (u :: xs) (v :: ys)).
Proof.
  intros Hx Hy. inversion Hx; subst. inversion Hy; subst.
  cbn [Py.zip_with Py.sum].
  assert (0 <= Py.sum (Py.zip_with (fun u v => (u - x) * (v - y)) xs ys))
    by now apply sum_products_nonneg.
  assert (0 < (u - x) * (v - y)) by (apply Qmult_lt_0_compat; lra).
  lra.
Qed.

(** Adding a point in front changes [n * Sxy - Sx * Sy] by the sum of the
    products of the distances to that point. *)
Lemma covariance_step (x y : Q) (xs ys : list Q) :
  List.length xs = List.length ys ->
  Py.len (x :: xs) * Py.sum (Py.zip_with Qmult (x :: xs) (y :: ys))
  - Py.sum (x :: xs) * Py.sum (y :: ys)
  == (Py.len xs * Py.sum (Py.zip_with Qmult xs ys) - Py.sum xs * Py.sum ys)
     + Py.sum (Py.zip_with (fun u v => (u - x) * (v - y)) xs ys).
Proof.
  intro Hlen.
  assert (E : Py.sum (Py.zip_with (fun u v => (u - x) * (v - y)) xs ys)
              == Py.sum (Py.zip_with Qmult xs ys) - x * Py.sum ys
                 - y * Py.sum xs + x * y * Py.len xs).
  { rewrite (sum_zip_ext _ (fun u v => (0 * v + 1 * u + - x) * (1 * v + 0 * u + - y)))
      by (intros; ring).
    rewrite sum_quadratic by assumption. ring. }
  rewrite E, len_cons. cbn [Py.zip_with Py.sum]. ring.
Qed.

Lemma covariance_nonneg (xs : list Q) :
  forall ys,
    List.length xs = List.length ys ->
    StronglySorted Qlt xs -> StronglySorted Qlt ys ->
    0 <= Py.len xs * Py.sum (Py.zip_with Qmult xs ys) - Py.sum xs * Py.sum ys.
Proof.
  induction xs as [|x xs IH]; intros [|y ys] Hlen Hxs Hys;
    try discriminate Hlen.
  - apply Qle_bool_iff. reflexivity.
  - injection Hlen as Hlen.
    inversion Hxs as [|? ? Hxs' Hx]; subst. inversion Hys as [|? ? Hys' Hy]; subst.
    rewrite covariance_step by assumption.
    specialize (IH ys Hlen Hxs' Hys').
    pose proof (sum_products_nonneg x y xs ys Hx Hy). lra.
Qed.

Lemma covariance_pos (xs ys : list Q) :
  List.length xs = List.length ys -> (2 <= List.length xs)%nat ->
  StronglySorted Qlt xs -> StronglySorted Qlt ys ->
  0 < Py.len xs * Py.sum (Py.zip_with Qmult xs ys) - Py.sum xs * Py.sum ys.
Proof.
  intros Hlen Htwo Hxs Hys.
  destruct xs as [|x [|u xs]]; try (cbn in Htwo; lia).
  destruct ys as [|y [|v ys]]; try discriminate.
  injection Hlen as Hlen.
  inversion Hxs as [|? ? Hxs' Hx]; subst. inversion Hys as [|? ? Hys' Hy]; subst.
  rewrite covariance_step by (cbn [List.length]; now f_equal).
  pose proof (covariance_nonneg (u :: xs) (v :: ys)
                ltac:(cbn [List.length]; now f_equal) Hxs' Hys').
  pose proof (sum_products_pos x y u v xs ys Hx Hy). lra.
Qed.

Lemma arange_from_increasing (n : nat) :
  forall i, StronglySorted Qlt (Np.arange_from i n).
Proof.
  unfold Np.arange_from.
  induction n as [|n IH]; intro i; cbn [seq map]; constructor.
  - apply IH.
  - apply Forall_forall. intros v Hv.
    apply in_map_iff in Hv. destruct Hv as (k & <- & Hk).
    apply in_seq in Hk. rewrite <- Zlt_Qlt. lia.
Qed.

Lemma len_arange (i n : nat) (closes : list Q) :
  List.length closes = n -> Py.len (Np.arange_from i n) = Py.len closes.
Proof. intro H. unfold Py.len. now rewrite arange_from_length, H. Qed.

(** The variance of the positions [0 .. n-1] is positive when [n >= 2]. *)
Lemma index_variance_pos (n : nat) :
  (2 <= n)%nat ->
  0 < Py.len (Np.arange n) * Py.sum (Py.zip_with Qmult (Np.arange n) (Np.arange n))
      - Py.sum (Np.arange n) * Py.sum (Np.arange n).
Proof.
  intro H. unfold Np.arange.
  apply covariance_pos; try apply arange_from_increasing; try reflexivity.
  now rewrite arange_from_length.
Qed.

(** ** The fit in terms of moments *)

Lemma slope_algebra (n sx sy sxx sxy : Q) :
  0 < n -> 0 < n * sxx - sx * sx ->
  (sxy - sx / n * sy - sy / n * sx + sx / n * (sy / n) * n)
  / (sxx - 2 * (sx / n) * sx + sx / n * (sx / n) * n)
  == (n * sxy - sx * sy) / (n * sxx - sx * sx).
Proof.
  intros Hn Hd.
  assert (E1 : sxy - sx / n * sy - sy / n * sx + sx / n * (sy / n) * n
               == (n * sxy - sx * sy) / n) by (field; lra).
  assert (E2 : sxx - 2 * (sx / n) * sx + sx / n * (sx / n) * n
               == (n * sxx - sx * sx) / n) by (field; lra).
  rewrite E1, E2. field. split; lra.
Qed.

Section Moments.

Variable closes : list Q.

Let xs := Np.arange (List.length closes).
Let n := Py.len closes.
Let Sx := Py.sum xs.
Let Sy := Py.sum closes.
Let Sxx := Py.sum (Py.zip_with Qmult xs xs).
Let Sxy := Py.sum (Py.zip_with Qmult xs closes).
Let Syy := Py.sum (Py.zip_with Qmult closes closes).

Lemma xs_length : List.length xs = List.length closes.
Proof. apply arange_from_length. Qed.

Lemma xs_len : Py.len xs = n.
Proof. now apply len_arange. Qed.

(** Rewrites a sum over positions and closes into the six moments. *)
Ltac to_moments f :=
  rewrite (sum_zip_ext _ f) by (intros; unfold Py.sq; ring);
  rewrite sum_quadratic by apply xs_length;
  rewrite xs_len; fold Sx Sy Sxx Sxy Syy; ring.

Lemma spec_sum_x : TrendSpec.index_sum (fun x _ => x) 0 closes == Sx.
Proof.
  rewrite index_sum_as_zip. fold (Np.arange (List.length closes)). fold xs.
  to_moments (fun x y : Q => (0 * y + 1 * x + 0) * (0 * y + 0 * x + 1)).
Qed.

Lemma spec_sum_y : TrendSpec.index_sum (fun _ y => y) 0 closes == Sy.
Proof.
  rewrite index_sum_as_zip. fold (Np.arange (List.length closes)). fold xs.
  to_moments (fun x y : Q => (1 * y + 0 * x + 0) * (0 * y + 0 * x + 1)).
Qed.

Lemma spec_covariance (xb yb : Q) :
  TrendSpec.index_sum (fun x y => (x - xb) * (y - yb)) 0 closes
  == Sxy - xb * Sy - yb * Sx + xb * yb * n.
Proof.
  rewrite index_sum_as_zip. fold (Np.arange (List.length closes)). fold xs.
  to_moments (fun x y : Q => (0 * y + 1 * x + - xb) * (1 * y + 0 * x + - yb)).
Qed.

Lemma spec_variance (xb : Q) :
  TrendSpec.index_sum (fun x _ => (x - xb) ^ 2) 0 closes
  == Sxx - 2 * xb * Sx + xb * xb * n.
Proof.
  rewrite index_sum_as_zip. fold (Np.arange (List.length closes)). fold xs.
  to_moments (fun x y : Q => (0 * y + 1 * x + - xb) * (0 * y + 1 * x + - xb)).
Qed.

Lemma spec_residuals (b m : Q) :
  TrendSpec.index_sum (fun x y => (y - (b * x + m)) ^ 2) 0 closes
  == Syy - 2 * b * Sxy - 2 * m * Sy + b * b * Sxx + 2 * b * m * Sx + m * m * n.
Proof.
  rewrite index_sum_as_zip. fold (Np.arange (List.length closes)). fold xs.
  to_moments (fun x y : Q => (1 * y + - b * x + - m) * (1 * y + - b * x + - m)).
Qed.

Lemma spec_deviations (m : Q) :
  TrendSpec.index_sum (fun _ y => (y - m) ^ 2) 0 closes
  == Syy - 2 * m * Sy + m * m * n.
Proof.
  rewrite index_sum_as_zip. fold (Np.arange (List.length closes)). fold xs.
  to_moments (fun x y : Q => (1 * y + 0 * x + - m) * (1 * y + 0 * x + - m)).
Qed.

Lemma code_residuals (b m : Q) :
  Py.sum (map Py.sq (Py.zip_with Qminus closes (map (fun xi => b * xi + m) xs)))
  == Syy - 2 * b * Sxy - 2 * m * Sy + b * b * Sxx + 2 * b * m * Sx + m * m * n.
Proof.
  rewrite sum_sq_residuals.
  to_moments (fun x y : Q => (1 * y + - b * x + - m) * (1 * y + - b * x + - m)).
Qed.

Lemma code_deviations (m : Q) :
  Py.sum (map (fun c => Py.sq (c - m)) closes)
  == Syy - 2 * m * Sy + m * m * n.
Proof.
  rewrite (sum_map_as_zip _ xs) by apply xs_length.
  to_moments (fun x y : Q => (1 * y + 0 * x + - m) * (1 * y + 0 * x + - m)).
Qed.

Lemma spec_mean_close : TrendSpec.mean_close closes == Py.mean closes.
Proof. unfold TrendSpec.mean_close, Py.mean. now rewrite spec_sum_y. Qed.

Hypothesis two_closes : (2 <= List.length closes)%nat.

Lemma n_pos : 0 < n.
Proof. apply len_pos. destruct closes; [cbn in two_closes; lia|discriminate]. Qed.

Lemma variance_pos : 0 < n * Sxx - Sx * Sx.
Proof.
  pose proof (index_variance_pos (List.length closes) two_closes) as H.
  fold xs in H. rewrite xs_len in H. exact H.
Qed.

Lemma spec_slope : TrendSpec.ols_slope closes == fst (Np.polyfit1 xs closes).
Proof.
  unfold TrendSpec.ols_slope, Np.polyfit1. cbn [fst].
  rewrite spec_covariance, spec_variance.
  unfold TrendSpec.mean_index, TrendSpec.mean_close.
  rewrite spec_sum_x, spec_sum_y.
  change (TrendSpec.size closes) with n. rewrite xs_len.
  fold Sx Sy Sxx Sxy.
  apply slope_algebra; [apply n_pos|apply variance_pos].
Qed.

Lemma spec_ss_res :
  TrendSpec.ss_res closes
  == Py.sum (map Py.sq
       (Py.zip_with Qminus closes
          (map (fun xi => fst (Np.polyfit1 xs closes) * xi + Py.mean closes) xs))).
Proof.
  unfold TrendSpec.ss_res.
  rewrite spec_residuals, code_residuals, spec_slope, spec_mean_close.
  reflexivity.
Qed.

Lemma spec_ss_tot :
  TrendSpec.ss_tot closes
  == Py.sum (map (fun c => Py.sq (c - Py.mean closes)) closes).
Proof.
  unfold TrendSpec.ss_tot.
  rewrite spec_deviations, code_deviations, spec_mean_close. reflexivity.
Qed.

End Moments.

(** ** Trend direction and strength *)

Lemma max_is_Qmax (a b : Q) : Py.max a b == Qmax a b.
Proof.
  unfold Py.max. case_ltb a b.
  - symmetry. apply Q.max_r. lra.
  - symmetry. apply Q.max_l. assumption.
Qed.

Lemma min_is_Qmin (a b : Q) : Py.min a b == Qmin a b.
Proof.
  unfold Py.min. case_ltb b a.
  - symmetry. apply Q.min_r. lra.
  - symmetry. apply Q.min_l. assumption.
Qed.

Lemma clamp_bounds (r : Q) : 0 <= Py.max 0 (Py.min 1 r) <= 1.
Proof.
  unfold Py.max, Py.min.
  case_ltb r 1; [case_ltb 0 r|case_ltb 0 1]; lra.
Qed.

Lemma sum_squares_nonneg (m : Q) (closes : list Q) :
  0 <= Py.sum (map (fun c => Py.sq (c - m)) closes).
Proof.
  induction closes as [|c closes IH]; cbn [map Py.sum]; [lra|].
  assert (H : 0 <= Py.sq (c - m)).
  { unfold Py.sq. setoid_replace ((c - m) * (c - m)) with ((c - m) ^ 2) by ring.
    apply Qsqr_nonneg. }
  lra.
Qed.

(** [calculate_trend] past its length guard. *)
Lemma calculate_trend_long (ohlcv_data : list OHLCV) :
  (2 <= List.length ohlcv_data)%nat ->
  let closes := map close ohlcv_data in
  let x := Np.arange (List.length closes) in
  let slope := fst (Np.polyfit1 x closes) in
  let ss_res :=
    Py.sum (map Py.sq (Py.zip_with Qminus closes
                         (map (fun xi => slope * xi + Py.mean closes) x))) in
  let ss_tot := Py.sum (map (fun c => Py.sq (c - Py.mean closes)) closes) in
  let normalized_slope :=
    if Py.ltb 0 (Py.mean closes) then slope / Py.mean closes else 0 in
  MarketAnalyzer.calculate_trend ohlcv_data
  = (if Py.ltb (1 # 1000) normalized_slope then Bullish
     else if Py.ltb normalized_slope (- (1 # 1000)) then Bearish
     else Neutral,
     Py.max 0 (Py.min 1 (if Py.ltb 0 ss_tot then 1 - ss_res / ss_tot else 0))).
Proof.
  intro Hlen. unfold MarketAnalyzer.calculate_trend.
  destruct (Nat.ltb_spec (List.length ohlcv_data) 2) as [Hlt|_]; [lia|].
  reflexivity.
Qed.

(** C2. For at least two candles whose closes are not all equal to their
    mean, the strength returned by [calculate_trend] is
    [max(0, min(1, 1 - SS_res / SS_tot))], the residuals being taken against
    [slope * x + mean(close)] with the least-squares slope of the closes
    against their position, and [SS_tot] being the squared deviations from
    the mean close. *)
Theorem trend_strength_formula (ohlcv_data : list OHLCV) :
  (2 <= List.length ohlcv_data)%nat ->
  ~ TrendSpec.ss_tot (map close ohlcv_data) == 0 ->
  snd (MarketAnalyzer.calculate_trend ohlcv_data)
  == Qmax 0 (Qmin 1 (1 - TrendSpec.ss_res (map close ohlcv_data)
                         / TrendSpec.ss_tot (map close ohlcv_data))).
Proof.
  intros Hlen Hvar.
  rewrite (calculate_trend_long ohlcv_data Hlen). cbn [snd].
  assert (Hclen : (2 <= List.length (map close ohlcv_data))%nat)
    by now rewrite length_map.
  set (closes := map close ohlcv_data) in *.
  pose proof (spec_ss_res closes Hclen) as Hres.
  pose proof (spec_ss_tot closes) as Htot.
  assert (Hpos : 0 < TrendSpec.ss_tot closes).
  { pose proof (sum_squares_nonneg (Py.mean closes) closes) as Hn.
    rewrite <- Htot in Hn.
    destruct (Qlt_le_dec 0 (TrendSpec.ss_tot closes)) as [|Hle]; [assumption|].
    exfalso. apply Hvar. lra. }
  rewrite Htot in Hpos. apply ltb_lt in Hpos. rewrite Hpos.
  rewrite max_is_Qmax, min_is_Qmin, <- Hres, <- Htot. reflexivity.
Qed.

Lemma trend_strength_formula_witness :
  snd (MarketAnalyzer.calculate_trend (map flat_candle [1; 3; 2; 5]))
  == Qmax 0 (Qmin 1 (1 - TrendSpec.ss_res (map close (map flat_candle [1; 3; 2; 5]))
                         / TrendSpec.ss_tot (map close (map flat_candle [1; 3; 2; 5])))).
Proof.
  apply (trend_strength_formula (map flat_candle [1; 3; 2; 5])).
  - simpl. lia.
  - vm_compute. discriminate.
Defined.

(** C1, as stated, fails.  Closes 1000, 1000.5, 1001 rise strictly, yet the
    slope is below 0.1% of the mean close, so the trend is neutral; and the
    residuals are taken against [slope * x + mean(close)], so even on a
    straight line such as 1, 2, 3 the strength is 0, not 1. *)
Lemma increasing_closes_not_perfect :
  Sorted Qlt (map close (map flat_candle [1000; 2001 # 2; 1001])) /\
  MarketAnalyzer.calculate_trend (map flat_candle [1000; 2001 # 2; 1001])
  = (Neutral, 0) /\
  MarketAnalyzer.calculate_trend (map flat_candle [1; 2; 3]) = (Bullish, 0).
Proof.
  split; [|split; vm_compute; reflexivity].
  repeat constructor.
Qed.

Lemma increasing_slope_pos (closes : list Q) :
  (2 <= List.length closes)%nat -> Sorted Qlt closes ->
  0 < fst (Np.polyfit1 (Np.arange (List.length closes)) closes).
Proof.
  intros Hlen Hinc.
  apply Sorted_StronglySorted in Hinc; [|exact Qlt_trans].
  unfold Np.polyfit1. cbn [fst]. unfold Qdiv.
  apply Qmult_lt_0_compat.
  - unfold Np.arange. apply covariance_pos; try assumption.
    + apply arange_from_length.
    + now rewrite arange_from_length.
    + apply arange_from_increasing.
  - apply Qinv_lt_0_compat. now apply index_variance_pos.
Qed.

(** C1, amended. For at least two candles with strictly increasing closes the
    fitted slope is positive and the trend is never bearish: it is bullish
    exactly when the mean close is positive and the slope exceeds 0.1% of
    it, and neutral otherwise; the strength lies between 0 and 1. *)
Theorem increasing_closes_trend (ohlcv_data : list OHLCV) :
  (2 <= List.length ohlcv_data)%nat ->
  Sorted Qlt (map close ohlcv_data) ->
  0 < TrendSpec.ols_slope (map close ohlcv_data) /\
  fst (MarketAnalyzer.calculate_trend ohlcv_data) <> Bearish /\
  (fst (MarketAnalyzer.calculate_trend ohlcv_data) = Bullish <->
   0 < TrendSpec.mean_close (map close ohlcv_data) /\
   1 # 1000 < TrendSpec.ols_slope (map close ohlcv_data)
              / TrendSpec.mean_close (map close ohlcv_data)) /\
  0 <= snd (MarketAnalyzer.calculate_trend ohlcv_data) <= 1.
Proof.
  intros Hlen Hinc.
  rewrite (calculate_trend_long ohlcv_data Hlen). cbn [fst snd].
  assert (Hclen : (2 <= List.length (map close ohlcv_data))%nat)
    by now rewrite length_map.
  set (closes := map close ohlcv_data) in *.
  rewrite (spec_slope closes Hclen), (spec_mean_close closes).
  pose proof (increasing_slope_pos closes Hclen Hinc) as Hslope.
  set (slope := fst (Np.polyfit1 (Np.arange (List.length closes)) closes)) in *.
  set (m := Py.mean closes).
  split; [assumption|].
  split; [|split; [|apply clamp_bounds]].
  - case_ltb 0 m.
    + assert (0 < slope / m).
      { unfold Qdiv. apply Qmult_lt_0_compat; [assumption|].
        now apply Qinv_lt_0_compat. }
      case_ltb (1 # 1000) (slope / m); [discriminate|].
      case_ltb (slope / m) (- (1 # 1000)); [lra|discriminate].
    + case_ltb (1 # 1000) 0; [discriminate|].
      case_ltb 0 (- (1 # 1000)); [lra|discriminate].
  - case_ltb 0 m.
    + case_ltb (1 # 1000) (slope / m).
      * tauto.
      * split; [|intros [_ H]; lra].
        case_ltb (slope / m) (- (1 # 1000)); discriminate.
    + case_ltb (1 # 1000) 0; [lra|].
      split; [|intros [H _]; lra].
      case_ltb 0 (- (1 # 1000)); discriminate.
Qed.

Lemma increasing_closes_trend_witness :
  0 < TrendSpec.ols_slope (map close (map flat_candle [1; 2; 4])) /\
  fst (MarketAnalyzer.calculate_trend (map flat_candle [1; 2; 4])) <> Bearish /\
  (fst (MarketAnalyzer.calculate_trend (map flat_candle [1; 2; 4])) = Bullish <->
   0 < TrendSpec.mean_close (map close (map flat_candle [1; 2; 4])) /\
   1 # 1000 < TrendSpec.ols_slope (map close (map flat_candle [1; 2; 4]))
              / TrendSpec.mean_close (map close (map flat_candle [1; 2; 4]))) /\
  0 <= snd (MarketAnalyzer.calculate_trend (map flat_candle [1; 2; 4])) <= 1.
Proof.
  apply (increasing_closes_trend (map flat_candle [1; 2; 4])).
  - simpl. lia.
  - repeat constructor.
Defined.

(** ** The fitted line and the strength it yields *)

Lemma least_squares_algebra (n sx sy sxx sxy syy a b : Q) :
  0 < n -> 0 < n * sxx - sx * sx ->
  (syy - 2 * a * sxy - 2 * b * sy + a * a * sxx + 2 * a * b * sx + b * b * n)
  - (syy
     - 2 * ((n * sxy - sx * sy) / (n * sxx - sx * sx)) * sxy
     - 2 * ((sy - (n * sxy - sx * sy) / (n * sxx - sx * sx) * sx) / n) * sy
     + (n * sxy - sx * sy) / (n * sxx - sx * sx)
       * ((n * sxy - sx * sy) / (n * sxx - sx * sx)) * sxx
     + 2 * ((n * sxy - sx * sy) / (n * sxx - sx * sx))
       * ((sy - (n * sxy - sx * sy) / (n * sxx - sx * sx) * sx) / n) * sx
     + (sy - (n * sxy - sx * sy) / (n * sxx - sx * sx) * sx) / n
       * ((sy - (n * sxy - sx * sy) / (n * sxx - sx * sx) * sx) / n) * n)
  == (a - (n * sxy - sx * sy) / (n * sxx - sx * sx))
     * (a - (n * sxy - sx * sy) / (n * sxx - sx * sx)) * sxx
     + 2 * (a - (n * sxy - sx * sy) / (n * sxx - sx * sx))
       * (b - (sy - (n * sxy - sx * sy) / (n * sxx - sx * sx) * sx) / n) * sx
     + (b - (sy - (n * sxy - sx * sy) / (n * sxx - sx * sx) * sx) / n)
       * (b - (sy - (n * sxy - sx * sy) / (n * sxx - sx * sx) * sx) / n) * n.
Proof. intros Hn Hd. field. split; lra. Qed.

Lemma sum_zip_squares_nonneg (f : Q -> Q -> Q) (xs ys : list Q) :
  0 <= Py.sum (Py.zip_with (fun x y => f x y * f x y) xs ys).
Proof.
  revert ys. induction xs as [|x xs IH]; intros [|y ys];
    cbn [Py.zip_with Py.sum]; try lra.
  specialize (IH ys).
  assert (H : 0 <= f x y * f x y).
  { setoid_replace (f x y * f x y) with (f x y ^ 2) by ring. apply Qsqr_nonneg. }
  lra.
Qed.

Lemma squared_error_moments (p q : Q) (xs ys : list Q) :
  List.length xs = List.length ys ->
  Py.sum (Py.zip_with (fun x y => Py.sq (y - (p * x + q))) xs ys)
  == Py.sum (Py.zip_with Qmult ys ys)
     - 2 * p * Py.sum (Py.zip_with Qmult xs ys) - 2 * q * Py.sum ys
     + p * p * Py.sum (Py.zip_with Qmult xs xs) + 2 * p * q * Py.sum xs
     + q * q * Py.len xs.
Proof.
  intro Hlen.
  rewrite (sum_zip_ext _ (fun x y => (1 * y + - p * x + - q) * (1 * y + - p * x + - q)))
    by (intros; unfold Py.sq; ring).
  rewrite sum_quadratic by assumption. ring.
Qed.

(** The line returned by [polyfit1] has the least sum of squared residuals
    among all lines, whenever the abscissas are not all equal. *)
Lemma polyfit1_least_squares (xs ys : list Q) (a b : Q) :
  List.length xs = List.length ys ->
  0 < Py.len xs * Py.sum (Py.zip_with Qmult xs xs) - Py.sum xs * Py.sum xs ->
  Py.sum (Py.zip_with
            (fun x y => Py.sq (y - (fst (Np.polyfit1 xs ys) * x
                                    + snd (Np.polyfit1 xs ys)))) xs ys)
  <= Py.sum (Py.zip_with (fun x y => Py.sq (y - (a * x + b))) xs ys).
Proof.
  intros Hlen Hd.
  assert (Hn : 0 < Py.len xs).
  { apply len_pos. intros ->. revert Hd. vm_compute. discriminate. }
  rewrite !squared_error_moments by assumption.
  unfold Np.polyfit1. cbn [fst snd].
  set (n := Py.len xs) in *. set (sx := Py.sum xs) in *.
  set (sy := Py.sum ys). set (sxy := Py.sum (Py.zip_with Qmult xs ys)).
  set (sxx := Py.sum (Py.zip_with Qmult xs xs)) in *.
  set (syy := Py.sum (Py.zip_with Qmult ys ys)).
  pose proof (least_squares_algebra n sx sy sxx sxy syy a b Hn Hd) as Halg.
  set (s := (n * sxy - sx * sy) / (n * sxx - sx * sx)) in *.
  set (i := (sy - s * sx) / n) in *.
  pose proof (sum_zip_squares_nonneg (fun x _ => (a - s) * x + (b - i)) xs ys) as Hsq.
  rewrite (sum_zip_ext _ (fun x y => (0 * y + (a - s) * x + (b - i))
                                     * (0 * y + (a - s) * x + (b - i))))
    in Hsq by (intros; ring).
  rewrite sum_quadratic in Hsq by assumption.
  fold n sx sxx in Hsq. lra.
Qed.

Lemma sum_app (l1 l2 : list Q) : Py.sum (l1 ++ l2) == Py.sum l1 + Py.sum l2.
Proof.
  induction l1 as [|x l1 IH]; cbn [app Py.sum]; [ring|].
  rewrite IH. ring.
Qed.

Lemma zip_self (xs : list Q) : Py.zip_with Qmult xs xs = map Py.sq xs.
Proof.
  induction xs as [|x xs IH]; cbn [Py.zip_with map]; [reflexivity|].
  now rewrite IH.
Qed.

Lemma arange_succ (n : nat) :
  Np.arange (S n) = Np.arange n ++ [inject_Z (Z.of_nat n)].
Proof.
  unfold Np.arange, Np.arange_from. now rewrite seq_S, map_app.
Qed.

Lemma inject_succ (n : nat) :
  inject_Z (Z.of_nat (S n)) == inject_Z (Z.of_nat n) + 1.
Proof.
  rewrite Nat2Z.inj_succ, <- Z.add_1_r, inject_Z_plus. reflexivity.
Qed.

(** [0 + 1 + ... + (n-1)] and [0 + 1 + 4 + ... + (n-1)^2]. *)
Lemma arange_sum (n : nat) :
  2 * Py.sum (Np.arange n)
  == inject_Z (Z.of_nat n) * (inject_Z (Z.of_nat n) - 1).
Proof.
  induction n as [|n IH]; [reflexivity|].
  rewrite arange_succ, sum_app, inject_succ. cbn [Py.sum].
  set (q := inject_Z (Z.of_nat n)) in *.
  setoid_replace (2 * (Py.sum (Np.arange n) + (q + 0)))
    with (2 * Py.sum (Np.arange n) + 2 * q) by ring.
  rewrite IH. ring.
Qed.

Lemma arange_sum_squares (n : nat) :
  6 * Py.sum (map Py.sq (Np.arange n))
  == inject_Z (Z.of_nat n) * (inject_Z (Z.of_nat n) - 1)
     * (2 * inject_Z (Z.of_nat n) - 1).
Proof.
  induction n as [|n IH]; [reflexivity|].
  rewrite arange_succ, map_app, sum_app, inject_succ. cbn [map Py.sum].
  set (q := inject_Z (Z.of_nat n)) in *.
  setoid_replace (6 * (Py.sum (map Py.sq (Np.arange n)) + (Py.sq q + 0)))
    with (6 * Py.sum (map Py.sq (Np.arange n)) + 6 * (q * q))
    by (unfold Py.sq; ring).
  rewrite IH. ring.
Qed.

(** For the positions [0 .. n-1], [n * Sxx <= 2 * Sx^2]. *)
Lemma index_moments_gap (n : nat) :
  0 <= 2 * (Py.sum (Np.arange n) * Py.sum (Np.arange n))
       - Py.len (Np.arange n) * Py.sum (Py.zip_with Qmult (Np.arange n) (Np.arange n)).
Proof.
  rewrite zip_self.
  replace (Py.len (Np.arange n)) with (inject_Z (Z.of_nat n))
    by (unfold Py.len, Np.arange; now rewrite arange_from_length).
  pose proof (arange_sum n) as H1. pose proof (arange_sum_squares n) as H2.
  set (q := inject_Z (Z.of_nat n)) in *.
  set (sx := Py.sum (Np.arange n)) in *.
  set (sxx := Py.sum (map Py.sq (Np.arange n))) in *.
  assert (Hq : 0 <= (q - 1) * (q - 2)).
  { assert (Hz : (0 <= (Z.of_nat n - 1) * (Z.of_nat n - 2))%Z).
    { destruct n as [|[|k]]; [discriminate|discriminate|].
      apply Z.mul_nonneg_nonneg; lia. }
    rewrite Zle_Qle in Hz.
    rewrite inject_Z_mult in Hz. unfold Zminus in Hz.
    rewrite !inject_Z_plus in Hz. fold q in Hz.
    setoid_replace ((q - 1) * (q - 2))
      with ((q + inject_Z (- (1))) * (q + inject_Z (- (2)))) by (cbn; ring).
    exact Hz. }
  assert (E : 6 * (2 * (sx * sx) - q * sxx) == q * q * ((q - 1) * (q - 2))).
  { setoid_replace (6 * (2 * (sx * sx) - q * sxx))
      with (3 * ((2 * sx) * (2 * sx)) - q * (6 * sxx)) by ring.
    rewrite H1, H2. ring. }
  assert (Hqq : 0 <= q * q).
  { setoid_replace (q * q) with (q ^ 2) by ring. apply Qsqr_nonneg. }
  pose proof (Qmult_le_0_compat _ _ Hqq Hq) as Hprod.
  rewrite <- E in Hprod. lra.
Qed.

Lemma residual_gap (n sx sy sxx sxy syy : Q) :
  0 < n -> 0 < n * sxx - sx * sx ->
  (syy
   - 2 * ((n * sxy - sx * sy) / (n * sxx - sx * sx)) * sxy
   - 2 * (sy / n) * sy
   + (n * sxy - sx * sy) / (n * sxx - sx * sx)
     * ((n * sxy - sx * sy) / (n * sxx - sx * sx)) * sxx
   + 2 * ((n * sxy - sx * sy) / (n * sxx - sx * sx)) * (sy / n) * sx
   + sy / n * (sy / n) * n)
  - (syy - 2 * (sy / n) * sy + sy / n * (sy / n) * n)
  == (n * sxy - sx * sy) / (n * sxx - sx * sx)
     * ((n * sxy - sx * sy) / (n * sxx - sx * sx))
     * ((2 * (sx * sx) - n * sxx) / n).
Proof. intros Hn Hd. field. split; lra. Qed.

(** With the residuals taken against [slope * x + mean(close)] they are
    never smaller than the deviations from the mean. *)
Lemma residuals_exceed_deviations (closes : list Q) :
  (2 <= List.length closes)%nat ->
  let x := Np.arange (List.length closes) in
  let slope := fst (Np.polyfit1 x closes) in
  Py.sum (map (fun c => Py.sq (c - Py.mean closes)) closes)
  <= Py.sum (map Py.sq (Py.zip_with Qminus closes
                          (map (fun xi => slope * xi + Py.mean closes) x))).
Proof.
  intro Hlen. cbv zeta.
  rewrite code_residuals, code_deviations.
  unfold Np.polyfit1, Py.mean. cbn [fst].
  rewrite (xs_len closes).
  pose proof (n_pos closes Hlen) as Hn.
  pose proof (variance_pos closes Hlen) as Hd.
  pose proof (index_moments_gap (List.length closes)) as Hgap.
  rewrite (xs_len closes) in Hgap.
  set (x := Np.arange (List.length closes)) in *.
  set (n := Py.len closes) in *. set (sx := Py.sum x) in *.
  set (sy := Py.sum closes). set (sxy := Py.sum (Py.zip_with Qmult x closes)).
  set (sxx := Py.sum (Py.zip_with Qmult x x)) in *.
  set (syy := Py.sum (Py.zip_with Qmult closes closes)).
  pose proof (residual_gap n sx sy sxx sxy syy Hn Hd) as Halg.
  set (b := (n * sxy - sx * sy) / (n * sxx - sx * sx)) in *.
  assert (Hbb : 0 <= b * b).
  { setoid_replace (b * b) with (b ^ 2) by ring. apply Qsqr_nonneg. }
  assert (Hfrac : 0 <= (2 * (sx * sx) - n * sxx) / n).
  { unfold Qdiv. apply Qmult_le_0_compat; [assumption|].
    apply Qlt_le_weak. now apply Qinv_lt_0_compat. }
  pose proof (Qmult_le_0_compat _ _ Hbb Hfrac) as Hprod.
  rewrite <- Halg in Hprod. lra.
Qed.

(** In exact arithmetic the strength returned by [calculate_trend] is 0 for
    every window: the coefficient of determination computed this way is
    never positive. *)
Lemma trend_strength_never_positive (ohlcv_data : list OHLCV) :
  snd (MarketAnalyzer.calculate_trend ohlcv_data) = 0.
Proof.
  destruct (Nat.ltb_spec (List.length ohlcv_data) 2) as [Hshort|Hlong].
  - unfold MarketAnalyzer.calculate_trend.
    apply Nat.ltb_lt in Hshort. now rewrite Hshort.
  - rewrite (calculate_trend_long ohlcv_data Hlong). cbn [snd].
    assert (Hclen : (2 <= List.length (map close ohlcv_data))%nat)
      by now rewrite length_map.
    pose proof (residuals_exceed_deviations (map close ohlcv_data) Hclen) as Hge.
    cbv zeta in Hge.
    set (closes := map close ohlcv_data) in *.
    set (ss_tot := Py.sum (map (fun c => Py.sq (c - Py.mean closes)) closes)) in *.
    set (ss_res := Py.sum (map Py.sq _)) in *.
    assert (Hr : (if Py.ltb 0 ss_tot then 1 - ss_res / ss_tot else 0) <= 0).
    { case_ltb 0 ss_tot; [|lra].
      assert (1 <= ss_res / ss_tot) by (apply Qle_shift_div_l; lra).
      lra. }
    set (r := if Py.ltb 0 ss_tot then 1 - ss_res / ss_tot else 0) in *.
    unfold Py.max, Py.min.
    case_ltb r 1; [|lra].
    case_ltb 0 r; [lra|reflexivity].
Qed.

(** * Further properties of the code *)

(** ** Trend *)

(** The strength returned by [calculate_trend] lies in [[0, 1]] for every
    window, so it always meets the bounds the [MarketContext] model puts on
    [trend_strength]. *)
Theorem trend_strength_in_unit_interval (ohlcv_data : list OHLCV) :
  0 <= snd (MarketAnalyzer.calculate_trend ohlcv_data) <= 1.
Proof.
  destruct (Nat.ltb_spec (List.length ohlcv_data) 2) as [Hshort|Hlong].
  - unfold MarketAnalyzer.calculate_trend.
    apply Nat.ltb_lt in Hshort. rewrite Hshort. cbn [snd]. lra.
  - rewrite (calculate_trend_long ohlcv_data Hlong). cbn [snd].
    apply clamp_bounds.
Qed.

Lemma sum_products_nonpos (x y : Q) (xs ys : list Q) :
  Forall (Qlt x) xs -> Forall (fun v => v < y) ys ->
  Py.sum (Py.zip_with (fun u v => (u - x) * (v - y)) xs ys) <= 0.
Proof.
  intro Hx. revert ys. induction Hx as [|u xs Hu Hxs IH]; intros ys Hy.
  - cbn. lra.
  - destruct Hy as [|v ys Hv Hys]; cbn [Py.zip_with Py.sum]; [lra|].
    specialize (IH ys Hys).
    assert (0 < (u - x) * (y - v)) by (apply Qmult_lt_0_compat; lra).
    setoid_replace ((u - x) * (v - y)) with (- ((u - x) * (y - v))) by ring.
    lra.
Qed.

Lemma sum_products_neg (x y u v : Q) (xs ys : list Q) :
  Forall (Qlt x) (u :: xs) -> Forall (fun w => w < y) (v :: ys) ->
  Py.sum (Py.zip_with (fun u v => (u - x) * (v - y)) (u :: xs) (v :: ys)) < 0.
Proof.
  intros Hx Hy. inversion Hx; subst. inversion Hy; subst.
  cbn [Py.zip_with Py.sum].
  assert (Py.sum (Py.zip_with (fun u v => (u - x) * (v - y)) xs ys) <= 0)
    by now apply sum_products_nonpos.
  assert (0 < (u - x) * (y - v)) by (apply Qmult_lt_0_compat; lra).
  setoid_replace ((u - x) * (v - y)) with (- ((u - x) * (y - v))) by ring.
  lra.
Qed.

Lemma covariance_nonpos (xs : list Q) :
  forall ys,
    List.length xs = List.length ys ->
    StronglySorted Qlt xs -> StronglySorted (fun a b => b < a) ys ->
    Py.len xs * Py.sum (Py.zip_with Qmult xs ys) - Py.sum xs * Py.sum ys <= 0.
Proof.
  induction xs as [|x xs IH]; intros [|y ys] Hlen Hxs Hys;
    try discriminate Hlen.
  - apply Qle_bool_iff. reflexivity.
  - injection Hlen as Hlen.
    inversion Hxs as [|? ? Hxs' Hx]; subst. inversion Hys as [|? ? Hys' Hy]; subst.
    rewrite covariance_step by assumption.
    specialize (IH ys Hlen Hxs' Hys').
    pose proof (sum_products_nonpos x y xs ys Hx Hy). lra.
Qed.

Lemma covariance_neg (xs ys : list Q) :
  List.length xs = List.length ys -> (2 <= List.length xs)%nat ->
  StronglySorted Qlt xs -> StronglySorted (fun a b => b < a) ys ->
  Py.len xs * Py.sum (Py.zip_with Qmult xs ys) - Py.sum xs * Py.sum ys < 0.
Proof.
  intros Hlen Htwo Hxs Hys.
  destruct xs as [|x [|u xs]]; try (cbn in Htwo; lia).
  destruct ys as [|y [|v ys]]; try discriminate.
  injection Hlen as Hlen.
  inversion Hxs as [|? ? Hxs' Hx]; subst. inversion Hys as [|? ? Hys' Hy]; subst.
  rewrite covariance_step by (cbn [List.length]; now f_equal).
  pose proof (covariance_nonpos (u :: xs) (v :: ys)
                ltac:(cbn [List.length]; now f_equal) Hxs' Hys').
  pose proof (sum_products_neg x y u v xs ys Hx Hy). lra.
Qed.

Lemma decreasing_slope_neg (closes : list Q) :
  (2 <= List.length closes)%nat -> Sorted (fun a b => b < a) closes ->
  fst (Np.polyfit1 (Np.arange (List.length closes)) closes) < 0.
Proof.
  intros Hlen Hdec.
  apply Sorted_StronglySorted in Hdec;
    [|intros a b c Hab Hbc; exact (Qlt_trans _ _ _ Hbc Hab)].
  unfold Np.polyfit1. cbn [fst].
  pose proof (index_variance_pos (List.length closes) Hlen) as Hd.
  assert (Hn : Py.len (Np.arange (List.length closes))
               * Py.sum (Py.zip_with Qmult (Np.arange (List.length closes)) closes)
               - Py.sum (Np.arange (List.length closes)) * Py.sum closes < 0).
  { unfold Np.arange. apply covariance_neg; try assumption.
    - apply arange_from_length.
    - now rewrite arange_from_length.
    - apply arange_from_increasing. }
  set (N := Py.len _ * Py.sum (Py.zip_with Qmult _ closes) - _) in *.
  set (D := Py.len _ * _ - _) in *.
  assert (Hinv : 0 < / D) by now apply Qinv_lt_0_compat.
  unfold Qdiv.
  setoid_replace (N * / D) with (- ((- N) * / D)) by ring.
  assert (0 < (- N) * / D) by (apply Qmult_lt_0_compat; lra).
  lra.
Qed.

(** X1. For at least two candles with strictly decreasing closes the fitted
    slope is negative and the trend is never bullish: it is bearish exactly
    when the mean close is positive and the slope is below -0.1% of it. *)
Theorem decreasing_closes_trend (ohlcv_data : list OHLCV) :
  (2 <= List.length ohlcv_data)%nat ->
  Sorted (fun a b => b < a) (map close ohlcv_data) ->
  TrendSpec.ols_slope (map close ohlcv_data) < 0 /\
  fst (MarketAnalyzer.calculate_trend ohlcv_data) <> Bullish /\
  (fst (MarketAnalyzer.calculate_trend ohlcv_data) = Bearish <->
   0 < TrendSpec.mean_close (map close ohlcv_data) /\
   TrendSpec.ols_slope (map close ohlcv_data)
   / TrendSpec.mean_close (map close ohlcv_data) < - (1 # 1000)).
Proof.
  intros Hlen Hdec.
  rewrite (calculate_trend_long ohlcv_data Hlen). cbn [fst].
  assert (Hclen : (2 <= List.length (map close ohlcv_data))%nat)
    by now rewrite length_map.
  set (closes := map close ohlcv_data) in *.
  rewrite (spec_slope closes Hclen), (spec_mean_close closes).
  pose proof (decreasing_slope_neg closes Hclen Hdec) as Hslope.
  set (slope := fst (Np.polyfit1 (Np.arange (List.length closes)) closes)) in *.
  set (m := Py.mean closes).
  split; [assumption|].
  assert (Hneg : 0 < m -> slope / m < 0).
  { intro Hm. unfold Qdiv.
    assert (0 < / m) by now apply Qinv_lt_0_compat.
    setoid_replace (slope * / m) with (- ((- slope) * / m)) by ring.
    assert (0 < (- slope) * / m) by (apply Qmult_lt_0_compat; lra).
    lra. }
  split.
  - case_ltb 0 m.
    + specialize (Hneg E).
      case_ltb (1 # 1000) (slope / m); [lra|].
      case_ltb (slope / m) (- (1 # 1000)); discriminate.
    + case_ltb (1 # 1000) 0; [lra|].
      case_ltb 0 (- (1 # 1000)); discriminate.
  - case_ltb 0 m.
    + specialize (Hneg E).
      case_ltb (1 # 1000) (slope / m); [lra|].
      case_ltb (slope / m) (- (1 # 1000)).
      * tauto.
      * split; [discriminate|intros [_ H]; lra].
    + case_ltb (1 # 1000) 0; [lra|].
      case_ltb 0 (- (1 # 1000)); [lra|].
      split; [discriminate|intros [H _]; lra].
Qed.

Lemma decreasing_closes_trend_witness :
  TrendSpec.ols_slope (map close (map flat_candle [4; 2; 1])) < 0 /\
  fst (MarketAnalyzer.calculate_trend (map flat_candle [4; 2; 1])) <> Bullish /\
  (fst (MarketAnalyzer.calculate_trend (map flat_candle [4; 2; 1])) = Bearish <->
   0 < TrendSpec.mean_close (map close (map flat_candle [4; 2; 1])) /\
   TrendSpec.ols_slope (map close (map flat_candle [4; 2; 1]))
   / TrendSpec.mean_close (map close (map flat_candle [4; 2; 1])) < - (1 # 1000)).
Proof.
  apply (decreasing_closes_trend (map flat_candle [4; 2; 1])).
  - simpl. lia.
  - repeat constructor.
Defined.

Lemma sum_all_equal (c : Q) (ys : list Q) :
  Forall (fun y => y == c) ys -> Py.sum ys == c * Py.len ys.
Proof.
  induction 1 as [|y ys Hy _ IH]; [unfold Py.len; cbn; ring|].
  cbn [Py.sum]. rewrite len_cons, IH, Hy. ring.
Qed.

Lemma sum_zip_all_equal (c : Q) (xs ys : list Q) :
  List.length xs = List.length ys -> Forall (fun y => y == c) ys ->
  Py.sum (Py.zip_with Qmult xs ys) == c * Py.sum xs.
Proof.
  intros Hlen Hc. revert xs Hlen.
  induction Hc as [|y ys Hy _ IH]; intros [|x xs] Hlen; try discriminate.
  - cbn. ring.
  - injection Hlen as Hlen. cbn [Py.zip_with Py.sum].
    rewrite (IH xs Hlen), Hy. ring.
Qed.

(** X2. A window of candles that all close at the same price has a neutral
    trend of strength 0. *)
Theorem flat_closes_neutral (ohlcv_data : list OHLCV) (c : Q) :
  Forall (fun candle => close candle == c) ohlcv_data ->
  MarketAnalyzer.calculate_trend ohlcv_data = (Neutral, 0).
Proof.
  intro Hflat.
  pose proof (trend_strength_never_positive ohlcv_data) as Hs.
  destruct (MarketAnalyzer.calculate_trend ohlcv_data) as [d s] eqn:Ht.
  cbn [snd] in Hs. subst s. f_equal.
  change d with (fst (d, 0)). rewrite <- Ht. clear Ht.
  destruct (Nat.ltb_spec (List.length ohlcv_data) 2) as [Hshort|Hlong].
  - unfold MarketAnalyzer.calculate_trend.
    apply Nat.ltb_lt in Hshort. now rewrite Hshort.
  - rewrite (calculate_trend_long ohlcv_data Hlong). cbn [fst].
    assert (Hc : Forall (fun y => y == c) (map close ohlcv_data)).
    { apply Forall_map. exact Hflat. }
    set (closes := map close ohlcv_data) in *.
    assert (Hslope : fst (Np.polyfit1 (Np.arange (List.length closes)) closes) == 0).
    { unfold Np.polyfit1. cbn [fst].
      rewrite (sum_zip_all_equal c _ closes)
        by (try apply arange_from_length; assumption).
      rewrite (sum_all_equal c closes Hc).
      replace (Py.len (Np.arange (List.length closes))) with (Py.len closes)
        by (symmetry; now apply len_arange).
      setoid_replace (Py.len closes * (c * Py.sum (Np.arange (List.length closes)))
                      - Py.sum (Np.arange (List.length closes)) * (c * Py.len closes))
        with 0 by ring.
      unfold Qdiv. apply Qmult_0_l. }
    set (slope := fst (Np.polyfit1 _ closes)) in *.
    assert (Hnorm : (if Py.ltb 0 (Py.mean closes) then slope / Py.mean closes else 0) == 0).
    { destruct (Py.ltb 0 (Py.mean closes)); [|reflexivity].
      rewrite Hslope. unfold Qdiv. apply Qmult_0_l. }
    set (ns := if Py.ltb 0 (Py.mean closes) then slope / Py.mean closes else 0) in *.
    case_ltb (1 # 1000) ns; [lra|].
    case_ltb ns (- (1 # 1000)); [lra|reflexivity].
Qed.

Lemma flat_closes_neutral_witness :
  MarketAnalyzer.calculate_trend (map flat_candle [100; 100; 100]) = (Neutral, 0).
Proof.
  apply (flat_closes_neutral (map flat_candle [100; 100; 100]) 100).
  repeat constructor; reflexivity.
Defined.

(** ** Volatility *)

Lemma max_ge_l (a b : Q) : a <= Py.max a b.
Proof. unfold Py.max. case_ltb a b; lra. Qed.

Lemma max_ge_r (a b : Q) : b <= Py.max a b.
Proof. unfold Py.max. case_ltb a b; lra. Qed.

Lemma sum_nonneg (l : list Q) : Forall (Qle 0) l -> 0 <= Py.sum l.
Proof.
  induction 1 as [|x l Hx _ IH]; cbn [Py.sum]; lra.
Qed.

Lemma sum_le (l1 l2 : list Q) : Forall2 Qle l1 l2 -> Py.sum l1 <= Py.sum l2.
Proof.
  induction 1 as [|x y l1 l2 Hxy _ IH]; cbn [Py.sum]; lra.
Qed.

Lemma mean_nonneg (l : list Q) : Forall (Qle 0) l -> 0 <= Py.mean l.
Proof.
  intro H. unfold Py.mean, Qdiv.
  apply Qmult_le_0_compat; [now apply sum_nonneg|].
  apply Qinv_le_0_compat, len_nonneg.
Qed.

Lemma mean_le (l1 l2 : list Q) : Forall2 Qle l1 l2 -> Py.mean l1 <= Py.mean l2.
Proof.
  intro H. unfold Py.mean, Py.len. rewrite (Forall2_length H).
  unfold Qdiv. apply Qmult_le_compat_r; [now apply sum_le|].
  apply Qinv_le_0_compat.
  change 0 with (inject_Z 0). rewrite <- Zle_Qle. lia.
Qed.

Lemma true_ranges_nonneg (rest : list OHLCV) :
  forall prev_close, Forall (Qle 0) (MarketAnalyzer.true_ranges prev_close rest).
Proof.
  induction rest as [|c rest IH]; intro pc; cbn [MarketAnalyzer.true_ranges];
    constructor; [|apply IH].
  unfold Py.max3.
  pose proof (Qabs_nonneg (low c - pc)).
  pose proof (max_ge_r (Py.max (high c - low c) (Qabs (high c - pc))) (Qabs (low c - pc))).
  lra.
Qed.

Lemma true_ranges_cover_ranges (rest : list OHLCV) :
  forall prev_close,
    Forall2 Qle (map (fun c => high c - low c) rest)
            (MarketAnalyzer.true_ranges prev_close rest).
Proof.
  induction rest as [|c rest IH]; intro pc;
    cbn [map MarketAnalyzer.true_ranges]; constructor; [|apply IH].
  unfold Py.max3.
  pose proof (max_ge_l (high c - low c) (Qabs (high c - pc))).
  pose proof (max_ge_l (Py.max (high c - low c) (Qabs (high c - pc))) (Qabs (low c - pc))).
  lra.
Qed.

(** The volatility is never negative, whatever the candles hold. *)
Theorem volatility_nonneg (ohlcv_data : list OHLCV) :
  0 <= MarketAnalyzer.calculate_volatility ohlcv_data.
Proof.
  unfold MarketAnalyzer.calculate_volatility.
  destruct (List.length ohlcv_data <? 2)%nat; [lra|].
  destruct ohlcv_data as [|c0 rest]; [lra|].
  pose proof (true_ranges_nonneg rest (close c0)) as H.
  destruct (MarketAnalyzer.true_ranges (close c0) rest) as [|tr trs]; [lra|].
  now apply mean_nonneg.
Qed.

(** X3. From two candles on, the volatility is at least the mean high-low range
    of the candles after the first. *)
Theorem volatility_covers_ranges (c0 c1 : OHLCV) (rest : list OHLCV) :
  Py.mean (map (fun c => high c - low c) (c1 :: rest))
  <= MarketAnalyzer.calculate_volatility (c0 :: c1 :: rest).
Proof.
  unfold MarketAnalyzer.calculate_volatility.
  cbn [List.length Nat.ltb Nat.leb].
  pose proof (true_ranges_cover_ranges (c1 :: rest) (close c0)) as H.
  destruct (MarketAnalyzer.true_ranges (close c0) (c1 :: rest)) as [|tr trs] eqn:E;
    [discriminate E|].
  now apply mean_le.
Qed.

Lemma true_ranges_gapless (rest : list OHLCV) :
  forall prev_close,
    gapless prev_close rest ->
    MarketAnalyzer.true_ranges prev_close rest = map (fun c => high c - low c) rest.
Proof.
  induction rest as [|c rest IH]; intros pc Hg; [reflexivity|].
  destruct Hg as [[Hlo Hhi] Hrest].
  cbn [MarketAnalyzer.true_ranges map]. rewrite (IH _ Hrest). f_equal.
  assert (H1 : Qabs (high c - pc) <= high c - low c)
    by (apply Qabs_Qle_condition; split; lra).
  assert (H2 : Qabs (low c - pc) <= high c - low c)
    by (apply Qabs_Qle_condition; split; lra).
  unfold Py.max3, Py.max.
  case_ltb (high c - low c) (Qabs (high c - pc)); [exfalso; lra|].
  case_ltb (high c - low c) (Qabs (low c - pc)); [exfalso; lra|reflexivity].
Qed.

(** X4. When every candle's range contains the close of the candle before,
    the true range is the bar range and the volatility is the mean
    high-low range of the candles after the first. *)
Theorem volatility_without_gaps (c0 c1 : OHLCV) (rest : list OHLCV) :
  gapless (close c0) (c1 :: rest) ->
  MarketAnalyzer.calculate_volatility (c0 :: c1 :: rest)
  = Py.mean (map (fun c => high c - low c) (c1 :: rest)).
Proof.
  intro Hg. unfold MarketAnalyzer.calculate_volatility.
  cbn [List.length Nat.ltb Nat.leb].
  rewrite (true_ranges_gapless _ _ Hg). reflexivity.
Qed.

Lemma volatility_without_gaps_witness :
  MarketAnalyzer.calculate_volatility
    [mkOHLCV 0 10 12 9 11 0; mkOHLCV 1 11 13 10 12 0; mkOHLCV 2 12 12 8 9 0]
  = Py.mean (map (fun c => high c - low c)
               [mkOHLCV 1 11 13 10 12 0; mkOHLCV 2 12 12 8 9 0]).
Proof.
  apply (volatility_without_gaps (mkOHLCV 0 10 12 9 11 0) (mkOHLCV 1 11 13 10 12 0)
           [mkOHLCV 2 12 12 8 9 0]).
  cbn. repeat split; vm_compute; discriminate.
Defined.

(** ** Swing points *)

(** A swing point excludes its right neighbour from being one, which the
    induction carries as the second bound. *)
Lemma swing_lows_bound (ohlcv_data : list OHLCV) :
  ohlcv_data <> [] ->
  (2 * List.length (MarketAnalyzer.swing_lows ohlcv_data) + 1
   <= List.length ohlcv_data)%nat /\
  (forall a b rest,
     ohlcv_data = a :: b :: rest -> Py.ltb (low b) (low a) = false ->
     (2 * List.length (MarketAnalyzer.swing_lows ohlcv_data) + 2
      <= List.length ohlcv_data)%nat).
Proof.
  induction ohlcv_data as [|a l IH]; intro Hne; [contradiction|].
  destruct l as [|b [|c r]].
  - split; [cbn; lia|]. intros ? ? ? [=].
  - split; [cbn; lia|]. intros ? ? ? [= <- <- <-] _. cbn. lia.
  - destruct IH as [IHa IHb]; [discriminate|].
    specialize (IHb b c r eq_refl).
    change (MarketAnalyzer.swing_lows (a :: b :: c :: r))
      with ((if Py.ltb (low b) (low a) && Py.ltb (low b) (low c)
             then [low b] else [])
            ++ MarketAnalyzer.swing_lows (b :: c :: r)).
    rewrite length_app.
    destruct (Py.ltb (low b) (low a)) eqn:Hba;
      destruct (Py.ltb (low b) (low c)) eqn:Hbc; cbn [andb List.length] in *.
    + assert (Hcb : Py.ltb (low c) (low b) = false).
      { apply ltb_ge. apply ltb_lt in Hbc. lra. }
      specialize (IHb Hcb). split; [lia|].
      intros ? ? ? [= <- <- <-] H. congruence.
    + split; [lia|]. intros ? ? ? [= <- <- <-] H. congruence.
    + split; [lia|]. intros; lia.
    + split; [lia|]. intros; lia.
Qed.

Lemma swing_highs_bound (ohlcv_data : list OHLCV) :
  ohlcv_data <> [] ->
  (2 * List.length (MarketAnalyzer.swing_highs ohlcv_data) + 1
   <= List.length ohlcv_data)%nat /\
  (forall a b rest,
     ohlcv_data = a :: b :: rest -> Py.ltb (high a) (high b) = false ->
     (2 * List.length (MarketAnalyzer.swing_highs ohlcv_data) + 2
      <= List.length ohlcv_data)%nat).
Proof.
  induction ohlcv_data as [|a l IH]; intro Hne; [contradiction|].
  destruct l as [|b [|c r]].
  - split; [cbn; lia|]. intros ? ? ? [=].
  - split; [cbn; lia|]. intros ? ? ? [= <- <- <-] _. cbn. lia.
  - destruct IH as [IHa IHb]; [discriminate|].
    specialize (IHb b c r eq_refl).
    change (MarketAnalyzer.swing_highs (a :: b :: c :: r))
      with ((if Py.ltb (high a) (high b) && Py.ltb (high c) (high b)
             then [high b] else [])
            ++ MarketAnalyzer.swing_highs (b :: c :: r)).
    rewrite length_app.
    destruct (Py.ltb (high a) (high b)) eqn:Hba;
      destruct (Py.ltb (high c) (high b)) eqn:Hbc; cbn [andb List.length] in *.
    + assert (Hcb : Py.ltb (high b) (high c) = false).
      { apply ltb_ge. apply ltb_lt in Hbc. lra. }
      specialize (IHb Hcb). split; [lia|].
      intros ? ? ? [= <- <- <-] H. congruence.
    + split; [lia|]. intros ? ? ? [= <- <- <-] H. congruence.
    + split; [lia|]. intros; lia.
    + split; [lia|]. intros; lia.
Qed.

(** Two neighbouring candles are never both swing points, so a window of
    [n] candles has at most [(n - 1) / 2] swing lows and as many swing
    highs. *)
Theorem swing_points_bound (ohlcv_data : list OHLCV) :
  (2 * List.length (MarketAnalyzer.swing_lows ohlcv_data) <= List.length ohlcv_data - 1)%nat /\
  (2 * List.length (MarketAnalyzer.swing_highs ohlcv_data) <= List.length ohlcv_data - 1)%nat.
Proof.
  destruct ohlcv_data as [|a l]; [split; cbn; lia|].
  destruct (swing_lows_bound (a :: l)) as [Hl _]; [discriminate|].
  destruct (swing_highs_bound (a :: l)) as [Hh _]; [discriminate|].
  split; lia.
Qed.

Lemma swing_lows_are_lows (ohlcv_data : list OHLCV) (v : Q) :
  In v (MarketAnalyzer.swing_lows ohlcv_data) -> In v (map low ohlcv_data).
Proof.
  induction ohlcv_data as [|a l IH]; [intros []|].
  destruct l as [|b [|c r]]; try (intros []).
  change (MarketAnalyzer.swing_lows (a :: b :: c :: r))
    with ((if Py.ltb (low b) (low a) && Py.ltb (low b) (low c)
           then [low b] else [])
          ++ MarketAnalyzer.swing_lows (b :: c :: r)).
  intro H. apply in_app_or in H. destruct H as [H|H].
  - destruct (_ && _); [|destruct H]. destruct H as [<-|[]].
    right. now left.
  - right. now apply IH.
Qed.

Lemma swing_highs_are_highs (ohlcv_data : list OHLCV) (v : Q) :
  In v (MarketAnalyzer.swing_highs ohlcv_data) -> In v (map high ohlcv_data).
Proof.
  induction ohlcv_data as [|a l IH]; [intros []|].
  destruct l as [|b [|c r]]; try (intros []).
  change (MarketAnalyzer.swing_highs (a :: b :: c :: r))
    with ((if Py.ltb (high a) (high b) && Py.ltb (high c) (high b)
           then [high b] else [])
          ++ MarketAnalyzer.swing_highs (b :: c :: r)).
  intro H. apply in_app_or in H. destruct H as [H|H].
  - destruct (_ && _); [|destruct H]. destruct H as [<-|[]].
    right. now left.
  - right. now apply IH.
Qed.

Lemma no_swing_lows_when_rising (ohlcv_data : list OHLCV) :
  Sorted Qle (map low ohlcv_data) -> MarketAnalyzer.swing_lows ohlcv_data = [].
Proof.
  induction ohlcv_data as [|a l IH]; intro H; [reflexivity|].
  destruct l as [|b [|c r]]; try reflexivity.
  change (MarketAnalyzer.swing_lows (a :: b :: c :: r))
    with ((if Py.ltb (low b) (low a) && Py.ltb (low b) (low c)
           then [low b] else [])
          ++ MarketAnalyzer.swing_lows (b :: c :: r)).
  cbn [map] in H. inversion H as [|? ? Hs Hhd]; subst.
  rewrite IH by exact Hs.
  inversion Hhd as [|? ? Hab]; subst.
  assert (E : Py.ltb (low b) (low a) = false) by now apply ltb_ge.
  now rewrite E.
Qed.

Lemma no_swing_highs_when_rising (ohlcv_data : list OHLCV) :
  Sorted Qle (map high ohlcv_data) -> MarketAnalyzer.swing_highs ohlcv_data = [].
Proof.
  induction ohlcv_data as [|a l IH]; intro H; [reflexivity|].
  destruct l as [|b [|c r]]; try reflexivity.
  change (MarketAnalyzer.swing_highs (a :: b :: c :: r))
    with ((if Py.ltb (high a) (high b) && Py.ltb (high c) (high b)
           then [high b] else [])
          ++ MarketAnalyzer.swing_highs (b :: c :: r)).
  cbn [map] in H. inversion H as [|? ? Hs Hhd]; subst.
  rewrite IH by exact Hs.
  inversion Hs as [|? ? Hs' Hhd']; subst.
  inversion Hhd' as [|? ? Hbc]; subst.
  assert (E : Py.ltb (high c) (high b) = false) by now apply ltb_ge.
  rewrite E, andb_false_r. reflexivity.
Qed.

(** X5. In a window whose lows and highs never fall from one candle to the
    next, no candle is a local extremum: the function raises nothing and
    reports neither support nor resistance, whatever [num_levels]. *)
Theorem rising_window_has_no_levels (ohlcv_data : list OHLCV) (num_levels : Z) :
  Sorted Qle (map low ohlcv_data) -> Sorted Qle (map high ohlcv_data) ->
  MarketAnalyzer.find_support_resistance ohlcv_data num_levels = Py.Ok ([], []).
Proof.
  intros Hl Hh. unfold MarketAnalyzer.find_support_resistance.
  rewrite (no_swing_lows_when_rising _ Hl), (no_swing_highs_when_rising _ Hh).
  destruct (List.length ohlcv_data <? 3)%nat; reflexivity.
Qed.

Lemma rising_window_has_no_levels_witness :
  MarketAnalyzer.find_support_resistance
    [mkOHLCV 0 10 12 9 11 0; mkOHLCV 1 11 13 10 12 0;
     mkOHLCV 2 12 14 11 13 0; mkOHLCV 3 13 15 12 14 0] 3
  = Py.Ok ([], []).
Proof.
  apply rising_window_has_no_levels; repeat constructor; vm_compute; discriminate.
Defined.

(** ** Clustering: errors and shape of the result *)

Lemma last_member_snoc (current : list Q) (level : Q) :
  MarketAnalyzer.last_member (current ++ [level]) = level.
Proof. unfold MarketAnalyzer.last_member. apply last_last. Qed.

(** The loop divides by each element that has a successor, and by no
    other. *)
Lemma cluster_loop_raises (rest : list Q) :
  forall clusters current,
    MarketAnalyzer.cluster_loop rest (clusters, current)
    = Py.Raise Py.ZeroDivisionError
    <-> Exists (fun z => z == 0)
          (removelast (MarketAnalyzer.last_member current :: rest)).
Proof.
  induction rest as [|level rest IH]; intros clusters current.
  - cbn. split; [discriminate|]. intro H. inversion H.
  - cbn [MarketAnalyzer.cluster_loop].
    change (removelast (MarketAnalyzer.last_member current :: level :: rest))
      with (MarketAnalyzer.last_member current :: removelast (level :: rest)).
    rewrite Exists_cons.
    unfold Py.div.
    case_eqb (MarketAnalyzer.last_member current) 0; cbn [Py.bind].
    + split; [now left|reflexivity].
    + destruct (Py.ltb _ _).
      * rewrite IH, last_member_snoc. tauto.
      * rewrite IH. change (MarketAnalyzer.last_member [level]) with level. tauto.
Qed.

Lemma cluster_levels_raises_fact (levels : list Q) (num_clusters : Z) :
  MarketAnalyzer._cluster_levels levels num_clusters = Py.Raise Py.ZeroDivisionError
  <-> (num_clusters < Z.of_nat (List.length levels))%Z /\
      Exists (fun z => z == 0) (removelast (Py.sorted levels)).
Proof.
  pose proof (sorted_length levels) as Hlen.
  unfold MarketAnalyzer._cluster_levels.
  destruct levels as [|a levels].
  - cbn. split; [discriminate|]. intros [_ H]. inversion H.
  - remember (Py.sorted (a :: levels)) as s eqn:Hs. rewrite Hlen.
    destruct (Z.leb_spec (Z.of_nat (List.length (a :: levels))) num_clusters) as [Hle|Hgt].
    + split; [discriminate|]. intros [H _]. lia.
    + destruct s as [|first rest]; [discriminate|].
      pose proof (cluster_loop_raises rest [] [first]) as Hloop.
      change (MarketAnalyzer.last_member [first]) with first in Hloop.
      rewrite <- Hloop.
      destruct (MarketAnalyzer.cluster_loop rest ([], [first])) as [[cl cur]|[]];
        cbn [Py.bind].
      * split; [discriminate|]. intros [_ H]. discriminate H.
      * split; [intros _; split; [assumption|reflexivity]|reflexivity].
Qed.

(** X6. [_cluster_levels] raises exactly when it has to cluster (more levels
    than [num_clusters]) and a level equal to zero has a successor in the
    sorted list; in every other case it returns a list. *)
Theorem cluster_levels_raises (levels : list Q) (num_clusters : Z) :
  MarketAnalyzer._cluster_levels levels num_clusters = Py.Raise Py.ZeroDivisionError
  <-> (num_clusters < Z.of_nat (List.length levels))%Z /\
      Exists (fun z => z == 0) (removelast (Py.sorted levels)).
Proof. exact (cluster_levels_raises_fact levels num_clusters). Qed.

Lemma cluster_loop_groups (rest : list Q) :
  forall clusters current cl cur,
    current <> [] ->
    MarketAnalyzer.cluster_loop rest (clusters, current) = Py.Ok (cl, cur) ->
    cur <> [] /\
    exists groups,
      Forall (fun g => g <> []) groups /\
      List.concat groups = current ++ rest /\
      cl ++ [Py.mean cur] = clusters ++ map Py.mean groups.
Proof.
  induction rest as [|level rest IH]; intros clusters current cl cur Hne H.
  - cbn in H. injection H as <- <-. split; [assumption|].
    exists [current]. cbn. rewrite !app_nil_r. repeat split.
    now constructor.
  - cbn [MarketAnalyzer.cluster_loop] in H.
    destruct (Py.div _ _) as [r|e]; [|discriminate]. cbn [Py.bind] in H.
    destruct (Py.ltb r (1 # 100)).
    + apply IH in H; [|now destruct current].
      destruct H as (Hcur & groups & Hg & Hcat & Hm).
      split; [assumption|]. exists groups.
      rewrite <- app_assoc in Hcat. auto.
    + apply IH in H; [|discriminate].
      destruct H as (Hcur & groups & Hg & Hcat & Hm).
      split; [assumption|]. exists (current :: groups).
      repeat split.
      * now constructor.
      * cbn [List.concat]. now rewrite Hcat.
      * rewrite Hm, <- app_assoc. reflexivity.
Qed.

Lemma sum_within (lo hi : Q) (g : list Q) :
  Forall (fun v => lo <= v <= hi) g ->
  lo * Py.len g <= Py.sum g <= hi * Py.len g.
Proof.
  induction 1 as [|v g [Hlo Hhi] _ IH].
  - unfold Py.len. cbn. split; ring_simplify; apply Qle_refl.
  - cbn [Py.sum]. rewrite len_cons. split; lra.
Qed.

Lemma mean_within (lo hi : Q) (g : list Q) :
  g <> [] -> Forall (fun v => lo <= v <= hi) g -> lo <= Py.mean g <= hi.
Proof.
  intros Hne Hg. pose proof (len_pos g Hne) as Hn.
  destruct (sum_within lo hi g Hg) as [Hlo Hhi].
  unfold Py.mean. split.
  - apply Qle_shift_div_l; assumption.
  - apply Qle_shift_div_r; assumption.
Qed.

Lemma means_within (lo hi : Q) (groups : list (list Q)) :
  Forall (fun g => g <> []) groups ->
  Forall (fun v => lo <= v <= hi) (List.concat groups) ->
  Forall (fun v => lo <= v <= hi) (map Py.mean groups).
Proof.
  induction 1 as [|g groups Hg _ IH]; intro H; cbn [map]; [constructor|].
  cbn [List.concat] in H. apply Forall_app in H. destruct H as [H1 H2].
  constructor; [now apply mean_within|now apply IH].
Qed.

Lemma concat_length_ge (groups : list (list Q)) :
  Forall (fun g => g <> []) groups ->
  (List.length groups <= List.length (List.concat groups))%nat.
Proof.
  induction 1 as [|g groups Hg _ IH]; cbn [List.concat List.length]; [lia|].
  rewrite length_app. destruct g; [contradiction|]. cbn [List.length]. lia.
Qed.

Lemma slice_to_prefix {A} (l : list A) (k : Z) :
  exists n, Py.slice_to l k = firstn n l /\ ((0 <= k)%Z -> n = Z.to_nat k).
Proof.
  unfold Py.slice_to. destruct (Z.ltb_spec k 0).
  - eexists. split; [reflexivity|lia].
  - eexists. split; [reflexivity|reflexivity].
Qed.

Lemma firstn_ascending (n : nat) (l : list Q) :
  Sorted Qle l -> Sorted Qle (firstn n l).
Proof.
  intro H. revert n. induction H as [|y l Hs IH Hhd]; intro n.
  - rewrite firstn_nil. constructor.
  - destruct n as [|n]; cbn [firstn]; [constructor|].
    constructor; [apply IH|].
    destruct Hhd as [|z l Hyz]; destruct n; cbn [firstn]; now constructor.
Qed.

Lemma firstn_within {A} (P : A -> Prop) (n : nat) (l : list A) :
  Forall P l -> Forall P (firstn n l).
Proof.
  intro H. rewrite <- (firstn_skipn n l) in H.
  apply Forall_app in H. tauto.
Qed.

Lemma cluster_levels_shape_fact (levels : list Q) (num_clusters : Z) (result : list Q) :
  MarketAnalyzer._cluster_levels levels num_clusters = Py.Ok result ->
  Sorted Qle result /\
  (List.length result <= List.length levels)%nat /\
  ((0 <= num_clusters)%Z -> (Z.of_nat (List.length result) <= num_clusters)%Z) /\
  (forall lo hi,
     Forall (fun v => lo <= v <= hi) levels ->
     Forall (fun v => lo <= v <= hi) result).
Proof.
  pose proof (sorted_length levels) as Hlen.
  pose proof (sorted_perm levels) as Hperm.
  pose proof (sorted_ascending levels) as Hasc.
  unfold MarketAnalyzer._cluster_levels.
  destruct levels as [|a levels].
  - intros [= <-]. repeat split; try constructor; cbn; lia.
  - remember (Py.sorted (a :: levels)) as s eqn:Hs. rewrite Hlen.
    destruct (Z.leb_spec (Z.of_nat (List.length (a :: levels))) num_clusters) as [Hle|Hgt].
    + intros [= <-]. repeat split; try assumption; try lia.
      intros lo hi H. rewrite Forall_forall in *. intros v Hv.
      apply H. apply (Permutation_in _ Hperm Hv).
    + destruct s as [|first rest]; [discriminate|].
      destruct (MarketAnalyzer.cluster_loop rest ([], [first])) as [[cl cur]|e] eqn:Hloop;
        cbn [Py.bind]; [|discriminate].
      apply cluster_loop_groups in Hloop; [|discriminate].
      destruct Hloop as (Hcur & groups & Hg & Hcat & Hm).
      replace (match cur with [] => cl | _ :: _ => cl ++ [Py.mean cur] end)
        with (map Py.mean groups)
        by (rewrite <- (app_nil_l (map Py.mean groups)), <- Hm; now destruct cur).
      destruct (slice_to_prefix (Py.sorted (map Py.mean groups)) num_clusters)
        as (n & -> & Hn).
      intros [= <-].
      pose proof (concat_length_ge groups Hg) as Hcount.
      rewrite Hcat in Hcount. cbn [app] in Hcount. rewrite Hlen in Hcount.
      repeat split.
      * apply firstn_ascending, sorted_ascending.
      * rewrite length_firstn, sorted_length, length_map. lia.
      * intro Hk. rewrite length_firstn, (Hn Hk). lia.
      * intros lo hi H. apply firstn_within.
        assert (Hmeans : Forall (fun v => lo <= v <= hi) (map Py.mean groups)).
        { apply means_within; [assumption|]. rewrite Hcat. cbn [app].
          rewrite Forall_forall in *. intros v Hv.
          apply H. apply (Permutation_in _ Hperm Hv). }
        rewrite Forall_forall in *. intros v Hv. apply Hmeans.
        apply (Permutation_in _ (sorted_perm _) Hv).
Qed.

(** X7. Whatever [_cluster_levels] returns is ascending, has no more levels
    than it was given nor, for [num_clusters >= 0], than [num_clusters], and
    stays within any bounds that hold for the levels it was given. *)
Theorem cluster_levels_shape (levels : list Q) (num_clusters : Z) (result : list Q) :
  MarketAnalyzer._cluster_levels levels num_clusters = Py.Ok result ->
  Sorted Qle result /\
  (List.length result <= List.length levels)%nat /\
  ((0 <= num_clusters)%Z -> (Z.of_nat (List.length result) <= num_clusters)%Z) /\
  (forall lo hi,
     Forall (fun v => lo <= v <= hi) levels ->
     Forall (fun v => lo <= v <= hi) result).
Proof. exact (cluster_levels_shape_fact levels num_clusters result). Qed.

Lemma cluster_levels_shape_witness :
  exists result,
    MarketAnalyzer._cluster_levels [200; 100; 101 # 1; 1005 # 10; 103] 2
    = Py.Ok result /\
    Sorted Qle result /\ (Z.of_nat (List.length result) <= 2)%Z.
Proof.
  exists [(3015 # 30); 103].
  assert (H : MarketAnalyzer._cluster_levels [200; 100; 101 # 1; 1005 # 10; 103] 2
              = Py.Ok [(3015 # 30); 103]) by (vm_compute; reflexivity).
  split; [exact H|].
  destruct (cluster_levels_shape _ _ _ H) as (Hs & _ & Hk & _).
  split; [exact Hs|apply Hk; lia].
Defined.

(** ** Support and resistance, and the market context *)

Lemma cluster_levels_total (levels : list Q) (num_clusters : Z) :
  Forall (fun v => ~ v == 0) levels ->
  exists result, MarketAnalyzer._cluster_levels levels num_clusters = Py.Ok result.
Proof.
  intro Hnz.
  destruct (MarketAnalyzer._cluster_levels levels num_clusters) as [r|[]] eqn:E;
    [now exists r|].
  apply cluster_levels_raises_fact in E. destruct E as [_ E].
  apply Exists_exists in E. destruct E as (z & Hin & Hz).
  exfalso. rewrite Forall_forall in Hnz. apply (Hnz z); [|assumption].
  apply (Permutation_in _ (sorted_perm levels)).
  destruct (Py.sorted levels) as [|x l]; [destruct Hin|].
  rewrite (app_removelast_last 0 (l := x :: l)) by discriminate.
  apply in_or_app. now left.
Qed.

Lemma find_support_resistance_shape_fact
    (ohlcv_data : list OHLCV) (num_levels : Z) (supports resistances : list Q) :
  MarketAnalyzer.find_support_resistance ohlcv_data num_levels
  = Py.Ok (supports, resistances) ->
  Sorted Qle supports /\ Sorted Qle resistances /\
  ((0 <= num_levels)%Z ->
   (Z.of_nat (List.length supports) <= num_levels)%Z /\
   (Z.of_nat (List.length resistances) <= num_levels)%Z) /\
  (2 * List.length supports <= List.length ohlcv_data - 1)%nat /\
  (2 * List.length resistances <= List.length ohlcv_data - 1)%nat /\
  (forall lo hi,
     Forall (fun c => lo <= low c <= hi) ohlcv_data ->
     Forall (fun v => lo <= v <= hi) supports) /\
  (forall lo hi,
     Forall (fun c => lo <= high c <= hi) ohlcv_data ->
     Forall (fun v => lo <= v <= hi) resistances).
Proof.
  unfold MarketAnalyzer.find_support_resistance.
  destruct (List.length ohlcv_data <? 3)%nat.
  - intros [= <- <-]. repeat split; try constructor; cbn; lia.
  - destruct (MarketAnalyzer._cluster_levels (MarketAnalyzer.swing_lows ohlcv_data) num_levels)
      as [s|e] eqn:Hs; cbn [Py.bind]; [|discriminate].
    destruct (MarketAnalyzer._cluster_levels (MarketAnalyzer.swing_highs ohlcv_data) num_levels)
      as [r|e] eqn:Hr; cbn [Py.bind]; [|discriminate].
    intros [= <- <-].
    destruct (cluster_levels_shape_fact _ _ _ Hs) as (Hs1 & Hs2 & Hs3 & Hs4).
    destruct (cluster_levels_shape_fact _ _ _ Hr) as (Hr1 & Hr2 & Hr3 & Hr4).
    destruct (swing_points_bound ohlcv_data) as [Hbl Hbh].
    repeat split; try assumption; try lia; try (now apply Hs3); try (now apply Hr3).
    + intros lo hi H. apply Hs4. apply Forall_forall. intros v Hv.
      apply swing_lows_are_lows, in_map_iff in Hv. destruct Hv as (c & <- & Hc).
      rewrite Forall_forall in H. now apply H.
    + intros lo hi H. apply Hr4. apply Forall_forall. intros v Hv.
      apply swing_highs_are_highs, in_map_iff in Hv. destruct Hv as (c & <- & Hc).
      rewrite Forall_forall in H. now apply H.
Qed.

(** X8. Whatever [find_support_resistance] returns: both lists are ascending,
    hold at most [num_levels] levels (for [num_levels >= 0]) and at most
    [(n - 1) / 2] for [n] candles, and every support (resistance) lies
    within any bounds that hold for the lows (highs) of the window. *)
Theorem find_support_resistance_shape
    (ohlcv_data : list OHLCV) (num_levels : Z) (supports resistances : list Q) :
  MarketAnalyzer.find_support_resistance ohlcv_data num_levels
  = Py.Ok (supports, resistances) ->
  Sorted Qle supports /\ Sorted Qle resistances /\
  ((0 <= num_levels)%Z ->
   (Z.of_nat (List.length supports) <= num_levels)%Z /\
   (Z.of_nat (List.length resistances) <= num_levels)%Z) /\
  (2 * List.length supports <= List.length ohlcv_data - 1)%nat /\
  (2 * List.length resistances <= List.length ohlcv_data - 1)%nat /\
  (forall lo hi,
     Forall (fun c => lo <= low c <= hi) ohlcv_data ->
     Forall (fun v => lo <= v <= hi) supports) /\
  (forall lo hi,
     Forall (fun c => lo <= high c <= hi) ohlcv_data ->
     Forall (fun v => lo <= v <= hi) resistances).
Proof. exact (find_support_resistance_shape_fact ohlcv_data num_levels supports resistances). Qed.

Lemma find_support_resistance_shape_witness :
  Sorted Qle [5] /\ Sorted Qle [] /\
  ((0 <= 3)%Z ->
   (Z.of_nat (List.length [5]) <= 3)%Z /\ (Z.of_nat (@List.length Q []) <= 3)%Z).
Proof.
  destruct (find_support_resistance_shape (map flat_candle [10; 5; 10]) 3 [5] [])
    as (H1 & H2 & H3 & _); [reflexivity|].
  auto.
Defined.

(** X9. With no low and no high equal to zero, [find_support_resistance] and
    [analyze_market_context] return a value for every window. *)
Theorem analysis_total_on_nonzero_prices
    (symbol : string) (ohlcv_data : list OHLCV) (start_date end_date : Z) :
  Forall (fun c => ~ low c == 0 /\ ~ high c == 0) ohlcv_data ->
  exists context,
    MarketAnalyzer.analyze_market_context symbol ohlcv_data start_date end_date
    = Py.Ok context.
Proof.
  intro Hnz.
  assert (Hlows : Forall (fun v => ~ v == 0) (MarketAnalyzer.swing_lows ohlcv_data)).
  { apply Forall_forall. intros v Hv.
    apply swing_lows_are_lows, in_map_iff in Hv. destruct Hv as (c & <- & Hc).
    rewrite Forall_forall in Hnz. now apply Hnz. }
  assert (Hhighs : Forall (fun v => ~ v == 0) (MarketAnalyzer.swing_highs ohlcv_data)).
  { apply Forall_forall. intros v Hv.
    apply swing_highs_are_highs, in_map_iff in Hv. destruct Hv as (c & <- & Hc).
    rewrite Forall_forall in Hnz. now apply Hnz. }
  destruct (cluster_levels_total _ 3 Hlows) as (s & Hs).
  destruct (cluster_levels_total _ 3 Hhighs) as (r & Hr).
  unfold MarketAnalyzer.analyze_market_context, MarketAnalyzer.find_support_resistance.
  destruct (MarketAnalyzer.calculate_trend ohlcv_data) as [d st].
  destruct (List.length ohlcv_data <? 3)%nat; cbn [Py.bind].
  - eexists. reflexivity.
  - rewrite Hs. cbn [Py.bind]. rewrite Hr. cbn [Py.bind]. eexists. reflexivity.
Qed.

Lemma analysis_total_on_nonzero_prices_witness :
  exists context,
    MarketAnalyzer.analyze_market_context "AAPL" (map flat_candle [10; 5; 10]) 0 2
    = Py.Ok context.
Proof.
  apply analysis_total_on_nonzero_prices.
  repeat constructor; vm_compute; discriminate.
Defined.

(** X10. Every context [analyze_market_context] returns carries the symbol and
    period it was given and the trend and volatility of the window; its
    trend strength lies in [[0, 1]], its volatility is not negative, its
    support and resistance lists are ascending with at most three levels,
    and its average volume is not negative when no volume is. *)
Theorem market_context_well_formed
    (symbol : string) (ohlcv_data : list OHLCV) (period_start period_end : Z)
    (context : MarketContext) :
  MarketAnalyzer.analyze_market_context symbol ohlcv_data period_start period_end
  = Py.Ok context ->
  ctx_symbol context = symbol /\
  start_date context = period_start /\ end_date context = period_end /\
  (trend context, trend_strength context) = MarketAnalyzer.calculate_trend ohlcv_data /\
  0 <= trend_strength context <= 1 /\
  volatility context = MarketAnalyzer.calculate_volatility ohlcv_data /\
  0 <= volatility context /\
  Sorted Qle (support_levels context) /\ Sorted Qle (resistance_levels context) /\
  (List.length (support_levels context) <= 3)%nat /\
  (List.length (resistance_levels context) <= 3)%nat /\
  (Forall (fun c => 0 <= volume c) ohlcv_data -> 0 <= average_volume context).
Proof.
  unfold MarketAnalyzer.analyze_market_context.
  pose proof (trend_strength_in_unit_interval ohlcv_data) as Hst.
  pose proof (volatility_nonneg ohlcv_data) as Hvol.
  destruct (MarketAnalyzer.calculate_trend ohlcv_data) as [d st].
  destruct (MarketAnalyzer.find_support_resistance ohlcv_data 3) as [[s r]|e] eqn:Hsr;
    cbn [Py.bind]; [|discriminate].
  intros [= <-]. cbn.
  destruct (find_support_resistance_shape_fact _ _ _ _ Hsr) as (Hs & Hr & Hn & _).
  destruct Hn as [Hns Hnr]; [lia|].
  repeat split; try assumption; try lia; try (apply Hst).
  intro Hv.
  destruct (map volume ohlcv_data) as [|v vs] eqn:E; [lra|].
  rewrite <- E. apply mean_nonneg. apply Forall_map. exact Hv.
Qed.

Lemma market_context_well_formed_witness :
  exists context,
    MarketAnalyzer.analyze_market_context "AAPL" (map flat_candle [10; 5; 10]) 0 1
    = Py.Ok context /\
    0 <= trend_strength context <= 1.
Proof.
  eexists. split; [reflexivity|].
  destruct (market_context_well_formed "AAPL" (map flat_candle [10; 5; 10]) 0 1 _ eq_refl)
    as (_ & _ & _ & _ & H & _).
  exact H.
Defined.

(** ** Trade evaluation: decision tables *)

Lemma within_one_percent (entry level : Q) :
  0 < level ->
  (Qabs (entry - level) / level < 1 # 100
   <-> Qabs (entry - level) < level * (1 # 100)).
Proof.
  intro Hpos. split; intro H.
  - apply (Qmult_lt_compat_r _ _ level) in H; [|assumption].
    setoid_replace (Qabs (entry - level) / level * level)
      with (Qabs (entry - level)) in H by (field; lra).
    rewrite (Qmult_comm (1 # 100)) in H. exact H.
  - apply Qlt_shift_div_r; [assumption|]. now rewrite Qmult_comm.
Qed.

(** On positive levels the proximity check returns, and it holds exactly
    when some level is less than 1% of itself away from the entry. *)
Lemma any_near_positive (entry : Q) (levels : list Q) :
  Forall (Qlt 0) levels ->
  exists near,
    TradeEvaluator.any_near entry levels = Py.Ok near /\
    (near = true <->
     exists level, In level levels /\ Qabs (entry - level) < level * (1 # 100)).
Proof.
  induction 1 as [|level rest Hl _ IH]; cbn [TradeEvaluator.any_near].
  - exists false. split; [reflexivity|].
    split; [discriminate|intros (l & [] & _)].
  - rewrite div_ok by lra. cbn [Py.bind].
    case_ltb (Qabs (entry - level) / level) (1 # 100).
    + exists true. split; [reflexivity|]. split; [|reflexivity].
      intros _. exists level. split; [now left|].
      now apply within_one_percent.
    + destruct IH as (near & Hn & Hiff). exists near. split; [assumption|].
      rewrite Hiff. split.
      * intros (l & Hin & Hl'). exists l. split; [now right|assumption].
      * intros (l & [<-|Hin] & Hl'); [|now exists l].
        exfalso. apply within_one_percent in Hl'; [|assumption]. lra.
Qed.

(** The levels [evaluate_entry_quality] looks at: supports for a buy,
    resistances for a sell. *)
Lemma entry_quality_table_fact (trade : Trade) (ctx : MarketContext) (near : bool) :
  match side trade with
  | Buy => TradeEvaluator.any_near (entry_price trade) (support_levels ctx)
  | Sell => TradeEvaluator.any_near (entry_price trade) (resistance_levels ctx)
  end = Py.Ok near ->
  exists q,
    TradeEvaluator.evaluate_entry_quality trade ctx = Py.Ok q /\
    (q = Good <-> TradeEvaluator.check_trend_alignment trade ctx = true /\ near = true) /\
    (q = Poor <-> TradeEvaluator.check_trend_alignment trade ctx = false /\ near = false).
Proof.
  intro H. unfold TradeEvaluator.evaluate_entry_quality, TradeEvaluator.check_trend_alignment.
  rewrite H. cbn [Py.bind].
  destruct (trend ctx), (side trade), near; cbn;
    eexists; (split; [reflexivity|]); split; split;
    try discriminate; try tauto; intros [? ?]; discriminate.
Qed.

(** X11. Against positive levels, [evaluate_entry_quality] returns a tier: good
    exactly when the trade is aligned with the trend (or the trend is
    neutral) and the entry is within 1% of a support (buy) or resistance
    (sell) level, poor exactly when it is counter-trend and not within 1% of
    such a level, and acceptable otherwise. *)
Theorem entry_quality_table (trade : Trade) (ctx : MarketContext) :
  let levels := match side trade with
                | Buy => support_levels ctx
                | Sell => resistance_levels ctx
                end in
  let near := exists level, In level levels /\
                Qabs (entry_price trade - level) < level * (1 # 100) in
  Forall (Qlt 0) levels ->
  exists q,
    TradeEvaluator.evaluate_entry_quality trade ctx = Py.Ok q /\
    (q = Good <-> TradeEvaluator.check_trend_alignment trade ctx = true /\ near) /\
    (q = Poor <-> TradeEvaluator.check_trend_alignment trade ctx = false /\ ~ near).
Proof.
  intros levels near Hpos.
  destruct (any_near_positive (entry_price trade) levels Hpos) as (b & Hb & Hiff).
  fold near in Hiff.
  destruct (entry_quality_table_fact trade ctx b) as (q & Hq & Hg & Hp).
  { subst levels. now destruct (side trade). }
  exists q. split; [assumption|]. rewrite Hg, Hp.
  assert (Hnot : b = false <-> ~ near).
  { rewrite <- Hiff. destruct b; split; try discriminate; try reflexivity; tauto. }
  tauto.
Qed.

Lemma entry_quality_table_witness :
  exists q,
    TradeEvaluator.evaluate_entry_quality
      (buy_trade 100 None None) (flat_context [(1005 # 10); 95] [110]) = Py.Ok q /\
    q = Good.
Proof.
  destruct (entry_quality_table (buy_trade 100 None None)
              (flat_context [(1005 # 10); 95] [110])) as (q & Hq & Hg & _).
  - repeat constructor.
  - exists q. split; [assumption|]. apply Hg. split; [reflexivity|].
    exists (1005 # 10). split; [now left|]. vm_compute. reflexivity.
Defined.

(** The signed return [evaluate_exit_quality] scores. *)
Lemma exit_quality_outcome_fact (trade : Trade) (ctx : MarketContext) :
  (exit_price trade = None ->
   TradeEvaluator.evaluate_exit_quality trade ctx = Py.Ok None) /\
  (forall exit, exit_price trade = Some exit -> entry_price trade == 0 ->
     TradeEvaluator.evaluate_exit_quality trade ctx = Py.Raise Py.ZeroDivisionError) /\
  (forall exit, exit_price trade = Some exit -> ~ entry_price trade == 0 ->
     exists q, TradeEvaluator.evaluate_exit_quality trade ctx = Py.Ok (Some q)).
Proof.
  unfold TradeEvaluator.evaluate_exit_quality. repeat split.
  - now intros ->.
  - intros exit -> Hz. unfold Py.div. apply eqb_eq in Hz. rewrite Hz.
    now destruct (side trade).
  - intros exit -> Hnz.
    assert (Hd : forall a, Py.div a (entry_price trade) = Py.Ok (a / entry_price trade))
      by (intro a; now apply div_ok).
    rewrite !Hd. destruct (side trade); cbn [Py.bind];
      repeat match goal with |- context [if ?c then _ else _] => destruct c end;
      eexists; reflexivity.
Qed.

(** [evaluate_exit_quality] returns nothing for an open trade, raises
    [ZeroDivisionError] for a closed trade entered at price 0, and returns
    a tier for every other closed trade. *)
Theorem exit_quality_outcome (trade : Trade) (ctx : MarketContext) :
  (exit_price trade = None ->
   TradeEvaluator.evaluate_exit_quality trade ctx = Py.Ok None) /\
  (forall exit, exit_price trade = Some exit -> entry_price trade == 0 ->
     TradeEvaluator.evaluate_exit_quality trade ctx = Py.Raise Py.ZeroDivisionError) /\
  (forall exit, exit_price trade = Some exit -> ~ entry_price trade == 0 ->
     exists q, TradeEvaluator.evaluate_exit_quality trade ctx = Py.Ok (Some q)).
Proof. exact (exit_quality_outcome_fact trade ctx). Qed.

Lemma exit_quality_outcome_witness :
  TradeEvaluator.evaluate_exit_quality (exited_trade None None) (flat_context [] [])
  = Py.Ok None /\
  exists q,
    TradeEvaluator.evaluate_exit_quality
      (exited_trade (Some 110) (Some 10)) (flat_context [] []) = Py.Ok (Some q).
Proof.
  split.
  - apply (exit_quality_outcome (exited_trade None None)). reflexivity.
  - apply (exit_quality_outcome (exited_trade (Some 110) (Some 10)) _) with (exit := 110).
    + reflexivity.
    + vm_compute. discriminate.
Defined.

Lemma leb_le (a b : Q) : Py.leb a b = true <-> a <= b.
Proof. apply Qle_bool_iff. Qed.

Lemma leb_gt (a b : Q) : Py.leb a b = false <-> b < a.
Proof.
  unfold Py.leb. split; intro H.
  - apply Qnot_le_lt. intro Hle. apply Qle_bool_iff in Hle. congruence.
  - destruct (Qle_bool a b) eqn:E; [|reflexivity].
    apply Qle_bool_iff in E. exfalso. apply (Qlt_not_le _ _ H E).
Qed.

(** Settles one row of the exit table: the tier is known, the signed
    return is bounded by the comparisons met on the way. *)
Ltac exit_row :=
  let H := fresh "H" in
  let H1 := fresh "H" in
  let H2 := fresh "H" in
  split; (split; intro H;
    [ try discriminate H;
      first [ left; split; [lra|reflexivity]
            | right; split; [lra|reflexivity] ]
    | try reflexivity;
      destruct H as [[H1 H2]|[H1 H2]]; try discriminate H2; exfalso; lra ]).

Lemma exit_quality_table_fact (trade : Trade) (ctx : MarketContext) (exit : Q) (q : Quality) :
  let ret := match side trade with
             | Buy => (exit - entry_price trade) / entry_price trade
             | Sell => (entry_price trade - exit) / entry_price trade
             end in
  let sl := is_some (stop_loss trade) in
  let tp := is_some (take_profit trade) in
  exit_price trade = Some exit ->
  ~ entry_price trade == 0 ->
  TradeEvaluator.evaluate_exit_quality trade ctx = Py.Ok (Some q) ->
  (q = Good <-> (2 # 100 < ret /\ sl || tp = true) \/ (0 < ret /\ sl && tp = true)) /\
  (q = Poor <-> (ret < - (2 # 100) /\ sl && tp = false) \/ (ret <= 0 /\ sl || tp = false)).
Proof.
  intros ret sl tp Hexit Hnz.
  unfold TradeEvaluator.evaluate_exit_quality. rewrite Hexit.
  assert (Hd : forall a, Py.div a (entry_price trade) = Py.Ok (a / entry_price trade))
    by (intro a; now apply div_ok).
  assert (Hret : match side trade with
                 | Buy => Py.div (exit - entry_price trade) (entry_price trade)
                 | Sell => Py.div (entry_price trade - exit) (entry_price trade)
                 end = Py.Ok ret).
  { subst ret. destruct (side trade); apply Hd. }
  rewrite Hret. cbn [Py.bind]. clear Hret Hd.
  fold sl tp. generalize ret. clear ret. intro ret.
  case_ltb (2 # 100) ret; [|case_ltb 0 ret; [|case_ltb ret (- (2 # 100))]];
    destruct sl, tp; cbn; intros [= <-]; exit_row.
Qed.

(** X12. For a closed trade entered at a nonzero price, with [ret] the signed
    return on the entry price: the exit is good exactly when [ret > 2%] with
    a stop-loss or a take-profit set, or [ret > 0] with both set; it is poor
    exactly when [ret < -2%] with one of them missing, or [ret <= 0] with
    both missing.  So a profitable exit is never poor and a losing exit is
    never good. *)
Theorem exit_quality_table (trade : Trade) (ctx : MarketContext) (exit : Q) (q : Quality) :
  let ret := match side trade with
             | Buy => (exit - entry_price trade) / entry_price trade
             | Sell => (entry_price trade - exit) / entry_price trade
             end in
  let sl := is_some (stop_loss trade) in
  let tp := is_some (take_profit trade) in
  exit_price trade = Some exit ->
  ~ entry_price trade == 0 ->
  TradeEvaluator.evaluate_exit_quality trade ctx = Py.Ok (Some q) ->
  (q = Good <-> (2 # 100 < ret /\ sl || tp = true) \/ (0 < ret /\ sl && tp = true)) /\
  (q = Poor <-> (ret < - (2 # 100) /\ sl && tp = false) \/ (ret <= 0 /\ sl || tp = false)).
Proof. exact (exit_quality_table_fact trade ctx exit q). Qed.

Lemma exit_quality_table_witness :
  Good = Good <->
  (2 # 100 < (110 - 100) / 100 /\ true || false = true) \/
  (0 < (110 - 100) / 100 /\ true && false = true).
Proof.
  apply (exit_quality_table
           (mkTrade "T4" 0 "AAPL" Buy 100 (Some 110) None 1 (Some 90) None None None)
           (flat_context [] []) 110 Good).
  - reflexivity.
  - vm_compute. discriminate.
  - reflexivity.
Defined.

(** X13. Execution discipline is high exactly when stop-loss and take-profit are
    both set and the trade has a note or a risk-reward ratio of at least 1;
    it is low exactly when one of the two is missing and the trade has no
    note or has neither.  A ratio of 2 earns no better tier than a ratio
    of 1. *)
Theorem discipline_table (trade : Trade) :
  let sl := is_some (stop_loss trade) in
  let tp := is_some (take_profit trade) in
  let noted := TradeEvaluator.has_notes trade in
  let rr_at_least_1 :=
    match TradeEvaluator.calculate_risk_reward trade with
    | Some r => Py.leb 1 r
    | None => false
    end in
  (TradeEvaluator.evaluate_execution_discipline trade = High
   <-> sl && tp && (noted || rr_at_least_1) = true) /\
  (TradeEvaluator.evaluate_execution_discipline trade = Low
   <-> negb (sl && tp) && negb ((sl || tp) && noted) = true).
Proof.
  intros sl tp noted rr1. subst sl tp noted rr1.
  unfold TradeEvaluator.evaluate_execution_discipline.
  destruct (stop_loss trade) as [s|] eqn:Hs;
    destruct (take_profit trade) as [t|] eqn:Ht;
    try (unfold TradeEvaluator.calculate_risk_reward; rewrite ?Hs, ?Ht;
         destruct (TradeEvaluator.has_notes trade); cbn;
         split; split; intro H; try discriminate H; reflexivity).
  destruct (TradeEvaluator.calculate_risk_reward trade) as [r|].
  - destruct (Py.leb 2 r) eqn:E2; destruct (Py.leb 1 r) eqn:E1;
      destruct (TradeEvaluator.has_notes trade); cbn;
      try (exfalso; apply leb_le in E2; apply leb_gt in E1; lra);
      split; split; intro H; try discriminate H; reflexivity.
  - destruct (TradeEvaluator.has_notes trade); cbn;
      split; split; intro H; try discriminate H; reflexivity.
Qed.

(** ** Evaluations and their observations *)

Section EvaluateTrade.

Variable format_2f : Q -> string.

Lemma evaluate_trade_inv (trade : Trade) (ctx : MarketContext) (e : TradeEvaluation) :
  TradeEvaluator.evaluate_trade format_2f trade ctx = Py.Ok e ->
  exists eq xq obs,
    TradeEvaluator.evaluate_entry_quality trade ctx = Py.Ok eq /\
    TradeEvaluator.evaluate_exit_quality trade ctx = Py.Ok xq /\
    e = mkTradeEvaluation (trade_id trade) eq xq
          (TradeEvaluator.calculate_risk_reward trade)
          (TradeEvaluator.check_trend_alignment trade ctx)
          (TradeEvaluator.evaluate_execution_discipline trade) obs.
Proof.
  unfold TradeEvaluator.evaluate_trade.
  destruct (TradeEvaluator.evaluate_entry_quality trade ctx) as [eq|]; [|discriminate].
  destruct (TradeEvaluator.evaluate_exit_quality trade ctx) as [xq|]; [|discriminate].
  cbn [Py.bind]. intros [= <-]. eexists _, _, _. repeat split.
Qed.

Lemma evaluate_trades_pointwise (trades : list Trade) (ctx : MarketContext) :
  forall evaluations,
    TradeEvaluator.evaluate_trades format_2f trades ctx = Py.Ok evaluations
    <-> Forall2 (fun t e => TradeEvaluator.evaluate_trade format_2f t ctx = Py.Ok e)
          trades evaluations.
Proof.
  induction trades as [|t trades IH]; intro evaluations;
    cbn [TradeEvaluator.evaluate_trades].
  - split.
    + intros [= <-]. constructor.
    + intro H. inversion H. reflexivity.
  - split.
    + destruct (TradeEvaluator.evaluate_trade format_2f t ctx) as [e|] eqn:He;
        [|discriminate]. cbn [Py.bind].
      destruct (TradeEvaluator.evaluate_trades format_2f trades ctx) as [es|] eqn:Hes;
        [|discriminate]. cbn [Py.bind].
      intros [= <-]. constructor; [assumption|]. now apply IH.
    + intro H. inversion H as [|? e ? es He Hes]; subst.
      rewrite He. cbn [Py.bind].
      apply IH in Hes. rewrite Hes. reflexivity.
Qed.

End EvaluateTrade.

(** [evaluate_trades] returns a list exactly when every trade evaluates, and
    the list is then aligned with the trades: same length, the i-th
    evaluation being that of the i-th trade and carrying its identifier. *)
Theorem evaluate_trades_aligned (format_2f : Q -> string) (trades : list Trade)
    (ctx : MarketContext) (evaluations : list TradeEvaluation) :
  TradeEvaluator.evaluate_trades format_2f trades ctx = Py.Ok evaluations ->
  Forall2 (fun t e => TradeEvaluator.evaluate_trade format_2f t ctx = Py.Ok e)
    trades evaluations /\
  List.length evaluations = List.length trades /\
  map eval_trade_id evaluations = map trade_id trades.
Proof.
  intro H. apply evaluate_trades_pointwise in H. split; [assumption|].
  induction H as [|t e trades es He _ IH]; [split; reflexivity|].
  destruct IH as [IH1 IH2]. cbn [List.length map]. rewrite IH1, IH2.
  apply evaluate_trade_inv in He. destruct He as (eq & xq & obs & _ & _ & ->).
  split; reflexivity.
Qed.

Lemma evaluate_trades_aligned_witness :
  List.length
    [mkTradeEvaluation "T1" Acceptable None None true Low
       ["No stop loss or take profit set - missing risk management"%string;
        "Execution discipline needs improvement - use stop losses and take profits"%string]]
  = List.length [buy_trade 100 None None].
Proof.
  apply (evaluate_trades_aligned (fun _ => EmptyString) [buy_trade 100 None None]
           (flat_context [] [])).
  reflexivity.
Defined.

Lemma evaluate_trade_total_fact (format_2f : Q -> string) (trade : Trade)
    (ctx : MarketContext) :
  Forall (fun level => ~ level == 0) (support_levels ctx) ->
  Forall (fun level => ~ level == 0) (resistance_levels ctx) ->
  ~ entry_price trade == 0 ->
  exists e, TradeEvaluator.evaluate_trade format_2f trade ctx = Py.Ok e.
Proof.
  intros Hs Hr Hentry.
  assert (Hnear : exists b,
    match side trade with
    | Buy => TradeEvaluator.any_near (entry_price trade) (support_levels ctx)
    | Sell => TradeEvaluator.any_near (entry_price trade) (resistance_levels ctx)
    end = Py.Ok b).
  { destruct (side trade); now apply any_near_total. }
  destruct Hnear as (b & Hb).
  destruct (entry_quality_of_near trade ctx b Hb) as (q & Hq).
  destruct (exit_quality_outcome_fact trade ctx) as (Hopen & _ & Hclosed).
  assert (Hx : exists xq, TradeEvaluator.evaluate_exit_quality trade ctx = Py.Ok xq).
  { destruct (exit_price trade) as [exit|] eqn:E.
    - destruct (Hclosed exit eq_refl Hentry) as (xq & Hxq). now exists (Some xq).
    - exists None. now apply Hopen. }
  destruct Hx as (xq & Hxq).
  unfold TradeEvaluator.evaluate_trade. rewrite Hq, Hxq. cbn [Py.bind].
  eexists. reflexivity.
Qed.

(** X14. Against a context without a zero level, a batch of trades none of which
    was entered at price 0 always evaluates: [evaluate_trades] raises
    nothing. *)
Theorem evaluate_trades_total (format_2f : Q -> string) (trades : list Trade)
    (ctx : MarketContext) :
  Forall (fun level => ~ level == 0) (support_levels ctx) ->
  Forall (fun level => ~ level == 0) (resistance_levels ctx) ->
  Forall (fun t => ~ entry_price t == 0) trades ->
  exists evaluations,
    TradeEvaluator.evaluate_trades format_2f trades ctx = Py.Ok evaluations.
Proof.
  intros Hs Hr Ht.
  induction Ht as [|t trades Hentry _ IH]; [now exists []|].
  destruct IH as (es & Hes).
  destruct (evaluate_trade_total_fact format_2f t ctx Hs Hr Hentry) as (e & He).
  exists (e :: es). cbn [TradeEvaluator.evaluate_trades].
  rewrite He. cbn [Py.bind]. rewrite Hes. reflexivity.
Qed.

Lemma evaluate_trades_total_witness :
  exists evaluations,
    TradeEvaluator.evaluate_trades (fun _ => EmptyString)
      [buy_trade 100 None None; exited_trade (Some 110) (Some 10)]
      (flat_context [95] [110]) = Py.Ok evaluations.
Proof.
  apply evaluate_trades_total; repeat constructor; vm_compute; discriminate.
Defined.

(** X15. The observations of an evaluation follow its scores: there are between
    one and four; the counter-trend remark is there exactly when the trade
    is not aligned with the trend, the discipline remark exactly when the
    discipline is low, and the missing-risk-management remark exactly when
    no risk-reward ratio was computed, which includes a trade whose
    stop-loss equals its entry price although both bounds are set. *)
Theorem observations_follow_scores (format_2f : Q -> string) (trade : Trade)
    (ctx : MarketContext) (e : TradeEvaluation) :
  TradeEvaluator.evaluate_trade format_2f trade ctx = Py.Ok e ->
  (1 <= List.length (key_observations e) <= 4)%nat /\
  (In "Trade was counter-trend - higher risk strategy"%string (key_observations e)
   <-> aligned_with_trend e = false) /\
  (In "Execution discipline needs improvement - use stop losses and take profits"%string
      (key_observations e)
   <-> execution_discipline e = Low) /\
  (In "No stop loss or take profit set - missing risk management"%string
      (key_observations e)
   <-> risk_reward_ratio e = None).
Proof.
  unfold TradeEvaluator.evaluate_trade.
  destruct (TradeEvaluator.evaluate_entry_quality trade ctx) as [eq|]; [|discriminate].
  destruct (TradeEvaluator.evaluate_exit_quality trade ctx) as [xq|]; [|discriminate].
  cbn [Py.bind]. intros [= <-].
  cbn [key_observations aligned_with_trend execution_discipline risk_reward_ratio].
  destruct eq;
    destruct (TradeEvaluator.check_trend_alignment trade ctx);
    destruct (TradeEvaluator.calculate_risk_reward trade) as [r|];
    try destruct (Py.leb 2 r);
    destruct (TradeEvaluator.evaluate_execution_discipline trade);
    cbn; (split; [lia|]);
    repeat split; intro H; try discriminate H; try reflexivity; auto;
    repeat (destruct H as [H|H]; try discriminate H); try contradiction.
Qed.

Lemma observations_follow_scores_witness :
  risk_reward_ratio
    (mkTradeEvaluation "T1" Acceptable None None true Medium
       ["No stop loss or take profit set - missing risk management"%string]) = None.
Proof.
  apply (observations_follow_scores (fun _ => EmptyString)
           (buy_trade 100 (Some 100) (Some 120)) (flat_context [] [])).
  - reflexivity.
  - now left.
Defined.

(** ** Performance metrics *)

Lemma count_where_le {A} (p : A -> bool) (l : list A) :
  (count_where p l <= count l)%Z.
Proof.
  unfold count. induction l as [|x l IH]; [cbn; lia|].
  cbn [count_where List.length]. destruct (p x); lia.
Qed.

Lemma count_where_split {A} (p : A -> bool) (l : list A) :
  (count_where p l + count_where (fun x => negb (p x)) l = count l)%Z.
Proof.
  unfold count. induction l as [|x l IH]; [reflexivity|].
  cbn [count_where List.length]. destruct (p x); cbn [negb]; lia.
Qed.

Lemma count_where_images {A B} (f : B -> bool) (g : A -> bool)
    (R : A -> B -> Prop) (l : list A) (l' : list B) :
  (forall a b, R a b -> f b = g a) ->
  Forall2 R l l' -> count_where f l' = count_where g l.
Proof.
  intros Hfg H. induction H as [|a b l l' Hab _ IH]; [reflexivity|].
  cbn [count_where]. now rewrite IH, (Hfg a b Hab).
Qed.

Lemma metrics_tallies (trades : list Trade) (evaluations : list TradeEvaluation) :
  let m := TradeReviewSystem._calculate_performance_metrics trades evaluations in
  TradeReviewSystem.trades_with_trend m = count_where aligned_with_trend evaluations /\
  TradeReviewSystem.trades_against_trend m
  = (count trades - count_where aligned_with_trend evaluations)%Z /\
  TradeReviewSystem.high_discipline_trades m
  = count_where (fun e => TradeReviewSystem.is_high (execution_discipline e)) evaluations /\
  TradeReviewSystem.good_entry_trades m
  = count_where (fun e => TradeReviewSystem.is_good (entry_quality e)) evaluations.
Proof.
  cbv zeta. unfold TradeReviewSystem._calculate_performance_metrics. cbn.
  rewrite !count_filter. repeat split.
Qed.

(** X16. When the evaluations are those [evaluate_trades] returned for the
    trades, [trades_with_trend] is the number of trades aligned with the
    trend of the context, [trades_against_trend] the number of the others,
    [high_discipline_trades] the number of trades of high discipline, and
    [good_entry_trades] lies between 0 and [total_trades]. *)
Theorem metrics_of_evaluated_trades (format_2f : Q -> string) (trades : list Trade)
    (ctx : MarketContext) (evaluations : list TradeEvaluation) :
  TradeEvaluator.evaluate_trades format_2f trades ctx = Py.Ok evaluations ->
  let m := TradeReviewSystem._calculate_performance_metrics trades evaluations in
  TradeReviewSystem.trades_with_trend m
  = count_where (fun t => TradeEvaluator.check_trend_alignment t ctx) trades /\
  TradeReviewSystem.trades_against_trend m
  = count_where (fun t => negb (TradeEvaluator.check_trend_alignment t ctx)) trades /\
  TradeReviewSystem.high_discipline_trades m
  = count_where
      (fun t => TradeReviewSystem.is_high (TradeEvaluator.evaluate_execution_discipline t))
      trades /\
  (0 <= TradeReviewSystem.good_entry_trades m <= TradeReviewSystem.total_trades m)%Z.
Proof.
  intros H m.
  destruct (metrics_tallies trades evaluations) as (Hw & Ha & Hh & Hg).
  destruct (metrics_counts trades evaluations) as (Ht & _).
  fold m in Hw, Ha, Hh, Hg, Ht.
  apply evaluate_trades_pointwise in H.
  assert (Hal : count_where aligned_with_trend evaluations
                = count_where (fun t => TradeEvaluator.check_trend_alignment t ctx) trades).
  { refine (count_where_images _ _ _ _ _ _ H).
    intros t e He. apply evaluate_trade_inv in He.
    destruct He as (? & ? & ? & _ & _ & ->). reflexivity. }
  assert (Hhi : count_where (fun e => TradeReviewSystem.is_high (execution_discipline e))
                  evaluations
                = count_where
                    (fun t => TradeReviewSystem.is_high
                                (TradeEvaluator.evaluate_execution_discipline t)) trades).
  { refine (count_where_images _ _ _ _ _ _ H).
    intros t e He. apply evaluate_trade_inv in He.
    destruct He as (? & ? & ? & _ & _ & ->). reflexivity. }
  pose proof (count_where_split (fun t => TradeEvaluator.check_trend_alignment t ctx) trades).
  pose proof (count_where_nonneg
                (fun e => TradeReviewSystem.is_good (entry_quality e)) evaluations).
  pose proof (count_where_le
                (fun e => TradeReviewSystem.is_good (entry_quality e)) evaluations).
  assert (Hlen : count evaluations = count trades).
  { unfold count. now rewrite (Forall2_length H). }
  cbv beta in *. rewrite Hw, Ha, Hh, Hg, Ht, Hal, Hhi. repeat split; lia.
Qed.

Lemma metrics_of_evaluated_trades_witness :
  TradeReviewSystem.trades_against_trend
    (TradeReviewSystem._calculate_performance_metrics
       [buy_trade 100 None None]
       [mkTradeEvaluation "T1" Acceptable None None true Low
          ["No stop loss or take profit set - missing risk management"%string;
           "Execution discipline needs improvement - use stop losses and take profits"%string]])
  = count_where (fun t => negb (TradeEvaluator.check_trend_alignment t (flat_context [] [])))
      [buy_trade 100 None None].
Proof.
  apply (metrics_of_evaluated_trades (fun _ => EmptyString) [buy_trade 100 None None]
           (flat_context [] [])).
  reflexivity.
Defined.

Lemma metrics_averages (trades : list Trade) (evaluations : list TradeEvaluation) :
  let m := TradeReviewSystem._calculate_performance_metrics trades evaluations in
  TradeReviewSystem.total_pnl m = Py.sum (map pnl_value (closed_by_pnl trades)) /\
  TradeReviewSystem.avg_pnl m * inject_Z (TradeReviewSystem.closed_trades m)
  == TradeReviewSystem.total_pnl m /\
  TradeReviewSystem.win_rate m * inject_Z (TradeReviewSystem.closed_trades m)
  == 100 * inject_Z (TradeReviewSystem.winning_trades m).
Proof.
  cbv zeta. unfold TradeReviewSystem._calculate_performance_metrics. cbn.
  destruct (closed_by_pnl trades) as [|c cs].
  - cbn. repeat split; reflexivity.
  - assert (Hn : 0 < inject_Z (count (c :: cs))).
    { unfold count. cbn [List.length]. rewrite <- (Zlt_Qlt 0). lia. }
    repeat split; field; lra.
Qed.

(** X17. For every list of trades and of evaluations, the metrics satisfy
    [0 <= closed_trades <= total_trades], [open_trades >= 0],
    [0 <= win_rate <= 100], [avg_pnl * closed_trades == total_pnl] and
    [win_rate * closed_trades == 100 * winning_trades]. *)
Theorem performance_metrics_ranges (trades : list Trade)
    (evaluations : list TradeEvaluation) :
  let m := TradeReviewSystem._calculate_performance_metrics trades evaluations in
  (0 <= TradeReviewSystem.closed_trades m <= TradeReviewSystem.total_trades m)%Z /\
  (0 <= TradeReviewSystem.open_trades m)%Z /\
  0 <= TradeReviewSystem.win_rate m <= 100 /\
  TradeReviewSystem.avg_pnl m * inject_Z (TradeReviewSystem.closed_trades m)
  == TradeReviewSystem.total_pnl m /\
  TradeReviewSystem.win_rate m * inject_Z (TradeReviewSystem.closed_trades m)
  == 100 * inject_Z (TradeReviewSystem.winning_trades m).
Proof.
  intro m.
  destruct (metrics_counts trades evaluations) as (Ht & Hc & Ho & Hw & Hl).
  destruct (metrics_averages trades evaluations) as (_ & Ha & Hr).
  fold m in Ht, Hc, Ho, Hw, Hl, Ha, Hr.
  pose proof (count_where_nonneg has_pnl trades) as Hc0.
  pose proof (count_where_le has_pnl trades) as Hc1.
  pose proof (count_where_nonneg is_win trades) as Hw0.
  pose proof (count_where_nonneg is_loss trades) as Hl0.
  pose proof (count_where_nonneg is_break_even trades) as Hb0.
  pose proof (closed_split trades) as Hsplit.
  assert (Hwc : (0 <= TradeReviewSystem.winning_trades m
                 <= TradeReviewSystem.closed_trades m)%Z) by lia.
  repeat split; try lia; try assumption.
  - destruct (Z.eq_dec (TradeReviewSystem.closed_trades m) 0) as [E|E].
    + pose proof (metrics_win_rate trades evaluations) as Hwr. fold m in Hwr.
      rewrite E, Z.eqb_refl in Hwr. lra.
    + assert (H0 : 0 < inject_Z (TradeReviewSystem.closed_trades m)).
      { rewrite <- (Zlt_Qlt 0). lia. }
      assert (H1 : 0 <= inject_Z (TradeReviewSystem.winning_trades m)).
      { rewrite <- (Zle_Qle 0). lia. }
      nra.
  - destruct (Z.eq_dec (TradeReviewSystem.closed_trades m) 0) as [E|E].
    + pose proof (metrics_win_rate trades evaluations) as Hwr. fold m in Hwr.
      rewrite E, Z.eqb_refl in Hwr. lra.
    + assert (H0 : 0 < inject_Z (TradeReviewSystem.closed_trades m)).
      { rewrite <- (Zlt_Qlt 0). lia. }
      assert (H1 : inject_Z (TradeReviewSystem.winning_trades m)
                   <= inject_Z (TradeReviewSystem.closed_trades m)).
      { rewrite <- Zle_Qle. lia. }
      nra.
Qed.

(** ** Additional metrics *)

Lemma utils_wins (trades : list Trade) :
  map pnl_value (filter (fun t => Py.ltb 0 (pnl_value t)) (closed_by_pnl trades))
  = wins_of trades.
Proof. now rewrite winners_of_closed. Qed.

Lemma utils_losses (trades : list Trade) :
  map (fun t => Qabs (pnl_value t))
      (filter (fun t => Py.ltb (pnl_value t) 0) (closed_by_pnl trades))
  = losses_of trades.
Proof. now rewrite losers_of_closed. Qed.

Lemma additional_metrics_fields (trades : list Trade) :
  closed_by_pnl trades <> [] ->
  let u := Utils.calculate_additional_metrics trades in
  Utils.max_drawdown u
  = snd (fold_left Utils.drawdown_step (closed_by_pnl trades) (0, 0, 0)) /\
  Utils.avg_win u = average (wins_of trades) /\
  Utils.avg_loss u = average (losses_of trades) /\
  Utils.profit_factor u
  = (if Py.ltb 0 (Py.sum (losses_of trades))
     then Utils.Finite (Py.sum (wins_of trades) / Py.sum (losses_of trades))
     else Utils.Inf) /\
  Utils.largest_win u = Py.maximum (wins_of trades) 0 /\
  Utils.largest_loss u = Py.maximum (losses_of trades) 0.
Proof.
  intro Hne. cbv zeta. rewrite <- utils_wins, <- utils_losses.
  unfold Utils.calculate_additional_metrics.
  remember (closed_by_pnl trades) as closed eqn:Hc. clear Hc.
  destruct closed as [|c cs]; [congruence|].
  destruct (fold_left Utils.drawdown_step (c :: cs) (0, 0, 0)) as [[cum peak] dd].
  repeat split.
Qed.

Lemma additional_metrics_empty (trades : list Trade) :
  closed_by_pnl trades = [] ->
  Utils.calculate_additional_metrics trades
  = Utils.mkAdditionalMetrics 0 0 0 (Utils.Finite 0) 0 0 /\
  wins_of trades = [] /\ losses_of trades = [].
Proof.
  intro H. rewrite <- utils_wins, <- utils_losses.
  unfold Utils.calculate_additional_metrics. rewrite H. repeat split.
Qed.

Lemma average_times_len (l : list Q) : average l * Py.len l == Py.sum l.
Proof.
  destruct l as [|x l].
  - unfold Py.len. cbn. ring.
  - unfold average. pose proof (len_pos (x :: l)) as H.
    field. intro E. assert (0 < Py.len (x :: l)) by (apply H; discriminate). lra.
Qed.

Lemma sum_pnl_split (trades : list Trade) :
  Py.sum (map pnl_value (closed_by_pnl trades))
  == Py.sum (wins_of trades) - Py.sum (losses_of trades).
Proof.
  unfold closed_by_pnl, wins_of, losses_of.
  induction trades as [|t trades IH]; [cbn; ring|].
  cbn [filter]. unfold is_win at 1, is_loss at 1.
  destruct (pnl t) as [p|] eqn:Hp; cbn [is_some is_none negb]; [|exact IH].
  assert (Hv : pnl_value t = p) by (unfold pnl_value; now rewrite Hp).
  case_ltb 0 p; case_ltb p 0; cbn [map Py.sum]; rewrite ?Hv, IH;
    try rewrite Qabs_neg by lra; lra.
Qed.

Lemma wins_positive (trades : list Trade) : Forall (fun w => 0 < w) (wins_of trades).
Proof.
  unfold wins_of. apply Forall_forall. intros w Hw.
  apply in_map_iff in Hw. destruct Hw as (t & <- & Ht).
  apply filter_In in Ht. destruct Ht as [_ Ht].
  unfold is_win, pnl_value in *. destruct (pnl t); [|discriminate].
  now apply ltb_lt in Ht.
Qed.

Lemma losses_positive (trades : list Trade) : Forall (fun w => 0 < w) (losses_of trades).
Proof.
  unfold losses_of. apply Forall_forall. intros w Hw.
  apply in_map_iff in Hw. destruct Hw as (t & <- & Ht).
  apply filter_In in Ht. destruct Ht as [_ Ht].
  unfold is_loss, pnl_value in *. destruct (pnl t); [|discriminate].
  apply ltb_lt in Ht. rewrite Qabs_neg by lra. lra.
Qed.

Lemma sum_positive (l : list Q) : Forall (fun w => 0 < w) l -> l <> [] -> 0 < Py.sum l.
Proof.
  intros H Hne. destruct H as [|x l Hx Hl]; [congruence|].
  cbn [Py.sum]. assert (0 <= Py.sum l); [|lra].
  apply sum_nonneg. eapply Forall_impl; [|exact Hl]. cbv beta. intros. lra.
Qed.

Lemma len_of_map {A B} (f : A -> B) (l : list A) : Py.len (map f l) = Py.len l.
Proof. unfold Py.len. now rewrite length_map. Qed.

Lemma len_filter_count {A} (p : A -> bool) (l : list A) :
  Py.len (filter p l) = inject_Z (count_where p l).
Proof. unfold Py.len. fold (count (filter p l)). now rewrite count_filter. Qed.

(** X18. The two reports agree on the net result: the average win times the
    number of winning trades, less the average loss times the number of
    losing trades, is the total P&L of the performance metrics. *)
Theorem net_pnl_from_averages (trades : list Trade)
    (evaluations : list TradeEvaluation) :
  let m := TradeReviewSystem._calculate_performance_metrics trades evaluations in
  let u := Utils.calculate_additional_metrics trades in
  Utils.avg_win u * inject_Z (TradeReviewSystem.winning_trades m)
  - Utils.avg_loss u * inject_Z (TradeReviewSystem.losing_trades m)
  == TradeReviewSystem.total_pnl m.
Proof.
  cbv zeta.
  destruct (metrics_counts trades evaluations) as (_ & _ & _ & -> & ->).
  destruct (metrics_averages trades evaluations) as (-> & _).
  rewrite sum_pnl_split.
  rewrite <- (average_times_len (wins_of trades)), <- (average_times_len (losses_of trades)).
  unfold wins_of at 2, losses_of at 2. rewrite !len_of_map, !len_filter_count.
  destruct (closed_by_pnl trades) as [|c cs] eqn:E.
  - destruct (additional_metrics_empty trades E) as (-> & -> & ->). cbn. ring.
  - destruct (additional_metrics_fields trades) as (_ & -> & -> & _); [congruence|].
    reflexivity.
Qed.

Lemma losses_nonempty (trades : list Trade) :
  (exists t, In t trades /\ is_loss t = true) -> losses_of trades <> [].
Proof.
  intros (t & Ht & Hl) E. unfold losses_of in E. apply map_eq_nil in E.
  assert (Hin : In t (filter is_loss trades)) by (apply filter_In; auto).
  rewrite E in Hin. exact Hin.
Qed.

Lemma loss_is_closed (trades : list Trade) :
  (exists t, In t trades /\ is_loss t = true) -> closed_by_pnl trades <> [].
Proof.
  intros (t & Ht & Hl) E.
  assert (Hin : In t (closed_by_pnl trades)).
  { apply filter_In. split; [assumption|]. unfold is_loss in Hl.
    now destruct (pnl t). }
  rewrite E in Hin. exact Hin.
Qed.

(** X19. As soon as one trade has a negative realized P&L, the profit factor is
    a finite number: the sum of the wins over the sum of the absolute
    losses. It is never negative, and it exceeds 1 exactly when the total
    P&L of the performance metrics is positive. *)
Theorem profit_factor_with_losses (trades : list Trade)
    (evaluations : list TradeEvaluation) :
  (exists t, In t trades /\ is_loss t = true) ->
  exists pf,
    Utils.profit_factor (Utils.calculate_additional_metrics trades) = Utils.Finite pf /\
    pf == Py.sum (wins_of trades) / Py.sum (losses_of trades) /\
    0 <= pf /\
    (1 < pf <->
     0 < TradeReviewSystem.total_pnl
           (TradeReviewSystem._calculate_performance_metrics trades evaluations)) /\
    (pf == 0 <-> forall t, In t trades -> is_win t = false).
Proof.
  intro Hloss.
  pose proof (sum_positive _ (losses_positive trades) (losses_nonempty _ Hloss)) as HL.
  destruct (additional_metrics_fields trades (loss_is_closed _ Hloss))
    as (_ & _ & _ & Hpf & _).
  cbv zeta in Hpf. apply ltb_lt in HL. rewrite HL in Hpf. apply ltb_lt in HL.
  exists (Py.sum (wins_of trades) / Py.sum (losses_of trades)).
  destruct (metrics_averages trades evaluations) as (-> & _).
  rewrite sum_pnl_split.
  assert (HW : 0 <= Py.sum (wins_of trades)).
  { apply sum_nonneg. eapply Forall_impl; [|apply wins_positive].
    cbv beta. intros. lra. }
  split; [exact Hpf|]. split; [reflexivity|].
  set (W := Py.sum (wins_of trades)) in *. set (L := Py.sum (losses_of trades)) in *.
  assert (HWr : W == W / L * L) by (field; lra).
  assert (Hr : 0 <= W / L) by (apply Qle_shift_div_l; lra).
  set (r := W / L) in *.
  repeat split.
  - exact Hr.
  - intro H. nra.
  - intro H. nra.
  - intros H t Ht. destruct (is_win t) eqn:Hw; [|reflexivity]. exfalso.
    assert (Hne : wins_of trades <> []).
    { intro E. unfold wins_of in E. apply map_eq_nil in E.
      assert (Hin : In t (filter is_win trades)) by (apply filter_In; auto).
      rewrite E in Hin. exact Hin. }
    pose proof (sum_positive _ (wins_positive trades) Hne) as HWpos. fold W in HWpos.
    rewrite H in HWr. lra.
  - intro H. assert (E : filter is_win trades = []).
    { clear -H. induction trades as [|t ts IH]; [reflexivity|].
      cbn [filter]. rewrite (H t (or_introl eq_refl)). apply IH.
      intros u Hu. apply H. now right. }
    assert (HW0 : W == 0) by (unfold W, wins_of; rewrite E; reflexivity).
    nra.
Qed.

Lemma profit_factor_with_losses_witness :
  exists pf,
    Utils.profit_factor
      (Utils.calculate_additional_metrics [closed_trade 30; closed_trade (-10)])
    = Utils.Finite pf /\ pf == 3.
Proof.
  destruct (profit_factor_with_losses [closed_trade 30; closed_trade (-10)] [])
    as (pf & H & Hv & _).
  - exists (closed_trade (-10)). split; [right; left; reflexivity|reflexivity].
  - exists pf. split; [exact H|]. rewrite Hv. reflexivity.
Defined.

(** The state of the drawdown loop after the trades [l], started in a state
    that satisfies the loop invariant: the peak is never negative nor below
    the cumulative P&L, the recorded drawdown is at least the current one
    and at most the losses so far. *)
Lemma drawdown_invariant (l : list Trade) :
  forall cum peak dd losses,
    0 <= peak -> cum <= peak -> peak - cum <= dd -> dd <= losses ->
    let '(cum', peak', dd') := fold_left Utils.drawdown_step l (cum, peak, dd) in
    cum' == cum + Py.sum (map pnl_value l) /\
    0 <= peak' /\ cum' <= peak' /\ peak' - cum' <= dd' /\ dd <= dd' /\
    dd' <= losses
           + Py.sum (map (fun t => Qabs (pnl_value t))
                         (filter (fun t => Py.ltb (pnl_value t) 0) l)).
Proof.
  induction l as [|t l IH]; intros cum peak dd losses H0 H1 H2 H3.
  - cbn. repeat split; lra.
  - cbn [fold_left]. unfold Utils.drawdown_step at 2.
    set (x := pnl_value t).
    set (cum1 := cum + x).
    set (peak1 := if Py.ltb peak cum1 then cum1 else peak).
    set (dd1 := if Py.ltb dd (peak1 - cum1) then peak1 - cum1 else dd).
    set (losses1 := if Py.ltb x 0 then losses + Qabs x else losses).
    assert (Hp : 0 <= peak1 /\ cum1 <= peak1 /\ peak <= peak1 /\
                 (peak1 == cum1 \/ peak1 == peak)).
    { unfold peak1. case_ltb peak cum1; repeat split; try lra;
        first [left; reflexivity | right; reflexivity]. }
    destruct Hp as (Hp0 & Hp1 & Hp2 & Hp3).
    assert (Hd : peak1 - cum1 <= dd1 /\ dd <= dd1 /\
                 (dd1 == peak1 - cum1 \/ dd1 == dd)).
    { unfold dd1. case_ltb dd (peak1 - cum1); repeat split; try lra;
        first [left; reflexivity | right; reflexivity]. }
    destruct Hd as (Hd0 & Hd1 & Hd2).
    assert (Hl : dd1 <= losses1 /\ losses <= losses1).
    { unfold losses1, cum1 in *. case_ltb x 0.
      - rewrite Qabs_neg by lra. split; [|lra].
        destruct Hd2 as [->| ->]; [|lra]. destruct Hp3 as [->| ->]; lra.
      - split; [|lra].
        destruct Hd2 as [->| ->]; [|lra]. destruct Hp3 as [->| ->]; lra. }
    destruct Hl as (Hl0 & Hl1).
    specialize (IH cum1 peak1 dd1 losses1 Hp0 Hp1 Hd0 Hl0).
    destruct (fold_left Utils.drawdown_step l (cum1, peak1, dd1)) as [[cum' peak'] dd'].
    destruct IH as (Ic & Ip0 & Ip1 & Id0 & Id1 & Il).
    cbn [map Py.sum filter]. fold x.
    repeat split; try assumption; try lra.
    + unfold cum1 in Ic. lra.
    + unfold losses1 in Il. destruct (Py.ltb x 0); cbn [map Py.sum]; fold x; lra.
Qed.

(** X20. The maximum drawdown is never negative, never more than the sum of
    the absolute losses — so it is 0 when no trade lost — and never less
    than the net loss: minus the total P&L of the performance metrics. *)
Theorem max_drawdown_bounds (trades : list Trade) (evaluations : list TradeEvaluation) :
  let u := Utils.calculate_additional_metrics trades in
  0 <= Utils.max_drawdown u /\
  Utils.max_drawdown u <= Py.sum (losses_of trades) /\
  - TradeReviewSystem.total_pnl
      (TradeReviewSystem._calculate_performance_metrics trades evaluations)
  <= Utils.max_drawdown u.
Proof.
  cbv zeta. destruct (metrics_averages trades evaluations) as (-> & _).
  destruct (closed_by_pnl trades) as [|c cs] eqn:E.
  - destruct (additional_metrics_empty trades E) as (-> & _ & ->).
    cbn. repeat split; lra.
  - destruct (additional_metrics_fields trades) as (-> & _); [congruence|].
    rewrite <- utils_losses, E.
    pose proof (drawdown_invariant (c :: cs) 0 0 0 0) as H.
    destruct (fold_left Utils.drawdown_step (c :: cs) (0, 0, 0)) as [[cum peak] dd].
    destruct H as (Hc & Hp0 & Hp1 & Hd0 & Hd1 & Hl); try lra.
    cbn [snd]. repeat split; lra.
Qed.

Lemma fold_max_ge (l : list Q) :
  forall a, a <= fold_left Py.max l a /\ Forall (fun x => x <= fold_left Py.max l a) l.
Proof.
  induction l as [|x l IH]; intro a; cbn [fold_left].
  - split; [lra|constructor].
  - destruct (IH (Py.max a x)) as [H1 H2].
    assert (Hm : a <= Py.max a x /\ x <= Py.max a x).
    { unfold Py.max. case_ltb a x; split; lra. }
    split; [lra|]. constructor; [lra|assumption].
Qed.

Lemma fold_max_in (l : list Q) :
  forall a, In (fold_left Py.max l a) (a :: l).
Proof.
  induction l as [|x l IH]; intro a; cbn [fold_left]; [now left|].
  destruct (IH (Py.max a x)) as [H|H]; [|right; now right].
  rewrite <- H. unfold Py.max. destruct (Py.ltb a x); [right|]; now left.
Qed.

Lemma maximum_ge (l : list Q) (d : Q) : Forall (fun x => x <= Py.maximum l d) l.
Proof.
  destruct l as [|x l]; [constructor|]. cbn [Py.maximum].
  destruct (fold_max_ge l x). now constructor.
Qed.

Lemma maximum_in (l : list Q) (d : Q) : l <> [] -> In (Py.maximum l d) l.
Proof.
  destruct l as [|x l]; [congruence|]. intros _. apply fold_max_in.
Qed.

Lemma average_le_maximum (l : list Q) :
  Forall (fun w => 0 < w) l -> 0 <= average l <= Py.maximum l 0.
Proof.
  intro Hpos. destruct l as [|x l]; [cbn; lra|].
  change (average (x :: l)) with (Py.mean (x :: l)).
  apply mean_within; [discriminate|].
  pose proof (maximum_ge (x :: l) 0) as Hmax.
  rewrite Forall_forall in *. intros v Hv.
  specialize (Hpos v Hv). specialize (Hmax v Hv). cbv beta in *. lra.
Qed.

(** X21. The largest win is at least every positive realized P&L and at least
    the average win; the largest loss is at least the absolute value of
    every negative realized P&L and at least the average loss. When some
    trade won, the largest win is the P&L of one of the trades. *)
Theorem largest_win_and_loss (trades : list Trade) :
  let u := Utils.calculate_additional_metrics trades in
  (forall t p, In t trades -> pnl t = Some p ->
     (0 < p -> p <= Utils.largest_win u) /\
     (p < 0 -> - p <= Utils.largest_loss u)) /\
  0 <= Utils.avg_win u <= Utils.largest_win u /\
  0 <= Utils.avg_loss u <= Utils.largest_loss u /\
  ((exists t, In t trades /\ is_win t = true) ->
   exists t, In t trades /\ pnl t = Some (Utils.largest_win u)).
Proof.
  cbv zeta.
  assert (H : Utils.largest_win (Utils.calculate_additional_metrics trades)
              = Py.maximum (wins_of trades) 0 /\
              Utils.largest_loss (Utils.calculate_additional_metrics trades)
              = Py.maximum (losses_of trades) 0 /\
              Utils.avg_win (Utils.calculate_additional_metrics trades)
              = average (wins_of trades) /\
              Utils.avg_loss (Utils.calculate_additional_metrics trades)
              = average (losses_of trades)).
  { destruct (closed_by_pnl trades) as [|c cs] eqn:E.
    - destruct (additional_metrics_empty trades E) as (-> & -> & ->).
      repeat split.
    - destruct (additional_metrics_fields trades) as (_ & -> & -> & _ & -> & ->);
        [congruence|]. repeat split. }
  destruct H as (-> & -> & -> & ->).
  split; [|split; [|split]].
  - intros t p Ht Hp. split; intro Hs.
    + pose proof (maximum_ge (wins_of trades) 0) as Hmax.
      rewrite Forall_forall in Hmax. apply Hmax.
      unfold wins_of. apply in_map_iff. exists t. split.
      * unfold pnl_value. now rewrite Hp.
      * apply filter_In. split; [assumption|]. unfold is_win. rewrite Hp.
        now apply ltb_lt.
    + pose proof (maximum_ge (losses_of trades) 0) as Hmax.
      rewrite Forall_forall in Hmax.
      assert (Hin : In (Qabs p) (losses_of trades)).
      { unfold losses_of. apply in_map_iff. exists t. split.
        * unfold pnl_value. now rewrite Hp.
        * apply filter_In. split; [assumption|]. unfold is_loss. rewrite Hp.
          now apply ltb_lt. }
      specialize (Hmax _ Hin). cbv beta in Hmax.
      rewrite Qabs_neg in Hmax by lra. exact Hmax.
  - apply average_le_maximum, wins_positive.
  - apply average_le_maximum, losses_positive.
  - intros (t & Ht & Hw).
    assert (Hne : wins_of trades <> []).
    { intro E. unfold wins_of in E. apply map_eq_nil in E.
      assert (Hin : In t (filter is_win trades)) by (apply filter_In; auto).
      rewrite E in Hin. exact Hin. }
    pose proof (maximum_in (wins_of trades) 0 Hne) as Hin.
    unfold wins_of at 2 in Hin. apply in_map_iff in Hin.
    destruct Hin as (u & Hu & Hin). apply filter_In in Hin.
    destruct Hin as [Hin Hwin]. exists u. split; [assumption|].
    rewrite <- Hu. unfold is_win in Hwin. unfold pnl_value.
    now destruct (pnl u).
Qed.

Lemma largest_win_and_loss_witness :
  30 <= Utils.largest_win
          (Utils.calculate_additional_metrics [closed_trade 30; closed_trade (-10)]).
Proof.
  destruct (largest_win_and_loss [closed_trade 30; closed_trade (-10)]) as (H & _).
  destruct (H (closed_trade 30) 30 (or_introl eq_refl) eq_refl) as [Hw _].
  apply Hw. reflexivity.
Defined.

(** ** Validation of trade data *)

Lemma trade_warnings_none (t : Trade) :
  Utils.trade_warnings t = [] <-> well_formed_trade t.
Proof.
  unfold Utils.trade_warnings, well_formed_trade, has_exit_price, has_pnl,
    is_some, is_none.
  destruct (stop_loss t) as [sl|], (take_profit t) as [tp|];
    cbn [app negb andb].
  2-4: split; [intro H; discriminate H
              |intros [(sl' & tp' & Hs & Ht & _) _]; discriminate].
  destruct (exit_price t) as [x|], (pnl t) as [p|], (exit_timestamp t) as [ts|];
    cbn [app negb andb];
    try (split; [intro H; discriminate H
                |intros [_ H]; destruct (H eq_refl); discriminate]);
    (destruct (side t);
     [ destruct (Py.leb (entry_price t) sl) eqn:E1;
       destruct (Py.leb tp (entry_price t)) eqn:E2
     | destruct (Py.leb sl (entry_price t)) eqn:E1;
       destruct (Py.leb (entry_price t) tp) eqn:E2 ];
     cbn [app];
     (split;
      [ intro H;
        first [ discriminate H
              | apply leb_gt in E1; apply leb_gt in E2;
                split; [exists sl, tp; repeat split; assumption
                       |intro Hx; first [discriminate Hx | split; reflexivity]] ]
      | intros [(sl' & tp' & [= <-] & [= <-] & H1 & H2) _];
        try reflexivity; exfalso;
        first [apply leb_le in E1; lra | apply leb_le in E2; lra] ])).
Qed.

Lemma validate_none_fact (trades : list Trade) :
  Utils.validate_trade_data trades = [] <-> Forall well_formed_trade trades.
Proof.
  unfold Utils.validate_trade_data.
  induction trades as [|t trades IH]; cbn [flat_map].
  - split; [constructor|reflexivity].
  - split.
    + intro H. apply app_eq_nil in H. destruct H as [H1 H2].
      constructor; [now apply trade_warnings_none|now apply IH].
    + intro H. inversion H as [|? ? Ht Hts]. subst.
      apply trade_warnings_none in Ht. apply IH in Hts.
      now rewrite Ht, Hts.
Qed.

(** X22. [validate_trade_data] returns no warning exactly when every trade has
    a stop and a target on the right sides of its entry price (below and
    above for a buy, above and below for a sell) and every exit price comes
    with a P&L and an exit timestamp. *)
Theorem validate_trade_data_silent (trades : list Trade) :
  Utils.validate_trade_data trades = [] <-> Forall well_formed_trade trades.
Proof. exact (validate_none_fact trades). Qed.

Lemma warnings_per_trade (t : Trade) : (List.length (Utils.trade_warnings t) <= 4)%nat.
Proof.
  unfold Utils.trade_warnings.
  destruct (stop_loss t), (take_profit t), (exit_price t), (pnl t), (exit_timestamp t),
    (side t); cbn [is_none is_some negb andb app List.length];
    repeat match goal with |- context [if ?c then _ else _] => destruct c end;
    cbn [app List.length]; lia.
Qed.

(** [validate_trade_data] returns at most four warnings per trade, and
    none for an empty list. *)
Theorem validate_trade_data_bound (trades : list Trade) :
  (List.length (Utils.validate_trade_data trades) <= 4 * List.length trades)%nat.
Proof.
  unfold Utils.validate_trade_data.
  induction trades as [|t trades IH]; cbn [flat_map List.length]; [lia|].
  rewrite length_app. pose proof (warnings_per_trade t). lia.
Qed.

(** X23. A trade list that [validate_trade_data] passes without a warning is
    one the evaluator has a positive risk/reward ratio for in every trade,
    and whose execution discipline is never low. *)
Theorem validated_trades_have_risk_reward (trades : list Trade) :
  Utils.validate_trade_data trades = [] ->
  forall t, In t trades ->
    (exists rr, TradeEvaluator.calculate_risk_reward t = Some rr /\ 0 < rr) /\
    TradeEvaluator.evaluate_execution_discipline t <> Low.
Proof.
  intros H t Ht. apply validate_none_fact in H.
  rewrite Forall_forall in H. destruct (H t Ht) as [(sl & tp & Hs & Hp & Hside) _].
  assert (Hrr : exists rr, TradeEvaluator.calculate_risk_reward t = Some rr /\ 0 < rr).
  { unfold TradeEvaluator.calculate_risk_reward. rewrite Hs, Hp.
    destruct (side t); destruct Hside as [H1 H2]; cbv iota beta.
    - assert (Hrisk : Qabs (entry_price t - sl) == entry_price t - sl)
        by (apply Qabs_pos; lra).
      assert (Hreward : Qabs (tp - entry_price t) == tp - entry_price t)
        by (apply Qabs_pos; lra).
      case_eqb (Qabs (entry_price t - sl)) 0; [lra|].
      eexists. split; [reflexivity|]. apply Qlt_shift_div_l; lra.
    - assert (Hrisk : Qabs (sl - entry_price t) == sl - entry_price t)
        by (apply Qabs_pos; lra).
      assert (Hreward : Qabs (entry_price t - tp) == entry_price t - tp)
        by (apply Qabs_pos; lra).
      case_eqb (Qabs (sl - entry_price t)) 0; [lra|].
      eexists. split; [reflexivity|]. apply Qlt_shift_div_l; lra. }
  split; [exact Hrr|].
  destruct Hrr as (rr & Hrr & _).
  unfold TradeEvaluator.evaluate_execution_discipline.
  rewrite Hrr, Hs, Hp. cbn [is_some is_none negb].
  destruct (TradeEvaluator.has_notes t), (Py.leb 2 rr), (Py.leb 1 rr);
    cbn; discriminate.
Qed.

Lemma validated_trades_have_risk_reward_witness :
  exists rr, TradeEvaluator.calculate_risk_reward disciplined_trade = Some rr /\ 0 < rr.
Proof.
  apply (validated_trades_have_risk_reward [disciplined_trade]).
  - reflexivity.
  - now left.
Defined.

(** ** Filtering by date *)

(** X24. Filtering a window out of a window keeps the items of the
    intersection of the two, in their order; a window whose end precedes
    its start keeps nothing. *)
Theorem filter_by_date_range_compose {A} (timestamp_of : A -> Z) (data : list A)
    (s1 e1 s2 e2 : Z) :
  DataIngestion.filter_by_date_range timestamp_of
    (DataIngestion.filter_by_date_range timestamp_of data s1 e1) s2 e2
  = DataIngestion.filter_by_date_range timestamp_of data (Z.max s1 s2) (Z.min e1 e2) /\
  ((e1 < s1)%Z -> DataIngestion.filter_by_date_range timestamp_of data s1 e1 = []).
Proof.
  unfold DataIngestion.filter_by_date_range. split.
  - rewrite filter_twice. apply filter_ext. intro x.
    destruct (s1 <=? timestamp_of x)%Z eqn:E1, (timestamp_of x <=? e1)%Z eqn:E2,
      (s2 <=? timestamp_of x)%Z eqn:E3, (timestamp_of x <=? e2)%Z eqn:E4,
      (Z.max s1 s2 <=? timestamp_of x)%Z eqn:E5,
      (timestamp_of x <=? Z.min e1 e2)%Z eqn:E6; try reflexivity; exfalso;
      rewrite ?Z.leb_le, ?Z.leb_gt in *; lia.
  - intro H. induction data as [|x data IH]; [reflexivity|].
    cbn [filter]. rewrite IH.
    destruct (s1 <=? timestamp_of x)%Z eqn:E1, (timestamp_of x <=? e1)%Z eqn:E2;
      try reflexivity; exfalso; rewrite ?Z.leb_le in *; lia.
Qed.

Lemma filter_by_date_range_compose_witness :
  DataIngestion.filter_by_date_range trade_timestamp [buy_trade 100 None None] 1 0 = [].
Proof.
  apply (filter_by_date_range_compose trade_timestamp [buy_trade 100 None None] 1 0 0 0).
  lia.
Defined.

(** ** Manual trades *)

Lemma parse_zeros (k : nat) (s : string) :
  parse_decimal (ManualTradeManager.zeros k ++ s) = parse_decimal s.
Proof.
  unfold parse_decimal. induction k as [|k IH]; [reflexivity|].
  cbn [ManualTradeManager.zeros append DecimalString.NilEmpty.uint_of_string].
  rewrite <- IH.
  destruct (DecimalString.NilEmpty.uint_of_string (ManualTradeManager.zeros k ++ s));
    reflexivity.
Qed.

Lemma parse_format_04d (n : nat) :
  parse_decimal (ManualTradeManager.format_04d n) = Some n.
Proof.
  unfold ManualTradeManager.format_04d. rewrite parse_zeros.
  unfold parse_decimal, ManualTradeManager.decimal.
  rewrite DecimalString.NilEmpty.usu. cbn [option_map].
  now rewrite DecimalNat.Unsigned.of_to.
Qed.

Lemma manual_id_inj (j k : nat) : manual_id j = manual_id k -> j = k.
Proof.
  unfold manual_id. intro H. cbn [append] in H. injection H as H.
  apply (f_equal parse_decimal) in H. rewrite !parse_format_04d in H.
  now injection H.
Qed.

Lemma kept_ids_distinct (keep : Trade -> bool) (trades : list Trade) :
  NoDup (map trade_id trades) -> NoDup (map trade_id (filter keep trades)).
Proof.
  intro Hids. induction trades as [|t trades IH]; cbn [map filter] in *;
    [constructor|].
  apply NoDup_cons_iff in Hids. destruct Hids as [Hfresh Hrest].
  destruct (keep t); [|exact (IH Hrest)].
  cbn [map]. apply NoDup_cons; [|exact (IH Hrest)].
  rewrite in_map_iff in *. intros (u & Hu & Hin). apply Hfresh.
  exists u. split; [exact Hu|]. apply filter_In in Hin. apply Hin.
Qed.

Lemma Forall_kept {A} (P : A -> Prop) (p : A -> bool) (l : list A) :
  Forall P l -> Forall P (filter p l).
Proof.
  rewrite !Forall_forall. intros H x Hx. apply filter_In in Hx. apply H, Hx.
Qed.

Lemma update_first_some (trades : list Trade) (target : string)
    (a : option Q) (b : option Z) (c d : option Q) (e : option string) :
  forall trades' u,
    ManualTradeManager.update_first trades target a b c d e = Some (trades', u) ->
    exists l1 t l2,
      trades = l1 ++ t :: l2 /\ trades' = l1 ++ u :: l2 /\
      trade_id t = target /\ Forall (fun x => trade_id x <> target) l1 /\
      u = ManualTradeManager.updated_trade t a b c d e.
Proof.
  induction trades as [|t trades IH]; intros trades' u H;
    cbn [ManualTradeManager.update_first] in H; [discriminate|].
  destruct (String.eqb (trade_id t) target) eqn:E.
  - injection H as <- <-. apply String.eqb_eq in E.
    exists [], t, trades. repeat split; auto.
  - destruct (ManualTradeManager.update_first trades target a b c d e)
      as [[rest' u']|]; [|discriminate].
    injection H as <- <-.
    destruct (IH rest' u' eq_refl) as (l1 & x & l2 & -> & -> & Hx & Hl1 & Hu).
    apply String.eqb_neq in E.
    exists (t :: l1), x, l2. repeat split; auto.
Qed.

Lemma update_first_none (trades : list Trade) (target : string)
    (a : option Q) (b : option Z) (c d : option Q) (e : option string) :
  ManualTradeManager.update_first trades target a b c d e = None <->
  ~ In target (map trade_id trades).
Proof.
  induction trades as [|t trades IH]; cbn [ManualTradeManager.update_first map In].
  - tauto.
  - destruct (String.eqb (trade_id t) target) eqn:E.
    + apply String.eqb_eq in E. split; [discriminate|tauto].
    + apply String.eqb_neq in E.
      destruct (ManualTradeManager.update_first trades target a b c d e)
        as [[rest' u']|].
      * split; [discriminate|]. intro H. exfalso.
        assert (Hn : ~ In target (map trade_id trades)) by tauto.
        apply IH in Hn. discriminate.
      * split; [|reflexivity]. intros _ [H|H]; [contradiction|].
        now apply (proj1 IH).
Qed.

Lemma delete_first_some (trades : list Trade) (target : string) :
  forall trades',
    ManualTradeManager.delete_first trades target = Some trades' ->
    exists l1 t l2,
      trades = l1 ++ t :: l2 /\ trades' = l1 ++ l2 /\
      trade_id t = target /\ Forall (fun x => trade_id x <> target) l1.
Proof.
  induction trades as [|t trades IH]; intros trades' H;
    cbn [ManualTradeManager.delete_first] in H; [discriminate|].
  destruct (String.eqb (trade_id t) target) eqn:E.
  - injection H as <-. apply String.eqb_eq in E.
    exists [], t, trades. repeat split; auto.
  - destruct (ManualTradeManager.delete_first trades target) as [rest'|];
      [|discriminate].
    injection H as <-.
    destruct (IH rest' eq_refl) as (l1 & x & l2 & -> & -> & Hx & Hl1).
    apply String.eqb_neq in E.
    exists (t :: l1), x, l2. repeat split; auto.
Qed.

Lemma delete_first_none (trades : list Trade) (target : string) :
  ManualTradeManager.delete_first trades target = None <->
  ~ In target (map trade_id trades).
Proof.
  induction trades as [|t trades IH]; cbn [ManualTradeManager.delete_first map In].
  - tauto.
  - destruct (String.eqb (trade_id t) target) eqn:E.
    + apply String.eqb_eq in E. split; [discriminate|tauto].
    + apply String.eqb_neq in E.
      destruct (ManualTradeManager.delete_first trades target) as [rest'|].
      * split; [discriminate|]. intro H. exfalso.
        assert (Hn : ~ In target (map trade_id trades)) by tauto.
        apply IH in Hn. discriminate.
      * split; [|reflexivity]. intros _ [H|H]; [contradiction|].
        now apply (proj1 IH).
Qed.

Lemma updated_trade_exit (t : Trade) (a : option Q) (b : option Z) (c d : option Q)
    (e : option string) :
  has_exit_price t = has_pnl t ->
  has_exit_price (ManualTradeManager.updated_trade t a b c d e)
  = has_pnl (ManualTradeManager.updated_trade t a b c d e).
Proof.
  unfold has_exit_price, has_pnl, ManualTradeManager.updated_trade. cbn.
  destruct a; [reflexivity|]. now cbn.
Qed.

Section ManualTrades.

Variables (upper lower : string -> string).

(** What every manager the methods can produce satisfies. *)
Lemma reachable_invariant (self : ManualTradeManager.manager) :
  ManualTradeManager.reachable upper lower self ->
  Forall (fun t => has_exit_price t = has_pnl t) (ManualTradeManager._trades self) /\
  NoDup (map trade_id (ManualTradeManager._trades self)) /\
  Forall (issued (ManualTradeManager._trade_counter self))
    (ManualTradeManager._trades self).
Proof.
  induction 1 as [ | self now sym sd entry qty ts ex exts sl tp nt _ (Hx & Hn & Hi)
                   | self target ex exts sl tp nt _ (Hx & Hn & Hi)
                   | self target _ (Hx & Hn & Hi)
                   | self sym _ (Hx & Hn & Hi) ].
  - cbn. repeat split; constructor.
  - assert (Hi' : Forall (issued (S (ManualTradeManager._trade_counter self)))
                    (ManualTradeManager._trades self)).
    { eapply Forall_impl; [|exact Hi]. intros t (k & Hk & Hid).
      exists k. split; [lia|assumption]. }
    unfold ManualTradeManager.add_trade.
    destruct (ManualTradeManager.side_of_string (lower sd)) as [s|]; cbn [fst];
      cbn [ManualTradeManager._trades ManualTradeManager._trade_counter];
      [|repeat split; assumption].
    repeat split.
    + apply Forall_app. split; [assumption|]. constructor; [|constructor].
      unfold has_exit_price, has_pnl. cbn. now destruct ex.
    + rewrite map_app. cbn [map trade_id].
      apply NoDup_app; [assumption|repeat constructor; intros []|].
      intros id Hin [<-|[]]. fold (manual_id (S (ManualTradeManager._trade_counter self))) in Hin.
      apply in_map_iff in Hin. destruct Hin as (t & Hid & Hin).
      rewrite Forall_forall in Hi. destruct (Hi t Hin) as (k & Hk & Hid').
      rewrite Hid' in Hid. apply manual_id_inj in Hid. lia.
    + apply Forall_app. split; [assumption|]. constructor; [|constructor].
      exists (S (ManualTradeManager._trade_counter self)). split; [lia|reflexivity].
  - unfold ManualTradeManager.update_trade.
    destruct (ManualTradeManager.update_first (ManualTradeManager._trades self)
                target ex exts sl tp nt) as [[trades' u]|] eqn:E; cbn [fst];
      [|repeat split; assumption].
    apply update_first_some in E.
    destruct E as (l1 & t & l2 & E & -> & Hid & _ & ->).
    cbn [ManualTradeManager._trades ManualTradeManager._trade_counter].
    rewrite E in Hx, Hn, Hi.
    apply Forall_app in Hx. destruct Hx as [Hx1 Hx2].
    apply Forall_app in Hi. destruct Hi as [Hi1 Hi2].
    inversion Hx2 as [|? ? Hxt Hx2']. inversion Hi2 as [|? ? Hit Hi2']. subst.
    repeat split.
    + apply Forall_app. split; [assumption|].
      constructor; [now apply updated_trade_exit|assumption].
    + rewrite map_app in *. exact Hn.
    + apply Forall_app. split; [assumption|]. constructor; assumption.
  - unfold ManualTradeManager.delete_trade.
    destruct (ManualTradeManager.delete_first (ManualTradeManager._trades self) target)
      as [trades'|] eqn:E; cbn [fst]; [|repeat split; assumption].
    apply delete_first_some in E.
    destruct E as (l1 & t & l2 & E & -> & Hid & _).
    cbn [ManualTradeManager._trades ManualTradeManager._trade_counter].
    rewrite E in Hx, Hn, Hi.
    apply Forall_app in Hx. destruct Hx as [Hx1 Hx2].
    apply Forall_app in Hi. destruct Hi as [Hi1 Hi2].
    inversion Hx2 as [|? ? Hxt Hx2']. inversion Hi2 as [|? ? Hit Hi2']. subst.
    repeat split.
    + apply Forall_app. split; assumption.
    + rewrite map_app in *. cbn [map] in Hn. now apply NoDup_remove_1 in Hn.
    + apply Forall_app. split; assumption.
  - unfold ManualTradeManager.clear_trades.
    destruct (ManualTradeManager.given sym) as [s|];
      cbn [ManualTradeManager._trades ManualTradeManager._trade_counter].
    + repeat split.
      * now apply Forall_kept.
      * now apply kept_ids_distinct.
      * now apply Forall_kept.
    + repeat split; constructor.
Qed.

End ManualTrades.

Lemma count_where_agree {A} (p q : A -> bool) (l : list A) :
  Forall (fun x => p x = q x) l -> count_where p l = count_where q l.
Proof.
  induction 1 as [|x l Hx _ IH]; [reflexivity|].
  cbn [count_where]. now rewrite Hx, IH.
Qed.

(** X25. In every store the methods of the manager can produce, a trade has a
    realized P&L exactly when it has an exit price; so the number of closed
    trades the performance metrics report for the store is the number of
    its trades with an exit price. *)
Theorem manual_trades_closed_consistently (upper lower : string -> string)
    (self : ManualTradeManager.manager) (evaluations : list TradeEvaluation) :
  ManualTradeManager.reachable upper lower self ->
  Forall (fun t => has_exit_price t = has_pnl t) (ManualTradeManager._trades self) /\
  TradeReviewSystem.closed_trades
    (TradeReviewSystem._calculate_performance_metrics
       (ManualTradeManager._trades self) evaluations)
  = count_where has_exit_price (ManualTradeManager._trades self).
Proof.
  intro H. destruct (reachable_invariant upper lower self H) as (Hx & _).
  split; [exact Hx|].
  destruct (metrics_counts (ManualTradeManager._trades self) evaluations)
    as (_ & -> & _).
  symmetry. now apply count_where_agree.
Qed.

Lemma manual_trades_closed_consistently_witness :
  TradeReviewSystem.closed_trades
    (TradeReviewSystem._calculate_performance_metrics
       (ManualTradeManager._trades
          (fst (ManualTradeManager.add_trade (fun s => s) (fun s => s)
                  ManualTradeManager.init 0 "AAPL" "buy" 100 1 None (Some 110)
                  None None None None))) [])
  = 1%Z.
Proof.
  apply (manual_trades_closed_consistently (fun s => s) (fun s => s)
           (fst (ManualTradeManager.add_trade (fun s => s) (fun s => s)
                   ManualTradeManager.init 0 "AAPL" "buy" 100 1 None (Some 110)
                   None None None None)) []).
  apply ManualTradeManager.reach_add, ManualTradeManager.reach_init.
Defined.

(** X26. In every store the methods of the manager can produce, no two trades
    share an identifier, and every identifier is ["MANUAL-"] followed by
    the four-digit form of a number between 1 and the counter. *)
Theorem manual_trade_ids_unique (upper lower : string -> string)
    (self : ManualTradeManager.manager) :
  ManualTradeManager.reachable upper lower self ->
  NoDup (map trade_id (ManualTradeManager._trades self)) /\
  Forall (issued (ManualTradeManager._trade_counter self))
    (ManualTradeManager._trades self).
Proof.
  intro H. destruct (reachable_invariant upper lower self H) as (_ & Hn & Hi).
  now split.
Qed.

Lemma manual_trade_ids_unique_witness :
  NoDup (map trade_id
           (ManualTradeManager._trades
              (fst (ManualTradeManager.add_trade (fun s => s) (fun s => s)
                      ManualTradeManager.init 0 "AAPL" "buy" 100 1 None None
                      None None None None)))).
Proof.
  apply (manual_trade_ids_unique (fun s => s) (fun s => s)
           (fst (ManualTradeManager.add_trade (fun s => s) (fun s => s)
                   ManualTradeManager.init 0 "AAPL" "buy" 100 1 None None
                   None None None None))).
  apply ManualTradeManager.reach_add, ManualTradeManager.reach_init.
Defined.

(** X27. [delete_trade] on a store the methods can produce: it reports a
    deletion exactly when the identifier is in the store; afterwards the
    identifier is not in the store, every other trade is, the counter is
    unchanged, and the store is shorter by one exactly when a deletion is
    reported. *)
Theorem delete_trade_removes_the_trade (upper lower : string -> string)
    (self : ManualTradeManager.manager) (target : string) :
  ManualTradeManager.reachable upper lower self ->
  let self' := fst (ManualTradeManager.delete_trade self target) in
  let found := snd (ManualTradeManager.delete_trade self target) in
  (found = true <-> In target (map trade_id (ManualTradeManager._trades self))) /\
  ~ In target (map trade_id (ManualTradeManager._trades self')) /\
  (forall t, In t (ManualTradeManager._trades self') <->
             In t (ManualTradeManager._trades self) /\ trade_id t <> target) /\
  ManualTradeManager._trade_counter self' = ManualTradeManager._trade_counter self /\
  (count (ManualTradeManager._trades self')
   = count (ManualTradeManager._trades self) - (if found then 1 else 0))%Z.
Proof.
  intro H. destruct (reachable_invariant upper lower self H) as (_ & Hn & _).
  cbv zeta. unfold ManualTradeManager.delete_trade.
  destruct (ManualTradeManager.delete_first (ManualTradeManager._trades self) target)
    as [trades'|] eqn:E; cbn [fst snd].
  - apply delete_first_some in E.
    destruct E as (l1 & t & l2 & E & -> & Hid & Hl1).
    cbn [ManualTradeManager._trades ManualTradeManager._trade_counter].
    rewrite E in *. rewrite map_app in Hn. cbn [map] in Hn.
    pose proof (NoDup_remove_2 _ _ _ Hn) as Hnot. rewrite Hid in Hnot.
    rewrite <- map_app in Hnot.
    repeat split.
    + intros _. rewrite map_app. apply in_or_app. right. left. exact Hid.
    + exact Hnot.
    + apply in_app_or in H0. apply in_or_app. cbn [In]. tauto.
    + intros <-. apply Hnot. now apply in_map.
    + intros [Hin Hne]. apply in_app_or in Hin. apply in_or_app.
      destruct Hin as [Hin|[<-|Hin]]; [tauto|contradiction|tauto].
    + unfold count. rewrite !length_app. cbn [List.length]. lia.
  - apply delete_first_none in E. repeat split; try tauto; try discriminate.
    + intros <-. apply E. now apply in_map.
    + lia.
Qed.

Lemma delete_trade_removes_the_trade_witness :
  ~ In "MANUAL-0001"%string
      (map trade_id
         (ManualTradeManager._trades
            (fst (ManualTradeManager.delete_trade
                    (fst (ManualTradeManager.add_trade (fun s => s) (fun s => s)
                            ManualTradeManager.init 0 "AAPL" "buy" 100 1 None None
                            None None None None))
                    "MANUAL-0001")))).
Proof.
  apply (delete_trade_removes_the_trade (fun s => s) (fun s => s)
           (fst (ManualTradeManager.add_trade (fun s => s) (fun s => s)
                   ManualTradeManager.init 0 "AAPL" "buy" 100 1 None None
                   None None None None)) "MANUAL-0001").
  apply ManualTradeManager.reach_add, ManualTradeManager.reach_init.
Defined.

Lemma updated_trade_noop (t : Trade) :
  ManualTradeManager.updated_trade t None None None None None = t.
Proof. now destruct t. Qed.

Lemma or_else_keeps {A} (x y : option A) :
  is_some y = true -> is_some (ManualTradeManager.or_else x y) = true.
Proof. now destruct x. Qed.

(** X28. [update_trade] returns nothing and changes nothing exactly when the
    identifier is not in the store; otherwise it returns the update of the
    first trade with the identifier, which takes that trade's place. The
    identifiers of the store, their order and the counter never change; a
    field that was set is never unset; and an update that gives no new
    value changes no trade. *)
Theorem update_trade_in_place (self : ManualTradeManager.manager) (target : string)
    (new_exit_price : option Q) (new_exit_timestamp : option Z)
    (new_stop_loss new_take_profit : option Q) (new_notes : option string) :
  let r := ManualTradeManager.update_trade self target new_exit_price
             new_exit_timestamp new_stop_loss new_take_profit new_notes in
  map trade_id (ManualTradeManager._trades (fst r))
  = map trade_id (ManualTradeManager._trades self) /\
  ManualTradeManager._trade_counter (fst r) = ManualTradeManager._trade_counter self /\
  (snd r = None <-> ~ In target (map trade_id (ManualTradeManager._trades self))) /\
  (snd r = None -> fst r = self) /\
  (forall u, snd r = Some u ->
     exists l1 t l2,
       ManualTradeManager._trades self = l1 ++ t :: l2 /\
       ManualTradeManager._trades (fst r) = l1 ++ u :: l2 /\
       Forall (fun x => trade_id x <> target) l1 /\
       trade_id t = target /\ trade_id u = target /\
       (is_some (exit_price t) = true -> is_some (exit_price u) = true) /\
       (is_some (stop_loss t) = true -> is_some (stop_loss u) = true) /\
       (is_some (take_profit t) = true -> is_some (take_profit u) = true) /\
       (is_some (pnl t) = true -> is_some (pnl u) = true) /\
       (is_some (exit_price u) = true ->
        is_some (exit_price t) = false -> is_some (pnl u) = true)) /\
  ManualTradeManager._trades
    (fst (ManualTradeManager.update_trade self target None None None None None))
  = ManualTradeManager._trades self.
Proof.
  cbv zeta. unfold ManualTradeManager.update_trade.
  split; [|split; [|split; [|split; [|split]]]].
  6: {
    destruct (ManualTradeManager.update_first (ManualTradeManager._trades self)
                target None None None None None) as [[trades' u]|] eqn:E;
      cbn [fst]; [|reflexivity].
    apply update_first_some in E.
    destruct E as (l1 & t & l2 & -> & -> & _ & _ & ->).
    cbn [ManualTradeManager._trades]. now rewrite updated_trade_noop. }
  all: destruct (ManualTradeManager.update_first (ManualTradeManager._trades self)
                   target new_exit_price new_exit_timestamp new_stop_loss
                   new_take_profit new_notes) as [[trades' u]|] eqn:E;
    cbn [fst snd ManualTradeManager._trades ManualTradeManager._trade_counter];
    try reflexivity.
  - apply update_first_some in E.
    destruct E as (l1 & t & l2 & -> & -> & _ & _ & ->).
    rewrite !map_app. reflexivity.
  - split; [discriminate|]. intro Hn.
    apply (update_first_none _ _ new_exit_price new_exit_timestamp new_stop_loss
             new_take_profit new_notes) in Hn.
    rewrite Hn in E. discriminate.
  - apply update_first_none in E. tauto.
  - discriminate.
  - intros u' [= <-]. apply update_first_some in E.
    destruct E as (l1 & t & l2 & E1 & E2 & Hid & Hl1 & ->).
    exists l1, t, l2. repeat split; try assumption.
    + cbn. apply or_else_keeps.
    + cbn. apply or_else_keeps.
    + cbn. apply or_else_keeps.
    + cbn. destruct new_exit_price; [reflexivity|tauto].
    + cbn. destruct new_exit_price; [reflexivity|]. cbn. congruence.
  - discriminate.
Qed.

(** ** Listing manual trades *)

Lemma insert_by_timestamp_perm (t : Trade) (l : list Trade) :
  Permutation (ManualTradeManager.insert_by_timestamp t l) (t :: l).
Proof.
  induction l as [|u l IH]; cbn [ManualTradeManager.insert_by_timestamp];
    [reflexivity|].
  destruct (trade_timestamp t <=? trade_timestamp u)%Z; [reflexivity|].
  rewrite IH. apply perm_swap.
Qed.

Lemma sorted_by_timestamp_perm (l : list Trade) :
  Permutation (ManualTradeManager.sorted_by_timestamp l) l.
Proof.
  induction l as [|t l IH]; cbn [ManualTradeManager.sorted_by_timestamp];
    [reflexivity|].
  rewrite insert_by_timestamp_perm. now constructor.
Qed.

Lemma insert_by_timestamp_sorted (t : Trade) (l : list Trade) :
  Sorted not_after l -> Sorted not_after (ManualTradeManager.insert_by_timestamp t l).
Proof.
  induction 1 as [|u l Hs IH Hhd]; cbn [ManualTradeManager.insert_by_timestamp].
  - repeat constructor.
  - destruct (trade_timestamp t <=? trade_timestamp u)%Z eqn:E.
    + apply Z.leb_le in E. repeat constructor; assumption.
    + apply Z.leb_gt in E. constructor; [assumption|].
      destruct l as [|v l]; cbn [ManualTradeManager.insert_by_timestamp] in *.
      * constructor. unfold not_after. lia.
      * destruct (trade_timestamp t <=? trade_timestamp v)%Z;
          constructor; [unfold not_after; lia|now inversion Hhd].
Qed.

Lemma sorted_by_timestamp_sorted (l : list Trade) :
  Sorted not_after (ManualTradeManager.sorted_by_timestamp l).
Proof.
  induction l as [|t l IH]; cbn [ManualTradeManager.sorted_by_timestamp];
    [constructor|now apply insert_by_timestamp_sorted].
Qed.

Lemma sorted_by_timestamp_in (t : Trade) (l : list Trade) :
  In t (ManualTradeManager.sorted_by_timestamp l) <-> In t l.
Proof.
  split; apply Permutation_in;
    [|apply Permutation_sym]; apply sorted_by_timestamp_perm.
Qed.

(** X29. [get_trades] returns, ordered by timestamp, exactly the trades of the
    store that pass the filters given: the symbol in upper case, the start
    and the end date. With no filter it returns the whole store. *)
Theorem get_trades_selects_and_sorts (upper : string -> string)
    (self : ManualTradeManager.manager) (for_symbol : option string)
    (start_date end_date : option Z) :
  let listed := ManualTradeManager.get_trades upper self for_symbol start_date end_date in
  Sorted not_after listed /\
  (forall t, In t listed <->
             In t (ManualTradeManager._trades self) /\
             selected upper for_symbol start_date end_date t) /\
  (List.length listed <= List.length (ManualTradeManager._trades self))%nat /\
  Permutation (ManualTradeManager.get_trades upper self None None None)
    (ManualTradeManager._trades self).
Proof.
  cbv zeta. unfold ManualTradeManager.get_trades, selected.
  split; [apply sorted_by_timestamp_sorted|].
  split; [|split].
  - intro t. rewrite sorted_by_timestamp_in.
    destruct (ManualTradeManager.given for_symbol) as [s|], start_date as [d1|],
      end_date as [d2|]; rewrite ?filter_In, ?String.eqb_eq, ?Z.leb_le; tauto.
  - rewrite (Permutation_length (sorted_by_timestamp_perm _)).
    destruct (ManualTradeManager.given for_symbol) as [s|], start_date as [d1|],
      end_date as [d2|];
      repeat (etransitivity; [apply filter_length_le|]); reflexivity.
  - cbn [ManualTradeManager.given]. apply sorted_by_timestamp_perm.
Qed.

(** ** Manual trades and their evaluation *)

(** X30. A trade entered by [add_trade] with an exit price, a positive entry
    price and a positive quantity is a win exactly when the exit is on the
    profitable side of the entry (above for a buy, below for a sell) and a
    loss exactly when it is on the other side; its exit is always scored,
    never as poor when it won and never as good when it did not. *)
Theorem manual_trade_outcome (upper lower : string -> string)
    (self self' : ManualTradeManager.manager) (now : Z) (for_symbol for_side : string)
    (entry quantity exit : Q) (timestamp new_exit_timestamp : option Z)
    (sl tp : option Q) (new_notes : option string) (t : Trade) (ctx : MarketContext) :
  ManualTradeManager.add_trade upper lower self now for_symbol for_side entry quantity
    timestamp (Some exit) new_exit_timestamp sl tp new_notes
  = (self', ManualTradeManager.Built t) ->
  0 < entry -> 0 < quantity ->
  (is_win t = true <-> match side t with Buy => entry < exit | Sell => exit < entry end) /\
  (is_loss t = true <-> match side t with Buy => exit < entry | Sell => entry < exit end) /\
  exists q,
    TradeEvaluator.evaluate_exit_quality t ctx = Py.Ok (Some q) /\
    (is_win t = true -> q <> Poor) /\
    (is_win t = false -> q <> Good).
Proof.
  intros H Hentry Hqty. unfold ManualTradeManager.add_trade in H.
  destruct (ManualTradeManager.side_of_string (lower for_side)) as [s|] eqn:Es;
    [|discriminate].
  injection H as _ <-.
  match goal with |- context [is_win ?x] => set (t := x) end.
  assert (Hpnl : pnl t = Some (match s with
                               | Buy => (exit - entry) * quantity
                               | Sell => (entry - exit) * quantity
                               end)).
  { unfold t. cbn [pnl]. unfold ManualTradeManager.side_of_string in Es.
    unfold ManualTradeManager.realized_pnl.
    destruct (String.eqb (lower for_side) "buy").
    - now injection Es as <-.
    - destruct (String.eqb (lower for_side) "sell"); [|discriminate].
      now injection Es as <-. }
  assert (Hside : side t = s) by reflexivity.
  assert (Hen : entry_price t = entry) by reflexivity.
  assert (Hex : exit_price t = Some exit) by reflexivity.
  assert (Hwin : is_win t = true <->
                 match s with Buy => entry < exit | Sell => exit < entry end).
  { unfold is_win. rewrite Hpnl, ltb_lt. destruct s; split; intro; nra. }
  assert (Hloss : is_loss t = true <->
                  match s with Buy => exit < entry | Sell => entry < exit end).
  { unfold is_loss. rewrite Hpnl, ltb_lt. destruct s; split; intro; nra. }
  rewrite Hside. split; [exact Hwin|]. split; [exact Hloss|].
  assert (Hnz : ~ entry_price t == 0) by (rewrite Hen; lra).
  destruct (exit_quality_outcome_fact t ctx) as (_ & _ & Hq).
  destruct (Hq exit Hex Hnz) as (q & Hq').
  exists q. split; [exact Hq'|].
  destruct (exit_quality_table_fact t ctx exit q Hex Hnz Hq') as (Hg & Hp).
  rewrite Hside, Hen in Hg, Hp.
  set (ret := match s with
              | Buy => (exit - entry) / entry
              | Sell => (entry - exit) / entry
              end) in *.
  assert (Hret : ret * entry == match s with
                                | Buy => exit - entry
                                | Sell => entry - exit
                                end).
  { unfold ret. destruct s; field; lra. }
  assert (Hsign : 0 < ret <-> is_win t = true).
  { rewrite Hwin. destruct s; split; intro; nra. }
  split.
  - intros Hw ->. apply Hsign in Hw.
    destruct (proj1 Hp eq_refl) as [[Hr _]|[Hr _]]; lra.
  - intros Hw ->.
    assert (0 < ret) by (destruct (proj1 Hg eq_refl) as [[Hr _]|[Hr _]]; lra).
    apply Hsign in H. congruence.
Qed.

Lemma manual_trade_outcome_witness :
  is_win (mkTrade "MANUAL-0001" 0 "AAPL" Buy 100 (Some 110) None 1 None None
            (Some ((110 - 100) * 1)) None) = true <-> 100 < 110.
Proof.
  destruct (manual_trade_outcome (fun s => s) (fun s => s) ManualTradeManager.init
              (ManualTradeManager.mkManager
                 [mkTrade "MANUAL-0001" 0 "AAPL" Buy 100 (Some 110) None 1 None None
                    (Some ((110 - 100) * 1)) None] 1)
              0 "AAPL" "buy" 100 1 110 None None None None None
              (mkTrade "MANUAL-0001" 0 "AAPL" Buy 100 (Some 110) None 1 None None
                 (Some ((110 - 100) * 1)) None)
              (flat_context [] [])) as (H & _).
  - reflexivity.
  - reflexivity.
  - reflexivity.
  - exact H.
Defined.
